(** * Verification of lib/client.js (crypto-exchanges-ws-client)

    A shallow embedding of the [Client] class of [lib/client.js]: the
    connection supervisor, the session handshake, command correlation and
    the outbound queue, followed by the properties proved about them.

    Conventions of the embedding.
    - JavaScript values that reach the control flow (parsed JSON frames,
      the session id, query parameters) are values of [value].  A number
      that is not an integer never influences a branch of this program
      other than through its string form, so it is carried as the string of
      its literal.
    - JavaScript numbers are IEEE doubles: [x++] is exact below 2^53 and
      leaves 2^53 unchanged; [js_incr] writes this out.
    - [this.emit], calls on the transport object, [setTimeout] and calls of
      result handlers are recorded, in program order, in a list of
      observations returned by every operation.  Listeners and handlers are
      opaque.  Where the emit or the call is the last action of an
      operation, what they ask of the client is a later caller operation.
      Two events are emitted before the operation is over: [ready], in
      the middle of [_processMessage] and inside its [try], and
      [disconnected], before the handler schedules the reconnection.  The
      calls that the listeners of these two make on the client, and
      whether they throw, are an argument of the operation ([Listeners]).
    - Strings are sequences of bytes, UTF-8 for text outside ASCII.
    - [debug(...)] lines only format text and are left out. *)

From stdpp Require Import base option list gmap strings pretty.
From Stdlib Require Import ZArith Lia.

Set Warnings "-register-all".
Open Scope Z_scope.

(** ** JavaScript values *)

Inductive value : Type :=
| VUndefined
| VNull
| VBool (b : bool)
| VNum (z : Z)
| VStr (s : string)
| VArr (items : list value)
| VObj (fields : list (string * value)).

(** Result of evaluating an expression that may throw. *)
Inductive completion (A : Type) : Type :=
| Normal (a : A)
| Throw (what : string).
Arguments Normal {A} a.
Arguments Throw {A} what.

#[global] Instance completion_ret : MRet completion := @Normal.

#[global] Instance completion_bind : MBind completion := fun A B k c =>
  match c with
  | Normal a => k a
  | Throw e => Throw e
  end.

(** Own-property lookup in an object literal; a later duplicate key wins
    in [JSON.parse], parsed objects have none. *)
Fixpoint assoc (k : string) (fields : list (string * value)) : option value :=
  match fields with
  | [] => None
  | (k', v) :: rest => if decide (k = k') then Some v else assoc k rest
  end.

Fixpoint assoc_set (k : string) (v : value) (fields : list (string * value))
  : list (string * value) :=
  match fields with
  | [] => [(k, v)]
  | (k', v') :: rest =>
      if decide (k = k') then (k, v) :: rest else (k', v') :: assoc_set k v rest
  end.

(** [base.k] for the property names this program reads ([hello], [sid],
    [isNew], [n], [d], [r], [e], [i]); none of them is defined on a
    built-in prototype.  Reading a property of [null] or [undefined] throws
    a TypeError. *)
Definition get_prop (base : value) (k : string) : completion value :=
  match base with
  | VUndefined | VNull => Throw "TypeError"
  | VObj fields => Normal (default VUndefined (assoc k fields))
  | _ => Normal VUndefined
  end.

(** [base.k = v] in strict mode: throws on [null], [undefined] and on
    primitives.  A named property set on an array is not an element and is
    not represented. *)
Definition set_prop (base : value) (k : string) (v : value) : completion value :=
  match base with
  | VObj fields => Normal (VObj (assoc_set k v fields))
  | VArr items => Normal (VArr items)
  | _ => Throw "TypeError"
  end.

(** ToBoolean *)
Definition truthy (v : value) : bool :=
  match v with
  | VUndefined | VNull => false
  | VBool b => b
  | VNum z => negb (z =? 0)
  | VStr s => negb (bool_decide (s = ""))
  | VArr _ | VObj _ => true
  end.

Definition is_undefined (v : value) : bool :=
  match v with VUndefined => true | _ => false end.

Definition is_null (v : value) : bool :=
  match v with VNull => true | _ => false end.

Definition join_comma (parts : list string) : string :=
  match parts with
  | [] => ""
  | p :: ps => foldl (fun acc s => acc +:+ "," +:+ s) p ps
  end.

(** ToString, as used when a value is a property key ([obj[v]]); a number
    is an integer below 10^21 and prints in decimal. *)
Fixpoint to_key (v : value) : string :=
  match v with
  | VUndefined => "undefined"
  | VNull => "null"
  | VBool true => "true"
  | VBool false => "false"
  | VNum z => pretty z
  | VStr s => s
  | VArr items =>
      join_comma
        (map (fun x => match x with
                       | VUndefined | VNull => ""
                       | _ => to_key x
                       end) items)
  | VObj _ => "[object Object]"
  end.

(** [x++] / [++x] on a non-negative integer-valued double. *)
Definition js_incr (n : Z) : Z := if n <? 2 ^ 53 then n + 1 else n.

(** ** Data model *)

(** A result handler ([cb]) is an opaque function, known by its identity. *)
Definition handler := nat.

(** Outbound command object [{m, p?, i?}]; an absent field is [None]. *)
Record Message := {
  msg_m : string;
  msg_p : option value;
  msg_i : option Z;
}.

(** [this._connectionOptions] *)
Record ConnectionOptions := {
  apiKey : option string;
  retryCount : option Z;
  retryDelay : option Z;
  pingTimeout : option Z;
}.

(** What [_getUri] returns: the base alone, or the base, a question mark
    and [querystring.stringify(params)]. *)
Inductive Uri :=
| UriPlain (base : string)
| UriQuery (base : string) (params : gmap string value).

(** The fields of a [Client] instance.  [_connection] refers to a
    transport object by its allocation index; [None] is [null]. *)
Record Client := {
  _uri : string;
  _queryParams : gmap string value;
  _sessionId : value;
  _globalListener : bool;
  _retryDelay : Z;
  _connectionOptions : ConnectionOptions;
  _connectionCounter : Z;
  _connection : option nat;
  _connectedTimestamp : option Z;
  _readyTimestamp : option Z;
  _nextCommandId : Z;
  _callbacks : gmap string handler;
  _queue : list Message;
}.

Definition RETRY_DELAY : Z := 10 * 1000.

(** Events of the client's EventEmitter, with their payload fields. *)
Inductive Event :=
| disconnected (connectionId : Z) (code reason : value)
| connectionError (connectionId attempts : Z) (error : value)
| terminated (connectionId attempts : Z) (error : value)
| connected (connectionId : Z)
| ready (sessionId isNew : value)
| per_kind (n d : value)
| notification (d : value).

(** What an operation does to the outside, in program order. *)
Inductive Obs :=
| Emit (e : Event)
| WsNew (c : nat) (uri : Uri)
| WsConnect (c : nat)
| WsDisconnect (c : nat)
| WsSend (c : nat) (msg : Message)
| SetTimeout (c : nat) (delay : Z)
| Call (cb : handler) (result error : value).

(** A call that a listener makes on the client while it runs; a request
    method comes to [execute] or to an exception of the listener. *)
Inductive Op :=
| OpConnect
| OpReconnect
| OpDisconnect
| OpExecute (command : string) (params : option value) (cb : option handler).

(** What the listeners of an event do while [emit] runs them, one after
    the other: the calls they make on the client, in order, and whether a
    listener then throws, which ends [emit] with that exception. *)
Record Listeners := {
  l_calls : list Op;
  l_throws : bool;
}.

(** ** The transport connection

    [lib/websocket-connection.js] is not part of the sources at hand.  The
    client drives it through [connect], [disconnect], [isConnected] and
    [send] and listens to [connected], [disconnected], [connectionError]
    and [message]. *)

Inductive tstate :=
| TNew          (* created, connect() not honoured yet *)
| TConnecting   (* attempt in flight *)
| TBackoff      (* waiting before the next attempt *)
| TOpen
| TClosed
| TTerminated.  (* retries exhausted *)

#[global] Instance tstate_eq_dec : EqDecision tstate.
Proof. solve_decision. Defined.

(** One [WebSocketConnection] object together with what the closures
    registered on it captured ([counter]). *)
Record Transport := {
  t_counter : Z;
  t_uri : Uri;
  t_options : ConnectionOptions;
  t_state : tstate;
  t_attempts : Z;
}.

Definition set_tstate (s : tstate) (t : Transport) : Transport :=
  {| t_counter := t_counter t; t_uri := t_uri t; t_options := t_options t;
     t_state := s; t_attempts := t_attempts t |}.

Definition set_attempts (n : Z) (t : Transport) : Transport :=
  {| t_counter := t_counter t; t_uri := t_uri t; t_options := t_options t;
     t_state := t_state t; t_attempts := n |}.

(** A running transport holds, or is about to hold, a socket. *)
Definition live (s : tstate) : bool :=
  match s with
  | TConnecting | TBackoff | TOpen => true
  | _ => false
  end.

(** Modelled from the spec: the transport's [isConnected()], absent from
    the sources; true exactly while the transport is open. *)
Definition ws_isConnected (t : Transport) : bool :=
  bool_decide (t_state t = TOpen).

(** Modelled from the spec: the transport's [disconnect()] (the contract's
    [close()]), absent from the sources; it closes the transport whatever
    its state and raises no event. *)
Definition ws_disconnect (t : Transport) : Transport := set_tstate TClosed t.

(** Modelled from the spec: the retry decision of the absent transport on a
    failed attempt.  [done] attempts failed before this one; a retry is
    possible when the error is retryable and [done] is below the configured
    retry count, or the count is unbounded ([-1], also the default). *)
Definition retry_possible (o : ConnectionOptions) (retryable : bool) (done : Z) : bool :=
  retryable &&
  match retryCount o with
  | None => true
  | Some n => (n =? -1) || (done <? n)
  end.

(** The program state: the client object, every transport object created
    so far, and the [setTimeout] closures not yet run (each named by the
    transport it captured). *)
Record World := {
  client : Client;
  sockets : list Transport;
  timers : list nat;
}.

(** Field assignments on the client object. *)
Definition set_sessionId (v : value) (c : Client) : Client :=
  {| _uri := _uri c; _queryParams := _queryParams c; _sessionId := v;
     _globalListener := _globalListener c; _retryDelay := _retryDelay c;
     _connectionOptions := _connectionOptions c;
     _connectionCounter := _connectionCounter c; _connection := _connection c;
     _connectedTimestamp := _connectedTimestamp c;
     _readyTimestamp := _readyTimestamp c; _nextCommandId := _nextCommandId c;
     _callbacks := _callbacks c; _queue := _queue c |}.

Definition set_connectionCounter (n : Z) (c : Client) : Client :=
  {| _uri := _uri c; _queryParams := _queryParams c; _sessionId := _sessionId c;
     _globalListener := _globalListener c; _retryDelay := _retryDelay c;
     _connectionOptions := _connectionOptions c;
     _connectionCounter := n; _connection := _connection c;
     _connectedTimestamp := _connectedTimestamp c;
     _readyTimestamp := _readyTimestamp c; _nextCommandId := _nextCommandId c;
     _callbacks := _callbacks c; _queue := _queue c |}.

Definition set_connection (r : option nat) (c : Client) : Client :=
  {| _uri := _uri c; _queryParams := _queryParams c; _sessionId := _sessionId c;
     _globalListener := _globalListener c; _retryDelay := _retryDelay c;
     _connectionOptions := _connectionOptions c;
     _connectionCounter := _connectionCounter c; _connection := r;
     _connectedTimestamp := _connectedTimestamp c;
     _readyTimestamp := _readyTimestamp c; _nextCommandId := _nextCommandId c;
     _callbacks := _callbacks c; _queue := _queue c |}.

Definition set_connectedTimestamp (t : option Z) (c : Client) : Client :=
  {| _uri := _uri c; _queryParams := _queryParams c; _sessionId := _sessionId c;
     _globalListener := _globalListener c; _retryDelay := _retryDelay c;
     _connectionOptions := _connectionOptions c;
     _connectionCounter := _connectionCounter c; _connection := _connection c;
     _connectedTimestamp := t;
     _readyTimestamp := _readyTimestamp c; _nextCommandId := _nextCommandId c;
     _callbacks := _callbacks c; _queue := _queue c |}.

Definition set_readyTimestamp (t : option Z) (c : Client) : Client :=
  {| _uri := _uri c; _queryParams := _queryParams c; _sessionId := _sessionId c;
     _globalListener := _globalListener c; _retryDelay := _retryDelay c;
     _connectionOptions := _connectionOptions c;
     _connectionCounter := _connectionCounter c; _connection := _connection c;
     _connectedTimestamp := _connectedTimestamp c;
     _readyTimestamp := t; _nextCommandId := _nextCommandId c;
     _callbacks := _callbacks c; _queue := _queue c |}.

Definition set_nextCommandId (n : Z) (c : Client) : Client :=
  {| _uri := _uri c; _queryParams := _queryParams c; _sessionId := _sessionId c;
     _globalListener := _globalListener c; _retryDelay := _retryDelay c;
     _connectionOptions := _connectionOptions c;
     _connectionCounter := _connectionCounter c; _connection := _connection c;
     _connectedTimestamp := _connectedTimestamp c;
     _readyTimestamp := _readyTimestamp c; _nextCommandId := n;
     _callbacks := _callbacks c; _queue := _queue c |}.

Definition set_callbacks (m : gmap string handler) (c : Client) : Client :=
  {| _uri := _uri c; _queryParams := _queryParams c; _sessionId := _sessionId c;
     _globalListener := _globalListener c; _retryDelay := _retryDelay c;
     _connectionOptions := _connectionOptions c;
     _connectionCounter := _connectionCounter c; _connection := _connection c;
     _connectedTimestamp := _connectedTimestamp c;
     _readyTimestamp := _readyTimestamp c; _nextCommandId := _nextCommandId c;
     _callbacks := m; _queue := _queue c |}.

Definition set_queue (q : list Message) (c : Client) : Client :=
  {| _uri := _uri c; _queryParams := _queryParams c; _sessionId := _sessionId c;
     _globalListener := _globalListener c; _retryDelay := _retryDelay c;
     _connectionOptions := _connectionOptions c;
     _connectionCounter := _connectionCounter c; _connection := _connection c;
     _connectedTimestamp := _connectedTimestamp c;
     _readyTimestamp := _readyTimestamp c; _nextCommandId := _nextCommandId c;
     _callbacks := _callbacks c; _queue := q |}.

Definition with_client (f : Client -> Client) (w : World) : World :=
  {| client := f (client w); sockets := sockets w; timers := timers w |}.

Definition with_socket (c : nat) (f : Transport -> Transport) (w : World) : World :=
  {| client := client w;
     sockets := match sockets w !! c with
                | Some t => <[c := f t]> (sockets w)
                | None => sockets w
                end;
     timers := timers w |}.

(** ** Statements that may throw, over the program state

    The body of a [try] block runs in [Js]: a throw keeps the state as
    mutated so far and the observations made so far. *)
Definition Js (A : Type) : Type := World -> completion A * World * list Obs.

#[global] Instance Js_ret : MRet Js := fun A a w => (Normal a, w, []).

#[global] Instance Js_bind : MBind Js := fun A B k c w =>
  match c w with
  | (Normal a, w1, o1) => let '(r, w2, o2) := k a w1 in (r, w2, o1 ++ o2)
  | (Throw e, w1, o1) => (Throw e, w1, o1)
  end.

Definition eval {A} (c : completion A) : Js A := fun w => (c, w, []).
Definition gets {A} (f : Client -> A) : Js A := fun w => (Normal (f (client w)), w, []).
Definition modify (f : Client -> Client) : Js unit :=
  fun w => (Normal tt, with_client f w, []).
Definition emit (e : Event) : Js unit := fun w => (Normal tt, w, [Emit e]).
Definition call (cb : handler) (result error : value) : Js unit :=
  fun w => (Normal tt, w, [Call cb result error]).
Definition lift (f : World -> World * list Obs) : Js unit :=
  fun w => let '(w1, o) := f w in (Normal tt, w1, o).

(** [try { body } catch (e) { return; }] *)
Definition try_catch (body : Js unit) (w : World) : World * list Obs :=
  let '(_, w1, o) := body w in (w1, o).

(** ** The operations of [Client] *)

(** The query parameters sent on the initial connection only. *)
Definition first_only (key : string) : bool :=
  bool_decide (key = "expires") || bool_decide (key = "timeout").

Definition _getUri (c : Client) : Uri :=
  let params : gmap string value :=
    if is_null (_sessionId c) then ∅
    else
      map_fold
        (fun key v (params : gmap string value) =>
           if first_only key && bool_decide (is_Some (_readyTimestamp c))
           then params
           else <[key := v]> params)
        {[ "sid" := _sessionId c ]} (_queryParams c) in
  if Nat.eqb (size params) 0 then UriPlain (_uri c)
  else UriQuery (_uri c) params.

Definition getSessionId (c : Client) : value := _sessionId c.

Definition isReady (c : Client) : bool := bool_decide (is_Some (_readyTimestamp c)).

Definition isConnected (w : World) : bool :=
  match _connection (client w) with
  | None => false
  | Some c => from_option ws_isConnected false (sockets w !! c)
  end.

Definition _queueMessages (l : list Message) (w : World) : World :=
  with_client (fun c => set_queue (_queue c ++ l) c) w.

(** The [for] loop sends [this._queue[i]] for [i] from 0 up to the length
    of the queue, then the queue is replaced by an empty one. *)
Definition _processQueue (w : World) : World * list Obs :=
  match _queue (client w) with
  | [] => (w, [])
  | _ :: _ =>
      match _connection (client w) with
      | None => (w, [])
      | Some c =>
          (with_client (set_queue []) w, map (WsSend c) (_queue (client w)))
      end
  end.

Section Supervisor.

(** The states in which the transport honours [connect()].  The transport's
    source is absent and its contract only names the method, so the states
    are a parameter of the development. *)
Variable connectable : tstate -> bool.

(** Modelled from the spec: the transport's [connect()], absent from the
    sources; where honoured it starts the first attempt of the transport. *)
Definition ws_connect (t : Transport) : Transport :=
  if connectable (t_state t) then set_attempts 0 (set_tstate TConnecting t) else t.

(** [_createConnection(delay)]; [None] is a call without argument.  The
    listeners registered on the new transport are [on_disconnected],
    [on_connectionError], [on_connected] and [on_message] below. *)
Definition _createConnection (delay : option Z) (w : World) : World * list Obs :=
  let counter := js_incr (_connectionCounter (client w)) in
  let cl := set_connectionCounter counter (client w) in
  let uri := _getUri cl in
  let connection := length (sockets w) in
  let t := {| t_counter := counter; t_uri := uri;
              t_options := _connectionOptions cl;
              t_state := TNew; t_attempts := 0 |} in
  let cl := set_connection (Some connection) cl in
  match delay with
  | None =>
      ({| client := cl; sockets := sockets w ++ [ws_connect t]; timers := timers w |},
       [WsNew connection uri; WsConnect connection])
  | Some d =>
      ({| client := cl; sockets := sockets w ++ [t];
          timers := timers w ++ [connection] |},
       [WsNew connection uri; SetTimeout connection d])
  end.

(** The closure handed to [setTimeout] by [_createConnection], for the
    transport [connection] it captured. *)
Definition timer_body (connection : nat) (w : World) : World * list Obs :=
  match _connection (client w) with
  | None => (w, [])
  | Some _ => (with_socket connection ws_connect w, [WsConnect connection])
  end.

Definition reconnect (w : World) : World * list Obs :=
  match _connection (client w) with
  | None => (w, [])
  | Some connection =>
      let '(w1, o) := _createConnection None (with_socket connection ws_disconnect w) in
      (w1, WsDisconnect connection :: o)
  end.

Definition connect (w : World) : World * list Obs :=
  match _connection (client w) with
  | Some _ => (w, [])
  | None => _createConnection None w
  end.

Definition disconnect (w : World) : World * list Obs :=
  match _connection (client w) with
  | None => (w, [])
  | Some connection =>
      (with_socket connection ws_disconnect (with_client (set_connection None) w),
       [WsDisconnect connection])
  end.

Definition _send (l : list Message) (w : World) : World * list Obs :=
  match _connection (client w) with
  | None => _createConnection None (_queueMessages l w)
  | Some connection =>
      if negb (from_option ws_isConnected false (sockets w !! connection))
      then (_queueMessages l w, [])
      else
        match _readyTimestamp (client w) with
        | None => (_queueMessages l w, [])
        | Some _ => (w, map (WsSend connection) l)
        end
  end.

(** The first half of [execute]: builds the message and, when a handler
    is given, takes an id and registers the handler under it. *)
Definition prepare (command : string) (params : option value) (cb : option handler)
    (c : Client) : Message * Client :=
  match cb with
  | None => ({| msg_m := command; msg_p := params; msg_i := None |}, c)
  | Some f =>
      let id := _nextCommandId c in
      ({| msg_m := command; msg_p := params; msg_i := Some id |},
       set_callbacks (<[pretty id := f]> (_callbacks c))
         (set_nextCommandId (js_incr id) c))
  end.

Definition execute (command : string) (params : option value) (cb : option handler)
    (w : World) : World * list Obs :=
  let '(message, cl) := prepare command params cb (client w) in
  _send [message] (with_client (fun _ => cl) w).

(** *** Listeners *)

(** A call that a listener makes on the client, and a sequence of them. *)
Definition perform (op : Op) (w : World) : World * list Obs :=
  match op with
  | OpConnect => connect w
  | OpReconnect => reconnect w
  | OpDisconnect => disconnect w
  | OpExecute command params cb => execute command params cb w
  end.

Fixpoint perform_all (ops : list Op) (w : World) : World * list Obs :=
  match ops with
  | [] => (w, [])
  | op :: rest =>
      let '(w1, o1) := perform op w in
      let '(w2, o2) := perform_all rest w1 in
      (w2, o1 ++ o2)
  end.

(** The listeners run by an [emit] that is not the last action. *)
Definition listeners_run (l : Listeners) : Js unit :=
  lift (perform_all (l_calls l));;
  if l_throws l then eval (Throw "Error") else mret tt.

(** *** Inbound messages *)

Definition _processNotificationMessage (data : value) : Js unit :=
  g ← gets _globalListener;
  n ← eval (get_prop data "n");
  d ← eval (get_prop data "d");
  if negb g then emit (per_kind n d)
  else d' ← eval (set_prop d "notification" n); emit (notification d').

(** Names that [this._callbacks[key]] finds on [Object.prototype] when the
    object has no own property [key]. *)
Definition Object_prototype : list string :=
  ["constructor"; "__defineGetter__"; "__defineSetter__"; "hasOwnProperty";
   "__lookupGetter__"; "__lookupSetter__"; "isPrototypeOf";
   "propertyIsEnumerable"; "toString"; "valueOf"; "__proto__";
   "toLocaleString"].

(** Calling what was found on [Object.prototype] as [cb(a, b)], the
    receiver being undefined: [constructor] and [toString] return,
    [isPrototypeOf] returns when [a] is no object, and every other throws a
    TypeError ([__proto__] is no function, the rest reject the receiver).
    None touches the client. *)
Definition call_builtin (key : string) (a : value) : Js unit :=
  if bool_decide (key ∈ ["constructor"; "toString"]) then mret tt
  else if bool_decide (key = "isPrototypeOf")
          && negb match a with VObj _ | VArr _ => true | _ => false end
       then mret tt
       else eval (Throw "TypeError").

Definition _processResultMessage (data : value) : Js unit :=
  i ← eval (get_prop data "i");
  callbacks ← gets _callbacks;
  match callbacks !! to_key i with
  | Some cb =>
      modify (fun c => set_callbacks (delete (to_key i) (_callbacks c)) c);;
      r ← eval (get_prop data "r");
      call cb r VNull
  | None =>
      if bool_decide (to_key i ∈ Object_prototype)
      then r ← eval (get_prop data "r"); call_builtin (to_key i) r
      else mret tt
  end.

Definition _processErrorMessage (data : value) : Js unit :=
  i ← eval (get_prop data "i");
  callbacks ← gets _callbacks;
  match callbacks !! to_key i with
  | Some cb =>
      modify (fun c => set_callbacks (delete (to_key i) (_callbacks c)) c);;
      e ← eval (get_prop data "e");
      call cb VNull e
  | None =>
      if bool_decide (to_key i ∈ Object_prototype)
      then call_builtin (to_key i) VNull
      else mret tt
  end.

(** [message] is what [JSON.parse] made of the frame, a throw for a
    SyntaxError; [now] is [new Date().getTime()]; [listeners] is what the
    listeners of [ready] do when the event is emitted. *)
Definition _processMessage (message : completion value) (now : Z)
    (listeners : Listeners) : World -> World * list Obs :=
  try_catch (
    data ← eval message;
    hello ← eval (get_prop data "hello");
    if negb (is_undefined hello) then
      sid ← eval (get_prop hello "sid");
      modify (set_sessionId sid);;
      isNew ← eval (get_prop hello "isNew");
      readyTimestamp ← gets _readyTimestamp;
      (if bool_decide (readyTimestamp = None) || truthy isNew then
         modify (set_readyTimestamp (Some now));;
         emit (ready sid isNew);;
         listeners_run listeners
       else mret tt);;
      lift _processQueue
    else
      readyTimestamp ← gets _readyTimestamp;
      if bool_decide (readyTimestamp = None) then mret tt
      else
        n ← eval (get_prop data "n");
        if negb (is_undefined n) then _processNotificationMessage data
        else
          r ← eval (get_prop data "r");
          if negb (is_undefined r) then _processResultMessage data
          else
            e ← eval (get_prop data "e");
            if negb (is_undefined e) then _processErrorMessage data
            else mret tt).

(** *** Listeners registered on a transport by [_createConnection]

    [counter] is the value the closure captured. *)

(** The listeners of [disconnected] run before [_createConnection] is
    called; an exception of theirs leaves the handler. *)
Definition on_disconnected (counter : Z) (code reason : value) (listeners : Listeners)
    (w : World) : World * list Obs :=
  let '(w1, o1) := perform_all (l_calls listeners) w in
  if l_throws listeners then (w1, Emit (disconnected counter code reason) :: o1)
  else
    let '(w2, o2) := _createConnection (Some (_retryDelay (client w1))) w1 in
    (w2, Emit (disconnected counter code reason) :: o1 ++ o2).

(** [err] is [{retry, attempts, error}]. *)
Definition on_connectionError (counter : Z) (retry : bool) (attempts : Z)
    (error : value) (w : World) : World * list Obs :=
  if retry then (w, [Emit (connectionError counter attempts error)])
  else (w, [Emit (terminated counter attempts error)]).

Definition on_connected (counter : Z) (now : Z) (w : World) : World * list Obs :=
  (with_client (set_connectedTimestamp (Some now)) w, [Emit (connected counter)]).

Definition on_message (message : completion value) (now : Z) (listeners : Listeners)
    (w : World) : World * list Obs :=
  _processMessage message now listeners w.

(** ** What can happen to a client *)

Inductive Input :=
(* calls of the public methods *)
| Connect
| Reconnect
| Disconnect
| Execute (command : string) (params : option value) (cb : option handler)
(* the timer set by _createConnection for transport c elapses *)
| TimerFired (c : nat)
(* the transport c reports *)
| Opened (c : nat) (now : Z)
| Failed (c : nat) (error : value) (retryable : bool)
| RetryElapsed (c : nat)
| Closed (c : nat) (code reason : value) (listeners : Listeners)
| Received (c : nat) (frame : completion value) (now : Z) (listeners : Listeners).

(** Modelled from the spec: the events of the absent transport and the
    states in which it raises them.  A connecting transport opens
    ([connected]) or fails ([connectionError], with the attempts made so
    far and whether a retry follows); a transport in backoff starts its
    next attempt; an open transport delivers frames ([message]) and may
    close unexpectedly or miss its keepalive ([disconnected]).  In any
    other state the event does not occur. *)
Definition transport_event (c : nat) (t : Transport) (i : Input) (w : World)
    : World * list Obs :=
  match i, t_state t with
  | Opened _ now, TConnecting =>
      on_connected (t_counter t) now (with_socket c (set_tstate TOpen) w)
  | Failed _ error retryable, TConnecting =>
      let retry := retry_possible (t_options t) retryable (t_attempts t) in
      let attempts := t_attempts t + 1 in
      on_connectionError (t_counter t) retry attempts error
        (with_socket c
           (fun t => set_attempts attempts
                       (set_tstate (if retry then TBackoff else TTerminated) t)) w)
  | RetryElapsed _, TBackoff => (with_socket c (set_tstate TConnecting) w, [])
  | Closed _ code reason listeners, TOpen =>
      on_disconnected (t_counter t) code reason listeners
        (with_socket c (set_tstate TClosed) w)
  | Received _ frame now listeners, TOpen => on_message frame now listeners w
  | _, _ => (w, [])
  end.

Definition socket_of (i : Input) : option nat :=
  match i with
  | Opened c _ | Failed c _ _ | RetryElapsed c | Closed c _ _ _ | Received c _ _ _ => Some c
  | _ => None
  end.

Definition step (w : World) (i : Input) : World * list Obs :=
  match i with
  | Connect => connect w
  | Reconnect => reconnect w
  | Disconnect => disconnect w
  | Execute command params cb => execute command params cb w
  | TimerFired c =>
      if bool_decide (c ∈ timers w)
      then timer_body c {| client := client w; sockets := sockets w;
                           timers := filter (fun x => x ≠ c) (timers w) |}
      else (w, [])
  | _ =>
      match socket_of i with
      | Some c =>
          match sockets w !! c with
          | Some t => transport_event c t i w
          | None => (w, [])
          end
      | None => (w, [])
      end
  end.

Fixpoint run (w : World) (trace : list Input) : World * list Obs :=
  match trace with
  | [] => (w, [])
  | i :: rest =>
      let '(w1, o1) := step w i in
      let '(w2, o2) := run w1 rest in
      (w2, o1 ++ o2)
  end.

(** *** The constructor *)

(** [url.parse(uri)] with [querystring.parse(u.query)] already applied. *)
Record ParsedUrl := {
  protocol : string;
  host : string;
  pathname : option string;
  query : option (gmap string value);
}.

Inductive retry_option := retry_always | retry_count (n : Z).

(** The [options] argument; an absent property is [None], [parseInt] has
    been applied to the numeric ones. *)
Record Options := {
  opt_autoConnect : option bool;
  opt_globalListener : option bool;
  opt_sessionId : option string;
  opt_apiKey : option string;
  opt_retryCount : option retry_option;
  opt_retryDelay : option Z;
  opt_pingTimeout : option Z;
}.

Definition byte_is (n : nat) (a : Ascii.ascii) : bool := Nat.eqb (Ascii.nat_of_ascii a) n.

(** The third byte of a white space or line terminator that starts with
    the bytes E2 80: U+2000 to U+200A, U+2028, U+2029 and U+202F. *)
Definition space_e2_80 (a : Ascii.ascii) : bool :=
  let n := Ascii.nat_of_ascii a in
  (Nat.leb 128 n && Nat.leb n 138) || Nat.eqb n 168 || Nat.eqb n 169 || Nat.eqb n 175.

(** The number of bytes of the white space or line terminator that the
    string starts with, 0 when it starts with none.  These are the code
    points that [String.prototype.trim] strips: tab, line feed, vertical
    tab, form feed, carriage return, space, U+00A0, U+1680, U+2000 to
    U+200A, U+2028, U+2029, U+202F, U+205F, U+3000 and U+FEFF. *)
Definition space_prefix (s : string) : nat :=
  match s with
  | String a (String b (String c _)) =>
      if Ascii.is_space a then 1
      else if byte_is 194 a && byte_is 160 b then 2
      else if byte_is 225 a && byte_is 154 b && byte_is 128 c then 3
      else if byte_is 226 a && byte_is 128 b && space_e2_80 c then 3
      else if byte_is 226 a && byte_is 129 b && byte_is 159 c then 3
      else if byte_is 227 a && byte_is 128 b && byte_is 128 c then 3
      else if byte_is 239 a && byte_is 187 b && byte_is 191 c then 3
      else 0
  | String a (String b EmptyString) =>
      if Ascii.is_space a then 1
      else if byte_is 194 a && byte_is 160 b then 2
      else 0
  | String a EmptyString => if Ascii.is_space a then 1 else 0
  | EmptyString => 0
  end%nat.

(** The same for the end of a string, read backwards. *)
Definition space_suffix (reversed : string) : nat :=
  match reversed with
  | String a (String b (String c _)) =>
      if Ascii.is_space a then 1
      else if byte_is 160 a && byte_is 194 b then 2
      else if byte_is 128 a && byte_is 154 b && byte_is 225 c then 3
      else if space_e2_80 a && byte_is 128 b && byte_is 226 c then 3
      else if byte_is 159 a && byte_is 129 b && byte_is 226 c then 3
      else if byte_is 128 a && byte_is 128 b && byte_is 227 c then 3
      else if byte_is 191 a && byte_is 187 b && byte_is 239 c then 3
      else 0
  | String a (String b EmptyString) =>
      if Ascii.is_space a then 1
      else if byte_is 160 a && byte_is 194 b then 2
      else 0
  | String a EmptyString => if Ascii.is_space a then 1 else 0
  | EmptyString => 0
  end%nat.

Fixpoint drop_bytes (n : nat) (s : string) : string :=
  match n, s with
  | S n, String _ rest => drop_bytes n rest
  | _, _ => s
  end.

(** Strips the white space that [measure] finds at the start; [fuel] is
    the length of the string, which bounds the number of rounds. *)
Fixpoint strip (measure : string -> nat) (fuel : nat) (s : string) : string :=
  match fuel with
  | O => s
  | S fuel =>
      match measure s with
      | O => s
      | S n => strip measure fuel (drop_bytes (S n) s)
      end
  end.

Definition trim_start (s : string) : string := strip space_prefix (String.length s) s.

(** [s.trim()] *)
Definition trim (s : string) : string :=
  let t := String.rev (trim_start s) in
  String.rev (strip space_suffix (String.length t) t).

Definition checked (lo : Z) (what : string) (o : option Z) : completion (option Z) :=
  match o with
  | None => Normal None
  | Some v => if v <? lo then Throw what else Normal (Some v)
  end.

(** The fields as the constructor leaves them before it connects. *)
Definition blank (uri : string) (queryParams : gmap string value) (sessionId : value)
    (globalListener : bool) (delay : Z) (o : ConnectionOptions) : World :=
  {| client :=
       {| _uri := uri; _queryParams := queryParams; _sessionId := sessionId;
          _globalListener := globalListener; _retryDelay := delay;
          _connectionOptions := o;
          _connectionCounter := 0; _connection := None;
          _connectedTimestamp := None; _readyTimestamp := None;
          _nextCommandId := 1; _callbacks := ∅; _queue := [] |};
     sockets := []; timers := [] |}.

(** [this._queryParams] after the constructor has copied the query
    [hash], as the entries that [_.forEach(this._queryParams, ...)] visits
    in [_getUri].  [sid] is not copied.  The assignment
    [this._queryParams['__proto__'] = value] creates no property: it does
    nothing for a string and makes an array the prototype of the object.
    With an array as prototype the object has a numeric [length], unless
    it has a property [length] of its own, and [_.forEach] then visits the
    indices below that length, where an own property hides the element of
    the array.  ([querystring.parse] gives strings and arrays of strings.) *)
Definition initial_queryParams (hash : gmap string value) : gmap string value :=
  let own := delete "__proto__" (delete "sid" hash) in
  match hash !! "__proto__" with
  | Some (VArr items) =>
      if bool_decide (is_Some (own !! "length")) then own
      else list_to_map (imap (fun i x => (pretty i, default x (own !! pretty i))) items)
  | _ => own
  end.

Definition new_Client (u : ParsedUrl) (options : option Options)
    : completion (World * list Obs) :=
  if negb (bool_decide (protocol u = "ws:") || bool_decide (protocol u = "wss:"))
  then Throw "Argument 'uri' should start with 'ws://' or 'wss://'"
  else
    let uri := protocol u +:+ "//" +:+ host u +:+ default "/" (pathname u) in
    let hash := default ∅ (query u) in
    let sessionId := default VNull (hash !! "sid") in
    let queryParams := initial_queryParams hash in
    let o := default {| opt_autoConnect := None; opt_globalListener := None;
                        opt_sessionId := None; opt_apiKey := None;
                        opt_retryCount := None; opt_retryDelay := None;
                        opt_pingTimeout := None |} options in
    let sessionId :=
      match opt_sessionId o with
      | Some s => if bool_decide (trim s = "") then sessionId else VStr (trim s)
      | None => sessionId
      end in
    let key := match opt_apiKey o with
               | Some "" => None
               | k => k
               end in
    count ← match opt_retryCount o with
             | None => Normal None
             | Some retry_always => Normal (Some (-1))
             | Some (retry_count v) =>
                 checked 0 "Argument 'options.retryCount' should be an integer >= 0" (Some v)
             end;
    delay ← checked 1000 "Argument 'options.retryDelay' should be an integer >= 1000"
              (opt_retryDelay o);
    ping ← checked 1000 "Argument 'options.pingTimeout' should be an integer >= 1000"
             (opt_pingTimeout o);
    let w := blank uri queryParams sessionId
               (bool_decide (opt_globalListener o = Some true))
               (default RETRY_DELAY delay)
               {| apiKey := key; retryCount := count;
                  retryDelay := delay; pingTimeout := ping |} in
    mret (if bool_decide (opt_autoConnect o = Some false) then (w, []) else connect w).

End Supervisor.

(** ** The transport of the contract

    Modelled from the spec: a transport wraps one connection and honours
    [connect()] once, in its initial state. *)
Definition one_shot (s : tstate) : bool := bool_decide (s = TNew).

(** ** Reading observations *)

(** The frames handed to a transport's [send], with the transport. *)
Fixpoint sends (o : list Obs) : list (nat * Message) :=
  match o with
  | [] => []
  | WsSend c msg :: rest => (c, msg) :: sends rest
  | _ :: rest => sends rest
  end.

(** The payloads of the [ready] events. *)
Fixpoint ready_events (o : list Obs) : list (value * value) :=
  match o with
  | [] => []
  | Emit (ready sid isNew) :: rest => (sid, isNew) :: ready_events rest
  | _ :: rest => ready_events rest
  end.

(** The events emitted to the client's listeners. *)
Fixpoint events (o : list Obs) : list Event :=
  match o with
  | [] => []
  | Emit e :: rest => e :: events rest
  | _ :: rest => events rest
  end.

(** The transports created or asked to connect. *)
Fixpoint attempts_made (o : list Obs) : list nat :=
  match o with
  | [] => []
  | WsNew c _ :: rest => c :: attempts_made rest
  | WsConnect c :: rest => c :: attempts_made rest
  | _ :: rest => attempts_made rest
  end.

(** The URIs given to new transports. *)
Fixpoint uris (o : list Obs) : list Uri :=
  match o with
  | [] => []
  | WsNew _ uri :: rest => uri :: uris rest
  | _ :: rest => uris rest
  end.

(** The query parameters a URI carries. *)
Definition query_of (uri : Uri) : gmap string value :=
  match uri with
  | UriPlain _ => ∅
  | UriQuery _ params => params
  end.

(** The indices of the transports that are running. *)
Definition running (w : World) : list nat :=
  filter (fun c => from_option (fun t => live (t_state t)) false (sockets w !! c))
         (seq 0 (length (sockets w))).

(** ** Auxiliary notions used in the statements *)

(** The send path policy in the specification's words: buffer when no
    transport connection exists, or it is not open, or the session has
    never reached ready. *)
Definition must_buffer (w : World) : bool :=
  bool_decide (_connection (client w) = None)
  || negb (isConnected w)
  || negb (isReady (client w)).

(** The frame has a field [k] ([undefined !== data.k]). *)
Definition has_field (data : value) (k : string) : bool :=
  match get_prop data k with
  | Normal v => negb (is_undefined v)
  | Throw _ => false
  end.

(** The inbound wire shapes in the specification's words:
    [{hello: {sid, isNew: bool}}], [{i, r}], [{i, e}] and [{n, d}]. *)
Definition handshake_shape (data : value) : bool :=
  match get_prop data "hello" with
  | Normal (VObj hf) =>
      has_field (VObj hf) "sid" &&
      match assoc "isNew" hf with Some (VBool _) => true | _ => false end
  | _ => false
  end.

Definition wire_shape (data : value) : bool :=
  handshake_shape data
  || (has_field data "i" && (has_field data "r" || has_field data "e"))
  || (has_field data "n" && has_field data "d").



(** A reply frame: the two kinds and the handler arguments they lead to. *)
Inductive reply :=
| Result (r : value)
| Error (e : value).

Definition reply_args (rep : reply) : value * value :=
  match rep with
  | Result r => (r, VNull)
  | Error e => (VNull, e)
  end.

(** [data] is a result frame [{i, r}] or an error frame [{i, e}]. *)
Definition is_reply (data : value) (i : value) (rep : reply) : Prop :=
  has_field data "hello" = false /\ has_field data "n" = false /\
  get_prop data "i" = Normal i /\
  match rep with
  | Result r => get_prop data "r" = Normal r /\ is_undefined r = false
  | Error e => has_field data "r" = false /\
               get_prop data "e" = Normal e /\ is_undefined e = false
  end.

(** Listeners that make no call and return. *)
Definition quiet : Listeners := {| l_calls := []; l_throws := false |}.

(** Listeners that make no call and throw: processing stops where the
    listeners start. *)
Definition interrupt : Listeners := {| l_calls := []; l_throws := true |}.

(** The state in which the listeners of [ready] or of [disconnected]
    start to run, when the input is a frame that raises [ready] or a
    close that the transport reports: the state in which the step ends
    when the listeners throw at once. *)
Definition listeners_start (connectable : tstate -> bool) (w : World) (i : Input)
    : option World :=
  match i with
  | Received c frame now _ =>
      let r := step connectable w (Received c frame now interrupt) in
      if bool_decide (ready_events r.2 = []) then None else Some r.1
  | Closed c code reason _ =>
      let r := step connectable w (Closed c code reason interrupt) in
      match r.2 with
      | [] => None
      | _ :: _ => Some r.1
      end
  | _ => None
  end.

(** The state in which the calls of a step are made: the state before the
    step or, when listeners of [ready] or [disconnected] run, the state in
    which they start. *)
Definition call_state (connectable : tstate -> bool) (w : World) (i : Input) : World :=
  default w (listeners_start connectable w i).

(** The calls a step makes on [execute]: the caller's or, when listeners
    of [ready] or [disconnected] run, theirs. *)
Definition executes (connectable : tstate -> bool) (w : World) (i : Input) : list Op :=
  match i with
  | Execute command params cb => [OpExecute command params cb]
  | Received _ _ _ listeners | Closed _ _ _ listeners =>
      match listeners_start connectable w i with
      | Some _ => l_calls listeners
      | None => []
      end
  | _ => []
  end.

(** The messages that calls of [execute] among [ops] hand to [_send],
    when [ops] are performed from [w]. *)
Fixpoint op_requests (connectable : tstate -> bool) (ops : list Op) (w : World)
    : list Message :=
  match ops with
  | [] => []
  | op :: rest =>
      match op with
      | OpExecute command params cb => [(prepare command params cb (client w)).1]
      | _ => []
      end ++ op_requests connectable rest (perform connectable op w).1
  end.

(** The messages that the calls of [execute] of a trace hand to [_send]:
    those of the [Execute] inputs and those of the listeners. *)
Fixpoint requests (connectable : tstate -> bool) (w : World) (trace : list Input)
    : list Message :=
  match trace with
  | [] => []
  | i :: rest =>
      op_requests connectable (executes connectable w i) (call_state connectable w i)
      ++ requests connectable (step connectable w i).1 rest
  end.

(** No transport is running, none is waiting for a timer, and the client
    still holds its (dead) transport: the state after [terminated]. *)
Definition quiescent (w : World) : Prop :=
  is_Some (_connection (client w)) /\ timers w = [] /\
  Forall (fun t => live (t_state t) = false) (sockets w).

(** Inputs other than the calls that re-arm the client. *)
Definition not_rearming (i : Input) : bool :=
  match i with
  | Reconnect | Disconnect => false
  | _ => true
  end.

(** Every transport other than the current one is closed. *)
Definition others_closed (w : World) : Prop :=
  forall (c : nat) (t : Transport),
    sockets w !! c = Some t -> _connection (client w) <> Some c -> t_state t = TClosed.

Definition all_closed (w : World) : Prop :=
  forall (c : nat) (t : Transport), sockets w !! c = Some t -> t_state t = TClosed.

(** Listeners that call nothing but [execute], that is, request methods. *)
Definition only_requests (l : Listeners) : bool :=
  forallb (fun op => match op with OpExecute _ _ _ => true | _ => false end)
          (l_calls l).

(** Inputs in which the listeners of [disconnected] neither connect,
    reconnect nor disconnect the client. *)
Definition calm (i : Input) : bool :=
  match i with
  | Closed _ _ _ listeners => only_requests listeners
  | _ => true
  end.

(** The transport the client holds is the last one created. *)
Definition newest_current (w : World) : Prop :=
  forall c : nat, _connection (client w) = Some c -> S c = length (sockets w).

(** Pending handlers are registered under ids already handed out. *)
Definition ids_handed_out (c : Client) : Prop :=
  1 <= _nextCommandId c <= 2 ^ 53 /\
  forall key : string, is_Some (_callbacks c !! key) ->
    exists id : Z, key = pretty id /\ 1 <= id /\
                   (id < _nextCommandId c \/ _nextCommandId c = 2 ^ 53).

(** ** Sample instances, used to exercise the statements *)

Definition local_url : ParsedUrl :=
  {| protocol := "ws:"; host := "127.0.0.1:8001"; pathname := None; query := None |}.

Definition no_options : Options :=
  {| opt_autoConnect := None; opt_globalListener := None; opt_sessionId := None;
     opt_apiKey := None; opt_retryCount := None; opt_retryDelay := None;
     opt_pingTimeout := None |}.

(** The state after [new Client('ws://127.0.0.1:8001', {autoConnect:false})]. *)
Definition idle_world : World :=
  {| client :=
       {| _uri := "ws://127.0.0.1:8001/"; _queryParams := ∅; _sessionId := VNull;
          _globalListener := false; _retryDelay := RETRY_DELAY;
          _connectionOptions := {| apiKey := None; retryCount := None;
                                   retryDelay := None; pingTimeout := None |};
          _connectionCounter := 0; _connection := None;
          _connectedTimestamp := None; _readyTimestamp := None;
          _nextCommandId := 1; _callbacks := ∅; _queue := [] |};
     sockets := []; timers := [] |}.

(** The world after [new Client(u, options)], the idle one if it throws. *)
Definition created (connectable : tstate -> bool) (u : ParsedUrl)
    (options : option Options) : World :=
  match new_Client connectable u options with
  | Normal (w, _) => w
  | Throw _ => idle_world
  end.

Definition hello_frame (sid : string) (isNew : bool) : value :=
  VObj [("hello", VObj [("sid", VStr sid); ("isNew", VBool isNew)])].

Definition result_frame (i : Z) (r : value) : value :=
  VObj [("i", VNum i); ("r", r)].

Definition error_frame (i : Z) (e : value) : value :=
  VObj [("i", VNum i); ("e", e)].

(** [{retryDelay: 1000, retryCount: 2}] *)
Definition retry_twice : Options :=
  {| opt_autoConnect := None; opt_globalListener := None; opt_sessionId := None;
     opt_apiKey := None; opt_retryCount := Some (retry_count 2);
     opt_retryDelay := Some 1000; opt_pingTimeout := None |}.

(** [ws://127.0.0.1:8001/?expires=true&timeout=600&x=1] *)
Definition query_url : ParsedUrl :=
  {| protocol := "ws:"; host := "127.0.0.1:8001"; pathname := Some "/";
     query := Some {[ "expires" := VStr "true"; "timeout" := VStr "600";
                      "x" := VStr "1" ]} |}.

(** A close reported by the transport, with its code and reason. *)
Definition abnormal_closure : Input := Closed 0 (VNum 1006) (VStr "") quiet.

(** ** The request methods

    [getPairs], the [subscribeTo...] and [unsubscribeFrom...] methods check
    their arguments, build the parameters and call [execute]. *)

(** An argument in a position where the code tests for a function.  In the
    other positions a function behaves as any value that is neither a
    string nor an array, and the result handler [cb] is a function or
    undefined. *)
Inductive arg :=
| Val (v : value)
| Fn (f : handler).

Definition _checkExchange (exchange : value) : completion unit :=
  match exchange with
  | VStr s =>
      if bool_decide (s = "")
      then Throw "Argument 'exchange' should be a non-empty string"
      else Normal tt
  | _ => Throw "Argument 'exchange' should be a non-empty string"
  end.

Definition _checkExchangeAndPairs (exchange pairs : value) : completion unit :=
  match exchange with
  | VStr s =>
      if bool_decide (s = "")
      then Throw "Argument 'exchange' should be a non-empty string"
      else
        match pairs with
        | VArr _ => Normal tt
        | _ => Throw "Argument 'pairs' should be an array"
        end
  | _ => Throw "Argument 'exchange' should be a non-empty string"
  end.

(** The test on [reset] shared by the [subscribeTo...] methods: a boolean
    replaces [params.reset], a function replaces [cb], anything else is
    ignored. *)
Definition apply_reset (reset : arg) (params : list (string * value))
    (cb : option handler) : list (string * value) * option handler :=
  match reset with
  | Val VUndefined => (params, cb)
  | Val (VBool b) => (assoc_set "reset" (VBool b) params, cb)
  | Fn f => (params, Some f)
  | Val _ => (params, cb)
  end.

(** [undefined !== v && '' !== v] *)
Definition given (v : value) : bool :=
  negb (is_undefined v) && negb match v with VStr "" => true | _ => false end.

Section Methods.

Variable connectable : tstate -> bool.

(** [filter.currency] and [filter.baseCurrency] are read with [get_prop]:
    neither name is defined on a built-in prototype, reading them from
    [null] throws, and a function given as [filter] has neither. *)
Definition getPairs (exchange : value) (filter : arg) (cb : option handler)
    (w : World) : completion (World * list Obs) :=
  _checkExchange exchange;;
  let params := [("exchange", exchange)] in
  match cb with
  | None =>
      match filter with
      | Fn f => mret (execute connectable "getPairs" (Some (VObj params)) (Some f) w)
      | Val _ => Throw "Argument 'cb' is mandatory"
      end
  | Some _ =>
      params ←
        match filter with
        | Val VUndefined | Fn _ => Normal params
        | Val v =>
            currency ← get_prop v "currency";
            if given currency
            then Normal (assoc_set "filter" (VObj [("currency", currency)]) params)
            else
              baseCurrency ← get_prop v "baseCurrency";
              if given baseCurrency
              then Normal (assoc_set "filter"
                             (VObj [("baseCurrency", baseCurrency)]) params)
              else Normal params
        end;
      mret (execute connectable "getPairs" (Some (VObj params)) cb w)
  end.

(** [subscribeToTickers], [subscribeToOrderBooks] and [subscribeToTrades]
    have the same body but for the name of the command. *)
Definition subscribe_pairs (command : string) (exchange pairs : value) (reset : arg)
    (cb : option handler) (w : World) : completion (World * list Obs) :=
  _checkExchangeAndPairs exchange pairs;;
  let '(params, cb) :=
    apply_reset reset
      [("exchange", exchange); ("reset", VBool false); ("pairs", pairs)] cb in
  mret (execute connectable command (Some (VObj params)) cb w).

Definition subscribeToTickers := subscribe_pairs "subscribeToTickers".
Definition subscribeToOrderBooks := subscribe_pairs "subscribeToOrderBooks".
Definition subscribeToTrades := subscribe_pairs "subscribeToTrades".

(** [unsubscribeFromTickers], [resyncOrderBooks], [unsubscribeFromOrderBooks]
    and [unsubscribeFromTrades] have the same body but for the name of the
    command. *)
Definition request_pairs (command : string) (exchange pairs : value)
    (cb : option handler) (w : World) : completion (World * list Obs) :=
  _checkExchangeAndPairs exchange pairs;;
  mret (execute connectable command
          (Some (VObj [("exchange", exchange); ("pairs", pairs)])) cb w).

Definition unsubscribeFromTickers := request_pairs "unsubscribeFromTickers".
Definition resyncOrderBooks := request_pairs "resyncOrderBooks".
Definition unsubscribeFromOrderBooks := request_pairs "unsubscribeFromOrderBooks".
Definition unsubscribeFromTrades := request_pairs "unsubscribeFromTrades".

(** [unsubscribeFromAllTickers], [unsubscribeFromAllOrderBooks],
    [unsubscribeFromAllTrades] and [unsubscribeFromAllKlines] have the same
    body but for the name of the command. *)
Definition request_exchange (command : string) (exchange : value)
    (cb : option handler) (w : World) : completion (World * list Obs) :=
  _checkExchange exchange;;
  mret (execute connectable command (Some (VObj [("exchange", exchange)])) cb w).

Definition unsubscribeFromAllTickers := request_exchange "unsubscribeFromAllTickers".
Definition unsubscribeFromAllOrderBooks := request_exchange "unsubscribeFromAllOrderBooks".
Definition unsubscribeFromAllTrades := request_exchange "unsubscribeFromAllTrades".
Definition unsubscribeFromAllKlines := request_exchange "unsubscribeFromAllKlines".

Definition subscribeToKlines (exchange pairs interval : value) (reset : arg)
    (cb : option handler) (w : World) : completion (World * list Obs) :=
  _checkExchangeAndPairs exchange pairs;;
  match interval with
  | VStr s =>
      if bool_decide (s = "")
      then Throw "Argument 'interval' should be a non-empty string"
      else
        let '(params, cb) :=
          apply_reset reset
            [("exchange", exchange); ("interval", interval);
             ("reset", VBool false); ("pairs", pairs)] cb in
        mret (execute connectable "subscribeToKlines" (Some (VObj params)) cb w)
  | _ => Throw "Argument 'interval' should be a non-empty string"
  end.

(** The test ['function' == typeof reset] names a variable the method does
    not declare: [typeof] of it is ["undefined"], the test fails and
    [interval], when defined, has to be a string. *)
Definition unsubscribeFromKlines (exchange pairs : value) (interval : arg)
    (cb : option handler) (w : World) : completion (World * list Obs) :=
  _checkExchangeAndPairs exchange pairs;;
  let params := [("exchange", exchange); ("pairs", pairs)] in
  params ←
    match interval with
    | Val VUndefined => Normal params
    | Val (VStr s) =>
        if bool_decide (s = "")
        then Throw "Argument 'interval' should be a non-empty string"
        else Normal (assoc_set "interval" (VStr s) params)
    | _ => Throw "Argument 'interval' should be a non-empty string"
    end;
  mret (execute connectable "unsubscribeFromKlines" (Some (VObj params)) cb w).

Definition unsubscribe (exchange : arg) (cb : option handler) (w : World)
    : completion (World * list Obs) :=
  match exchange with
  | Val VUndefined => mret (execute connectable "unsubscribe" (Some (VObj [])) cb w)
  | Fn f => mret (execute connectable "unsubscribe" (Some (VObj [])) (Some f) w)
  | Val v =>
      _checkExchange v;;
      mret (execute connectable "unsubscribe" (Some (VObj [("exchange", v)])) cb w)
  end.

End Methods.

(** ** Further readings of observations and traces *)

(** The handlers called. *)
Fixpoint called (o : list Obs) : list handler :=
  match o with
  | [] => []
  | Call cb _ _ :: rest => cb :: called rest
  | _ :: rest => called rest
  end.

(** The handlers given to [execute] by [ops]. *)
Fixpoint op_handlers (ops : list Op) : list handler :=
  match ops with
  | [] => []
  | OpExecute _ _ (Some f) :: rest => f :: op_handlers rest
  | _ :: rest => op_handlers rest
  end.

(** The handlers that the calls of [execute] of a trace register: those
    of the [Execute] inputs and those of the listeners. *)
Fixpoint handlers_of (connectable : tstate -> bool) (w : World) (trace : list Input)
    : list handler :=
  match trace with
  | [] => []
  | i :: rest =>
      op_handlers (executes connectable w i)
      ++ handlers_of connectable (step connectable w i).1 rest
  end.

(** Inputs that neither register a handler nor deliver a frame: the
    listeners of [disconnected] make no call. *)
Definition passive (i : Input) : bool :=
  match i with
  | Execute _ _ (Some _) | Received _ _ _ _ => false
  | Closed _ _ _ listeners => bool_decide (l_calls listeners = [])
  | _ => true
  end.

(** The connection id of the [k]-th transport created, counting from 0. *)
Definition nth_id (k : nat) : Z := Z.min (2 ^ 53) (Z.of_nat k + 1).

(** Connection ids count the transports created. *)
Definition ids_counted (w : World) : Prop :=
  _connectionCounter (client w) = Z.min (2 ^ 53) (Z.of_nat (length (sockets w))) /\
  forall (k : nat) (t : Transport), sockets w !! k = Some t -> t_counter t = nth_id k.

(** ** Calls of the request methods *)

Inductive Request :=
| GetPairs (exchange : value) (filter : arg) (cb : option handler)
| SubscribeToTickers (exchange pairs : value) (reset : arg) (cb : option handler)
| UnsubscribeFromTickers (exchange pairs : value) (cb : option handler)
| UnsubscribeFromAllTickers (exchange : value) (cb : option handler)
| SubscribeToOrderBooks (exchange pairs : value) (reset : arg) (cb : option handler)
| ResyncOrderBooks (exchange pairs : value) (cb : option handler)
| UnsubscribeFromOrderBooks (exchange pairs : value) (cb : option handler)
| UnsubscribeFromAllOrderBooks (exchange : value) (cb : option handler)
| SubscribeToTrades (exchange pairs : value) (reset : arg) (cb : option handler)
| UnsubscribeFromTrades (exchange pairs : value) (cb : option handler)
| UnsubscribeFromAllTrades (exchange : value) (cb : option handler)
| SubscribeToKlines (exchange pairs interval : value) (reset : arg) (cb : option handler)
| UnsubscribeFromKlines (exchange pairs : value) (interval : arg) (cb : option handler)
| UnsubscribeFromAllKlines (exchange : value) (cb : option handler)
| Unsubscribe (exchange : arg) (cb : option handler).

Definition method_name (r : Request) : string :=
  match r with
  | GetPairs _ _ _ => "getPairs"
  | SubscribeToTickers _ _ _ _ => "subscribeToTickers"
  | UnsubscribeFromTickers _ _ _ => "unsubscribeFromTickers"
  | UnsubscribeFromAllTickers _ _ => "unsubscribeFromAllTickers"
  | SubscribeToOrderBooks _ _ _ _ => "subscribeToOrderBooks"
  | ResyncOrderBooks _ _ _ => "resyncOrderBooks"
  | UnsubscribeFromOrderBooks _ _ _ => "unsubscribeFromOrderBooks"
  | UnsubscribeFromAllOrderBooks _ _ => "unsubscribeFromAllOrderBooks"
  | SubscribeToTrades _ _ _ _ => "subscribeToTrades"
  | UnsubscribeFromTrades _ _ _ => "unsubscribeFromTrades"
  | UnsubscribeFromAllTrades _ _ => "unsubscribeFromAllTrades"
  | SubscribeToKlines _ _ _ _ _ => "subscribeToKlines"
  | UnsubscribeFromKlines _ _ _ _ => "unsubscribeFromKlines"
  | UnsubscribeFromAllKlines _ _ => "unsubscribeFromAllKlines"
  | Unsubscribe _ _ => "unsubscribe"
  end.

(** The method a call names, applied to its arguments. *)
Definition invoke (connectable : tstate -> bool) (r : Request) (w : World)
    : completion (World * list Obs) :=
  match r with
  | GetPairs exchange filter cb => getPairs connectable exchange filter cb w
  | SubscribeToTickers exchange pairs reset cb =>
      subscribeToTickers connectable exchange pairs reset cb w
  | UnsubscribeFromTickers exchange pairs cb =>
      unsubscribeFromTickers connectable exchange pairs cb w
  | UnsubscribeFromAllTickers exchange cb =>
      unsubscribeFromAllTickers connectable exchange cb w
  | SubscribeToOrderBooks exchange pairs reset cb =>
      subscribeToOrderBooks connectable exchange pairs reset cb w
  | ResyncOrderBooks exchange pairs cb =>
      resyncOrderBooks connectable exchange pairs cb w
  | UnsubscribeFromOrderBooks exchange pairs cb =>
      unsubscribeFromOrderBooks connectable exchange pairs cb w
  | UnsubscribeFromAllOrderBooks exchange cb =>
      unsubscribeFromAllOrderBooks connectable exchange cb w
  | SubscribeToTrades exchange pairs reset cb =>
      subscribeToTrades connectable exchange pairs reset cb w
  | UnsubscribeFromTrades exchange pairs cb =>
      unsubscribeFromTrades connectable exchange pairs cb w
  | UnsubscribeFromAllTrades exchange cb =>
      unsubscribeFromAllTrades connectable exchange cb w
  | SubscribeToKlines exchange pairs interval reset cb =>
      subscribeToKlines connectable exchange pairs interval reset cb w
  | UnsubscribeFromKlines exchange pairs interval cb =>
      unsubscribeFromKlines connectable exchange pairs interval cb w
  | UnsubscribeFromAllKlines exchange cb =>
      unsubscribeFromAllKlines connectable exchange cb w
  | Unsubscribe exchange cb => unsubscribe connectable exchange cb w
  end.

(** The parameters of a command are typed as the gateway expects them. *)
Definition well_typed (params : list (string * value)) : Prop :=
  (forall v, assoc "exchange" params = Some v -> exists s, v = VStr s /\ s <> "") /\
  (forall v, assoc "pairs" params = Some v -> exists l, v = VArr l) /\
  (forall v, assoc "reset" params = Some v -> exists b, v = VBool b) /\
  (forall v, assoc "interval" params = Some v -> exists s, v = VStr s /\ s <> "").

(** The handler a [subscribeTo...] call registers: the function given in
    place of [reset], else [cb]. *)
Definition handler_given (reset : arg) (cb : option handler) : option handler :=
  match reset with
  | Fn f => Some f
  | Val _ => cb
  end.

(** The [reset] flag a [subscribeTo...] call sends. *)
Definition reset_sent (reset : arg) : bool :=
  match reset with
  | Val (VBool b) => b
  | _ => false
  end.

(** The errors a request method can throw; [TypeError] is the one raised
    by reading a property of [null]. *)
Definition rejections : list string :=
  ["Argument 'exchange' should be a non-empty string";
   "Argument 'pairs' should be an array";
   "Argument 'interval' should be a non-empty string";
   "Argument 'cb' is mandatory";
   "TypeError"].

(** What a call of a request method comes to, in every state of the
    client: it throws [what], or it is the call of [execute] with the
    method's name, [params] and [cb]. *)
Inductive outcome :=
| Rejected (what : string)
| Accepted (params : list (string * value)) (cb : option handler).

Definition comes_to (connectable : tstate -> bool) (r : Request) (out : outcome) : Prop :=
  forall w : World,
    invoke connectable r w =
      match out with
      | Rejected what => Throw what
      | Accepted params cb =>
          Normal (execute connectable (method_name r) (Some (VObj params)) cb w)
      end.

(** The delays given to [setTimeout]. *)
Fixpoint timeouts (o : list Obs) : list Z :=
  match o with
  | [] => []
  | SetTimeout _ delay :: rest => delay :: timeouts rest
  | _ :: rest => timeouts rest
  end.


(** [{retryDelay: 2500}] *)
Definition retry_soon : Options :=
  {| opt_autoConnect := None; opt_globalListener := None; opt_sessionId := None;
     opt_apiKey := None; opt_retryCount := None;
     opt_retryDelay := Some 2500; opt_pingTimeout := None |}.

(** The state after a first connection and handshake of
    [new Client('ws://127.0.0.1:8001')]. *)
Definition ready_world : World :=
  (run one_shot (created one_shot local_url None)
     [Opened 0 5; Received 0 (Normal (hello_frame "s1" true)) 6 quiet]).1.

(** * Properties *)

Example to_key_num : to_key (VNum 12) = "12".
Proof. vm_compute. reflexivity. Qed.

Example to_key_arr : to_key (VArr [VNum 1; VNull; VStr "x"]) = "1,,x".
Proof. vm_compute. reflexivity. Qed.

Example js_incr_exact : js_incr 1 = 2.
Proof. reflexivity. Qed.

Example js_incr_saturates : js_incr (2 ^ 53) = 2 ^ 53.
Proof. reflexivity. Qed.

Example trim_session_id : trim "  abc " = "abc".
Proof. vm_compute. reflexivity. Qed.

(** U+00A0 and U+3000 are white space for [trim]; U+200B is not. *)
Example trim_unicode_space :
  let byte := Ascii.ascii_of_nat in
  trim (String (byte 194%nat) (String (byte 160%nat) (String (byte 97%nat)
          (String (byte 227%nat) (String (byte 128%nat) (String (byte 128%nat) EmptyString))))))
    = "a" /\
  trim (String (byte 194%nat) (String (byte 160%nat) EmptyString)) = "" /\
  trim (String (byte 226%nat) (String (byte 128%nat) (String (byte 139%nat) EmptyString)))
    = String (byte 226%nat) (String (byte 128%nat) (String (byte 139%nat) EmptyString)).
Proof. vm_compute. done. Qed.

(** A parameter [__proto__] is not copied; given several times it hides
    the others behind the indices of its values. *)
Example proto_parameter :
  initial_queryParams {[ "sid" := VStr "s"; "x" := VStr "1"; "__proto__" := VStr "p" ]}
    = {[ "x" := VStr "1" ]} /\
  initial_queryParams {[ "x" := VStr "1"; "__proto__" := VArr [VStr "a"; VStr "b"] ]}
    = {[ "0" := VStr "a"; "1" := VStr "b" ]}.
Proof. vm_compute. done. Qed.

(** Unfolds the statement combinators of [Js]. *)
Ltac js_unfold :=
  unfold _processMessage, try_catch, _processResultMessage, _processErrorMessage,
    _processNotificationMessage, call_builtin, listeners_run,
    mbind, mret, Js_bind, Js_ret, eval, gets, modify, emit, call, lift in *.

(** Unfolds the operations of the client down to record updates, leaving
    [_processMessage] folded. *)
Ltac unfold_ops :=
  unfold step, perform, transport_event, connect, reconnect, disconnect, execute,
    prepare, _send, timer_body, on_connected, on_connectionError, on_disconnected,
    _createConnection, _queueMessages in *.

Ltac step_cases i :=
  destruct i; unfold_ops; simpl;
  repeat (case_match; simplify_eq/=; auto).

Lemma has_field_false data k :
  has_field data k = false ->
  get_prop data k = Normal VUndefined \/ exists e, get_prop data k = Throw e.
Proof.
  unfold has_field. destruct (get_prop data k) as [v|e] eqn:E.
  - destruct v; simpl; try discriminate. intros _. by left.
  - intros _. right. by exists e.
Qed.

Lemma get_prop_throw_all data k k' e :
  get_prop data k = Throw e -> get_prop data k' = Throw e.
Proof. destruct data; simpl; congruence. Qed.

Lemma get_prop_normal_all base k k' v :
  get_prop base k = Normal v -> exists v', get_prop base k' = Normal v'.
Proof. destruct base; simpl; intros; simplify_eq; eauto. Qed.

(** What the constructor returns when it does not throw: the blank state,
    connected unless [autoConnect] is false. *)
Lemma new_Client_inv connectable u options w0 o0 :
  new_Client connectable u options = Normal (w0, o0) ->
  exists uri sessionId globalListener delay o,
    let w := blank uri (initial_queryParams (default ∅ (query u))) sessionId
               globalListener delay o in
    (w0, o0) = (w, []) \/ (w0, o0) = connect connectable w.
Proof.
  unfold new_Client.
  destruct (negb _); [done|].
  unfold mbind, completion_bind.
  destruct (match opt_retryCount _ with None => _ | _ => _ end) as [count|]; [|done].
  destruct (checked 1000 _ (opt_retryDelay _)) as [delay|]; [|done].
  destruct (checked 1000 _ (opt_pingTimeout _)) as [ping|]; [|done].
  unfold mret, completion_ret. intros H. injection H as H.
  do 5 eexists. cbn zeta.
  destruct (bool_decide _); [left|right]; by rewrite <- H.
Qed.

(** ** Readings of observations *)

Lemma ready_events_app o1 o2 :
  ready_events (o1 ++ o2) = ready_events o1 ++ ready_events o2.
Proof.
  induction o1 as [|x o1 IH]; [done|].
  destruct x as [[]| | | | | |]; simpl; by rewrite ?IH.
Qed.

Lemma ready_events_WsSend c l : ready_events (map (WsSend c) l) = [].
Proof. by induction l. Qed.

Lemma sends_app o1 o2 : sends (o1 ++ o2) = sends o1 ++ sends o2.
Proof.
  induction o1 as [|x o1 IH]; [done|].
  destruct x; simpl; by rewrite ?IH.
Qed.

Lemma sends_WsSend c l : sends (map (WsSend c) l) = map (pair c) l.
Proof. induction l; simpl; by f_equal. Qed.

Lemma uris_app o1 o2 : uris (o1 ++ o2) = uris o1 ++ uris o2.
Proof.
  induction o1 as [|x o1 IH]; [done|].
  destruct x; simpl; by rewrite ?IH.
Qed.

Lemma uris_WsSend c l : uris (map (WsSend c) l) = [].
Proof. by induction l. Qed.

Lemma attempts_made_app o1 o2 :
  attempts_made (o1 ++ o2) = attempts_made o1 ++ attempts_made o2.
Proof.
  induction o1 as [|x o1 IH]; [done|].
  destruct x; simpl; by rewrite ?IH.
Qed.

Lemma attempts_made_WsSend c l : attempts_made (map (WsSend c) l) = [].
Proof. by induction l. Qed.

Lemma events_app o1 o2 : events (o1 ++ o2) = events o1 ++ events o2.
Proof.
  induction o1 as [|x o1 IH]; [done|].
  destruct x; simpl; by rewrite ?IH.
Qed.

Lemma events_WsSend c l : events (map (WsSend c) l) = [].
Proof. by induction l. Qed.

Lemma called_app o1 o2 : called (o1 ++ o2) = called o1 ++ called o2.
Proof.
  induction o1 as [|x o1 IH]; [done|].
  destruct x; simpl; by rewrite ?IH.
Qed.

Lemma called_WsSend c l : called (map (WsSend c) l) = [].
Proof. by induction l. Qed.

Lemma timeouts_app o1 o2 : timeouts (o1 ++ o2) = timeouts o1 ++ timeouts o2.
Proof.
  induction o1 as [|x o1 IH]; [done|].
  destruct x; simpl; by rewrite ?IH.
Qed.

Lemma timeouts_WsSend c l : timeouts (map (WsSend c) l) = [].
Proof. by induction l. Qed.

(** ** The flush of the queue *)

Lemma processQueue_ready_events w : ready_events (_processQueue w).2 = [].
Proof.
  unfold _processQueue. destruct (_queue (client w)); [done|].
  destruct (_connection (client w)); [|done].
  apply ready_events_WsSend.
Qed.

Lemma processQueue_called w : called (_processQueue w).2 = [].
Proof.
  unfold _processQueue. destruct (_queue (client w)) as [|m0 q]; [done|].
  destruct (_connection (client w)) as [c0|]; simpl; [|done].
  apply called_WsSend.
Qed.

Lemma processQueue_timeouts w : timeouts (_processQueue w).2 = [].
Proof.
  unfold _processQueue. destruct (_queue (client w)); [done|].
  destruct (_connection (client w)); [|done]. apply timeouts_WsSend.
Qed.

Lemma processQueue_quiet w :
  uris (_processQueue w).2 = [] /\ attempts_made (_processQueue w).2 = [].
Proof.
  unfold _processQueue. destruct (_queue (client w)); [done|].
  destruct (_connection (client w)); [|done].
  simpl. by rewrite uris_WsSend, attempts_made_WsSend.
Qed.

Lemma processQueue_conserves w :
  (sends (_processQueue w).2).*2 ++ _queue (client (_processQueue w).1)
    = _queue (client w).
Proof.
  unfold _processQueue. destruct (_queue (client w)) as [|m q] eqn:E; [by simpl; rewrite E|].
  destruct (_connection (client w)); simpl; [|by rewrite E].
  rewrite sends_WsSend, app_nil_r. f_equal.
  rewrite <- list_fmap_compose. by rewrite list_fmap_id.
Qed.

Lemma processQueue_current w c m :
  (c, m) ∈ sends (_processQueue w).2 -> _connection (client w) = Some c.
Proof.
  unfold _processQueue. destruct (_queue (client w)) as [|m0 q]; [by rewrite elem_of_nil|].
  destruct (_connection (client w)) as [c0|]; cbn [snd]; [|by rewrite elem_of_nil].
  rewrite sends_WsSend. generalize (m0 :: q). intros l.
  change (map (pair c0) l) with (pair c0 <$> l).
  intros [x [? _]]%list_elem_of_fmap. by simplify_eq.
Qed.

Lemma processQueue_fields w :
  let w' := (_processQueue w).1 in
  sockets w' = sockets w /\ timers w' = timers w /\
  _connection (client w') = _connection (client w) /\
  _callbacks (client w') = _callbacks (client w) /\
  _readyTimestamp (client w') = _readyTimestamp (client w) /\
  _sessionId (client w') = _sessionId (client w).
Proof.
  unfold _processQueue. destruct (_queue (client w)) as [|m0 q]; [done|].
  destruct (_connection (client w)) eqn:E; simpl; rewrite ?E; repeat split.
Qed.

Lemma processQueue_preserves (P : World -> Prop) w :
  (forall w', P w' -> P (with_client (set_queue []) w')) ->
  P w -> P (_processQueue w).1.
Proof.
  intros Hq HP. unfold _processQueue.
  destruct (_queue (client w)); [done|].
  destruct (_connection (client w)); simpl; auto.
Qed.

Section Core.

Variable connectable : tstate -> bool.

(** ** Calls made by listeners *)

Lemma perform_all_cons op ops w :
  perform_all connectable (op :: ops) w =
    ((perform_all connectable ops (perform connectable op w).1).1,
     (perform connectable op w).2
       ++ (perform_all connectable ops (perform connectable op w).1).2).
Proof.
  cbn [perform_all]. destruct (perform connectable op w) as [w1 o1]. cbn [fst snd].
  by destruct (perform_all connectable ops w1).
Qed.

Lemma perform_all_preserves (P : World -> Prop) :
  (forall op w, P w -> P (perform connectable op w).1) ->
  forall ops w, P w -> P (perform_all connectable ops w).1.
Proof.
  intros Hop ops. induction ops as [|op ops IH]; intros w HP; [done|].
  rewrite perform_all_cons. cbn [fst]. auto.
Qed.

(** A reading of the observations that the calls leave empty is left
    empty by a sequence of calls. *)
Lemma perform_all_silent {A} (f : list Obs -> list A) :
  f [] = [] -> (forall o1 o2, f (o1 ++ o2) = f o1 ++ f o2) ->
  (forall op w, f (perform connectable op w).2 = []) ->
  forall ops w, f (perform_all connectable ops w).2 = [].
Proof.
  intros Hnil Happ Hop ops. induction ops as [|op ops IH]; intros w; [done|].
  rewrite perform_all_cons. cbn [snd]. by rewrite Happ, Hop, IH.
Qed.

Lemma perform_is_step op w :
  perform connectable op w =
    step connectable w match op with
                       | OpConnect => Connect
                       | OpReconnect => Reconnect
                       | OpDisconnect => Disconnect
                       | OpExecute command params cb => Execute command params cb
                       end.
Proof. by destruct op. Qed.

Lemma perform_ready_events op w : ready_events (perform connectable op w).2 = [].
Proof.
  destruct op; unfold_ops; simpl;
    repeat (case_match; simplify_eq/=; rewrite ?ready_events_WsSend; try done).
Qed.

Lemma perform_called op w : called (perform connectable op w).2 = [].
Proof.
  destruct op; unfold_ops; simpl;
    repeat (case_match; simplify_eq/=; rewrite ?called_WsSend; try done).
Qed.

Lemma perform_timeouts op w : timeouts (perform connectable op w).2 = [].
Proof.
  destruct op; unfold_ops; simpl;
    repeat (case_match; simplify_eq/=; rewrite ?timeouts_WsSend; try done).
Qed.

Lemma perform_events op w : events (perform connectable op w).2 = [].
Proof.
  destruct op; unfold_ops; simpl;
    repeat (case_match; simplify_eq/=; rewrite ?events_WsSend; try done).
Qed.

(** The fields that no call of a listener changes. *)
Lemma perform_fields op w :
  let w' := (perform connectable op w).1 in
  _sessionId (client w') = _sessionId (client w) /\
  _readyTimestamp (client w') = _readyTimestamp (client w) /\
  _queryParams (client w') = _queryParams (client w) /\
  _uri (client w') = _uri (client w) /\
  _retryDelay (client w') = _retryDelay (client w) /\
  _globalListener (client w') = _globalListener (client w).
Proof.
  destruct op; unfold_ops; simpl;
    repeat (case_match; simplify_eq/=; try done).
Qed.

Lemma perform_all_fields ops w :
  let w' := (perform_all connectable ops w).1 in
  _sessionId (client w') = _sessionId (client w) /\
  _readyTimestamp (client w') = _readyTimestamp (client w) /\
  _queryParams (client w') = _queryParams (client w) /\
  _uri (client w') = _uri (client w) /\
  _retryDelay (client w') = _retryDelay (client w) /\
  _globalListener (client w') = _globalListener (client w).
Proof.
  cbn zeta.
  apply (perform_all_preserves
           (fun w' => _sessionId (client w') = _sessionId (client w) /\
                      _readyTimestamp (client w') = _readyTimestamp (client w) /\
                      _queryParams (client w') = _queryParams (client w) /\
                      _uri (client w') = _uri (client w) /\
                      _retryDelay (client w') = _retryDelay (client w) /\
                      _globalListener (client w') = _globalListener (client w)));
    [|done].
  intros op w' (H1 & H2 & H3 & H4 & H5 & H6).
  destruct (perform_fields op w') as (E1 & E2 & E3 & E4 & E5 & E6).
  repeat split; congruence.
Qed.

(** The fields that the creation of a transport leaves alone. *)
Lemma createConnection_fields delay w :
  let w' := (_createConnection connectable delay w).1 in
  _sessionId (client w') = _sessionId (client w) /\
  _readyTimestamp (client w') = _readyTimestamp (client w) /\
  _queryParams (client w') = _queryParams (client w) /\
  _uri (client w') = _uri (client w) /\
  _retryDelay (client w') = _retryDelay (client w) /\
  _globalListener (client w') = _globalListener (client w) /\
  _queue (client w') = _queue (client w) /\
  _callbacks (client w') = _callbacks (client w) /\
  _nextCommandId (client w') = _nextCommandId (client w).
Proof. unfold _createConnection. by destruct delay. Qed.

(** ** The shape of what [_processMessage] does *)

(** What [_processMessage] does with a frame that has a [hello] field
    whose [sid] and [isNew] can be read: when [ready] is raised its
    listeners run before the queue is flushed, and the flush is skipped
    when they throw. *)
Lemma processMessage_hello w data hello sid isNew now l :
  get_prop data "hello" = Normal hello -> is_undefined hello = false ->
  get_prop hello "sid" = Normal sid -> get_prop hello "isNew" = Normal isNew ->
  _processMessage connectable (Normal data) now l w =
    let w1 := with_client (set_sessionId sid) w in
    if bool_decide (_readyTimestamp (client w) = None) || truthy isNew then
      let a := perform_all connectable (l_calls l)
                 (with_client (set_readyTimestamp (Some now)) w1) in
      if l_throws l then (a.1, Emit (ready sid isNew) :: a.2)
      else let r := _processQueue a.1 in (r.1, Emit (ready sid isNew) :: a.2 ++ r.2)
    else _processQueue w1.
Proof.
  intros Hh Hu Hs Hi. js_unfold. rewrite Hh. simpl. rewrite Hu. simpl.
  rewrite Hs. simpl. rewrite Hi. simpl.
  destruct (bool_decide (_readyTimestamp (client w) = None) || truthy isNew); simpl.
  - destruct (perform_all connectable (l_calls l) _) as [wa oa]. simpl.
    destruct (l_throws l); simpl; [by rewrite app_nil_r|].
    destruct (_processQueue wa). simpl. by rewrite app_nil_r.
  - by destruct (_processQueue _).
Qed.

(** What processing a frame can do: nothing, a handshake, one event for a
    notification, or one call of a pending handler, removed beforehand.
    Only the handshake depends on the listeners of [ready]. *)
Lemma processMessage_cases message now w :
  (forall l, _processMessage connectable message now l w = (w, [])) \/
  (exists sid isNew, forall l,
     _processMessage connectable message now l w =
       let w1 := with_client (set_sessionId sid) w in
       if bool_decide (_readyTimestamp (client w) = None) || truthy isNew then
         let a := perform_all connectable (l_calls l)
                    (with_client (set_readyTimestamp (Some now)) w1) in
         if l_throws l then (a.1, Emit (ready sid isNew) :: a.2)
         else let r := _processQueue a.1 in (r.1, Emit (ready sid isNew) :: a.2 ++ r.2)
       else _processQueue w1) \/
  (isReady (client w) = true /\
   ((exists n d, forall l,
       _processMessage connectable message now l w = (w, [Emit (per_kind n d)])) \/
    (exists d, forall l,
       _processMessage connectable message now l w = (w, [Emit (notification d)])) \/
    (exists key cb a b,
       _callbacks (client w) !! key = Some cb /\
       forall l,
         _processMessage connectable message now l w =
           (with_client (fun c => set_callbacks (delete key (_callbacks c)) c) w,
            [Call cb a b])))).
Proof.
  destruct message as [data|e]; [|by left].
  destruct (get_prop data "hello") as [hello|e] eqn:Hh.
  2: { left. intros l. js_unfold. by rewrite Hh. }
  destruct (is_undefined hello) eqn:Hu.
  - destruct hello; try discriminate Hu.
    destruct (_readyTimestamp (client w)) as [ts|] eqn:Er.
    2: { left. intros l. js_unfold. rewrite Hh. simpl. by rewrite Er. }
    assert (Hr : isReady (client w) = true).
    { unfold isReady. rewrite Er. by apply bool_decide_eq_true_2. }
    js_unfold. rewrite Hh. simpl. rewrite Er. simpl.
    repeat (case_match; simplify_eq/=; auto 10).
    all: right; right; split; [done|]; eauto 10.
  - destruct (get_prop hello "sid") as [sid|e] eqn:Hs.
    2: { left. intros l. js_unfold. rewrite Hh. simpl. rewrite Hu. simpl.
         by rewrite Hs. }
    destruct (get_prop_normal_all hello "sid" "isNew" _ Hs) as [isNew Hi].
    right; left. exists sid, isNew. intros l.
    by rewrite (processMessage_hello w data hello sid isNew now l Hh Hu Hs Hi).
Qed.

(** A property of the state kept by the four kinds of assignment made while
    a message is processed, and by the calls of listeners, is kept by
    [_processMessage]. *)
Lemma processMessage_preserves (P : World -> Prop) :
  (forall w sid, P w -> P (with_client (set_sessionId sid) w)) ->
  (forall w now, P w -> P (with_client (set_readyTimestamp (Some now)) w)) ->
  (forall w, P w -> P (with_client (set_queue []) w)) ->
  (forall w key, P w ->
     P (with_client (fun c => set_callbacks (delete key (_callbacks c)) c) w)) ->
  (forall op w, P w -> P (perform connectable op w).1) ->
  forall message now l w, P w -> P (_processMessage connectable message now l w).1.
Proof.
  intros Hsid Hready Hqueue Hcb Hop message now l w HP.
  destruct (processMessage_cases message now w)
    as [E|[(sid & isNew & E)|[_ [(n & d & E)|[(d & E)|(key & cb & a & b & _ & E)]]]]];
    rewrite E; cbn [fst]; auto.
  cbn zeta.
  destruct (bool_decide _ || truthy isNew).
  - destruct (l_throws l); cbn [fst].
    + apply perform_all_preserves; auto.
    + apply processQueue_preserves; [done|]. apply perform_all_preserves; auto.
  - apply processQueue_preserves; auto.
Qed.

(** A frame delivered by a transport is processed or, when the transport
    is not open, does not arrive. *)
Lemma step_received w c frame now l :
  step connectable w (Received c frame now l) = (w, []) \/
  step connectable w (Received c frame now l)
    = _processMessage connectable frame now l w.
Proof.
  unfold step, transport_event, on_message. simpl.
  destruct (sockets w !! c) as [t|]; [|by left].
  destruct (t_state t); auto.
Qed.

(** What a delivered frame does, and where the listeners of [ready]
    start when it raises [ready]. *)
Lemma step_received_cases w c frame now :
  (forall l, step connectable w (Received c frame now l) = (w, []) /\
             listeners_start connectable w (Received c frame now l) = None) \/
  (exists sid,
     isReady (client w) = true /\
     forall l, (step connectable w (Received c frame now l)
                  = _processQueue (with_client (set_sessionId sid) w)) /\
               listeners_start connectable w (Received c frame now l) = None) \/
  (exists sid isNew,
     let ws := with_client (set_readyTimestamp (Some now))
                 (with_client (set_sessionId sid) w) in
     forall l,
       (step connectable w (Received c frame now l) =
          let a := perform_all connectable (l_calls l) ws in
          if l_throws l then (a.1, Emit (ready sid isNew) :: a.2)
          else ((_processQueue a.1).1,
                Emit (ready sid isNew) :: a.2 ++ (_processQueue a.1).2)) /\
       listeners_start connectable w (Received c frame now l) = Some ws) \/
  (isReady (client w) = true /\
   exists w' o,
     (forall l, step connectable w (Received c frame now l) = (w', o) /\
                listeners_start connectable w (Received c frame now l) = None) /\
     ((exists n d, w' = w /\ o = [Emit (per_kind n d)]) \/
      (exists d, w' = w /\ o = [Emit (notification d)]) \/
      (exists key cb a b,
         _callbacks (client w) !! key = Some cb /\
         w' = with_client (fun c => set_callbacks (delete key (_callbacks c)) c) w /\
         o = [Call cb a b]))).
Proof.
  assert (Hs : (forall l, step connectable w (Received c frame now l) = (w, [])) \/
               (forall l, step connectable w (Received c frame now l)
                            = _processMessage connectable frame now l w)).
  { unfold step, transport_event, on_message. simpl.
    destruct (sockets w !! c) as [t|]; [|by left].
    destruct (t_state t); auto. }
  unfold listeners_start.
  destruct Hs as [Hs|Hs].
  { left. intros l. by rewrite !Hs. }
  destruct (processMessage_cases frame now w)
    as [E|[(sid & isNew & E)|[Hr [(n & d & E)|[(d & E)|(key & cb & a & b & Hl & E)]]]]].
  - left. intros l. by rewrite !Hs, !E.
  - destruct (bool_decide (_readyTimestamp (client w) = None) || truthy isNew) eqn:Eb.
    + right; right; left. exists sid, isNew. cbn zeta. intros l.
      rewrite !Hs, !E. cbn zeta. split; [done|].
      by cbn.
    + right; left. exists sid. split.
      { apply orb_false_elim in Eb as [Eb _]. apply bool_decide_eq_false in Eb.
        unfold isReady. apply bool_decide_eq_true_2.
        by destruct (_readyTimestamp (client w)); [eauto|]. }
      intros l. rewrite !Hs, !E. cbn zeta. split; [done|].
      by rewrite processQueue_ready_events.
  - right; right; right. split; [done|]. eexists _, _. split.
    + intros l. rewrite !Hs, !E. split; [done|]. by cbn.
    + left. by eauto.
  - right; right; right. split; [done|]. eexists _, _. split.
    + intros l. rewrite !Hs, !E. split; [done|]. by cbn.
    + right; left. by eauto.
  - right; right; right. split; [done|]. eexists _, _. split.
    + intros l. rewrite !Hs, !E. split; [done|]. by cbn.
    + right; right. by eauto 10.
Qed.

(** What a close reported by a transport does: nothing when the
    transport is not open; otherwise the transport is closed, the
    listeners of [disconnected] run and, unless they throw, a transport
    is created that will connect after the delay. *)
Lemma step_closed_cases w c code reason :
  (forall l, step connectable w (Closed c code reason l) = (w, []) /\
             listeners_start connectable w (Closed c code reason l) = None) \/
  (exists t,
     sockets w !! c = Some t /\ t_state t = TOpen /\
     let ws := with_socket c (set_tstate TClosed) w in
     forall l,
       (step connectable w (Closed c code reason l) =
          let a := perform_all connectable (l_calls l) ws in
          if l_throws l then (a.1, Emit (disconnected (t_counter t) code reason) :: a.2)
          else
            let r := _createConnection connectable (Some (_retryDelay (client a.1))) a.1 in
            (r.1, Emit (disconnected (t_counter t) code reason) :: a.2 ++ r.2)) /\
       listeners_start connectable w (Closed c code reason l) = Some ws).
Proof.
  assert (Hs : (forall l, step connectable w (Closed c code reason l) = (w, [])) \/
               (exists t, sockets w !! c = Some t /\ t_state t = TOpen /\
                  forall l, step connectable w (Closed c code reason l)
                            = on_disconnected connectable (t_counter t) code reason l
                                (with_socket c (set_tstate TClosed) w))).
  { unfold step, transport_event. simpl.
    destruct (sockets w !! c) as [t|] eqn:El; [|by left].
    destruct (t_state t) eqn:Et; try by left.
    right. by exists t. }
  unfold listeners_start.
  destruct Hs as [Hs|(t & El & Et & Hs)].
  { left. intros l. by rewrite !Hs. }
  right. exists t. split; [done|]. split; [done|]. cbn zeta. intros l.
  rewrite !Hs. unfold on_disconnected. cbn [interrupt l_calls l_throws perform_all].
  split; [|done].
  destruct (perform_all connectable (l_calls l) _) as [w1 o1]. cbn [fst snd].
  destruct (l_throws l); [done|].
  by destruct (_createConnection connectable _ w1).
Qed.

(** A property of the state kept by closing a transport, by the calls of
    listeners and by the creation of a transport is kept when a transport
    reports a close. *)
Lemma step_closed_preserves (P : World -> Prop) :
  (forall w c, P w -> P (with_socket c (set_tstate TClosed) w)) ->
  (forall op w, P w -> P (perform connectable op w).1) ->
  (forall d w, P w -> P (_createConnection connectable (Some d) w).1) ->
  forall w c code reason l, P w -> P (step connectable w (Closed c code reason l)).1.
Proof.
  intros Hclose Hop Hcreate w c code reason l HP.
  destruct (step_closed_cases w c code reason) as [H|(t & _ & _ & H)];
    destruct (H l) as [-> _]; [done|].
  cbn zeta. destruct (l_throws l); cbn [fst].
  - apply perform_all_preserves; auto.
  - apply Hcreate. apply perform_all_preserves; auto.
Qed.

Lemma run_cons w i rest :
  run connectable w (i :: rest) =
    ((run connectable (step connectable w i).1 rest).1,
     (step connectable w i).2 ++ (run connectable (step connectable w i).1 rest).2).
Proof.
  simpl. destruct (step connectable w i) as [w1 o1].
  simpl. by destruct (run connectable w1 rest).
Qed.

Lemma run_app trace1 trace2 : forall w,
  run connectable w (trace1 ++ trace2) =
    ((run connectable (run connectable w trace1).1 trace2).1,
     (run connectable w trace1).2 ++ (run connectable (run connectable w trace1).1 trace2).2).
Proof.
  induction trace1 as [|i trace1 IH]; intros w.
  - simpl. by destruct (run connectable w trace2).
  - rewrite <- app_comm_cons, !run_cons. cbn [fst snd]. rewrite IH. cbn [fst snd].
    by rewrite app_assoc.
Qed.

(** A property kept by every step is kept by every run. *)
Lemma run_preserves (P : World -> Prop) :
  (forall w i, P w -> P (step connectable w i).1) ->
  forall trace w, P w -> P (run connectable w trace).1.
Proof.
  intros Hstep trace. induction trace as [|i trace IH]; intros w HP; [done|].
  rewrite run_cons. cbn [fst]. auto.
Qed.

End Core.

Section Frames.

(** A [hello] field is enough to be taken for a handshake: without [sid]
    and [isNew] the session becomes ready under an undefined id. *)
Example hello_without_fields_is_a_handshake :
  _processMessage one_shot (Normal (VObj [("hello", VObj [])])) 7 quiet idle_world
    = (with_client (set_readyTimestamp (Some 7))
         (with_client (set_sessionId VUndefined) idle_world),
       [Emit (ready VUndefined VUndefined)]).
Proof. reflexivity. Qed.

(** [{"hello": null}] throws on [data.hello.sid] and is dropped. *)
Example null_hello_is_dropped :
  _processMessage one_shot (Normal (VObj [("hello", VNull)])) 7 quiet idle_world
    = (idle_world, []).
Proof. reflexivity. Qed.

(** A notification without [d] is republished with an undefined payload. *)
Example notification_without_payload :
  wire_shape (VObj [("n", VStr "ticker")]) = false /\
  forall l,
    _processMessage one_shot (Normal (VObj [("n", VStr "ticker")])) 7 l
      (with_client (set_readyTimestamp (Some 1)) idle_world)
    = (with_client (set_readyTimestamp (Some 1)) idle_world,
       [Emit (per_kind (VStr "ticker") VUndefined)]).
Proof. split; [reflexivity|]. intros l. reflexivity. Qed.

End Frames.

Section Latch.

Variable connectable : tstate -> bool.

Lemma perform_keeps_ready op w :
  isReady (client w) = true -> isReady (client (perform connectable op w).1) = true.
Proof.
  unfold isReady. destruct (perform_fields connectable op w) as (_ & E & _).
  by rewrite E.
Qed.

Lemma processMessage_keeps_ready message now l w :
  isReady (client w) = true ->
  isReady (client (_processMessage connectable message now l w).1) = true.
Proof.
  apply (processMessage_preserves connectable (fun w => isReady (client w) = true));
    auto using perform_keeps_ready.
Qed.

Lemma step_keeps_ready w i :
  isReady (client w) = true -> isReady (client (step connectable w i).1) = true.
Proof.
  intros H. destruct i.
  9: { apply (step_closed_preserves connectable (fun w => isReady (client w) = true));
         [done | apply perform_keeps_ready | | done].
       intros d w'. unfold isReady.
       by destruct (createConnection_fields connectable (Some d) w') as (_ & -> & _). }
  all: unfold_ops; simpl; repeat (case_match; simplify_eq/=; auto).
  by apply processMessage_keeps_ready.
Qed.

Lemma run_keeps_ready w trace :
  isReady (client w) = true -> isReady (client (run connectable w trace).1) = true.
Proof.
  intros H. apply (run_preserves connectable (fun w => isReady (client w) = true));
    auto using step_keeps_ready.
Qed.

Lemma not_ready_None w : isReady (client w) = false -> _readyTimestamp (client w) = None.
Proof.
  unfold isReady. intros Hn. rewrite bool_decide_eq_false in Hn.
  destruct (_readyTimestamp (client w)); [|done]. exfalso. apply Hn. eauto.
Qed.

Lemma processQueue_keeps_ready w :
  isReady (client w) = true -> isReady (client (_processQueue w).1) = true.
Proof.
  unfold isReady. destruct (processQueue_fields w) as (_ & _ & _ & _ & E & _).
  cbn zeta in E. by rewrite E.
Qed.

Lemma perform_all_keeps_ready ops w :
  isReady (client w) = true ->
  isReady (client (perform_all connectable ops w).1) = true.
Proof.
  apply (perform_all_preserves connectable (fun w => isReady (client w) = true)).
  auto using perform_keeps_ready.
Qed.

Lemma perform_all_ready_events ops w :
  ready_events (perform_all connectable ops w).2 = [].
Proof.
  apply (perform_all_silent connectable ready_events);
    auto using ready_events_app, perform_ready_events.
Qed.

End Latch.

Section Session.

Variable connectable : tstate -> bool.

(** C2.  A handshake frame [{hello:{sid,isNew}}] raises [ready] exactly
    once when the session has never been ready, and exactly once when
    [isNew] is true whatever the session was; it raises no [ready] when
    the session is already ready and [isNew] is false.  This holds whatever
    the listeners of [ready] do. *)
Theorem handshake_ready_observable (w : World) (fields hf : list (string * value))
    (sid : value) (isNew : bool) (now : Z) (listeners : Listeners) :
  assoc "hello" fields = Some (VObj hf) ->
  assoc "sid" hf = Some sid ->
  assoc "isNew" hf = Some (VBool isNew) ->
  let r := _processMessage connectable (Normal (VObj fields)) now listeners w in
  (isReady (client w) = false ->
     ready_events r.2 = [(sid, VBool isNew)] /\ isReady (client r.1) = true) /\
  (isReady (client w) = true -> isNew = false -> ready_events r.2 = []) /\
  (isNew = true ->
     ready_events r.2 = [(sid, VBool true)] /\ isReady (client r.1) = true).
Proof.
  intros Hh Hs Hi r. subst r.
  rewrite (processMessage_hello connectable w (VObj fields) (VObj hf) sid (VBool isNew)
             now listeners);
    [| by simpl; rewrite ?Hh, ?Hs, ?Hi ..].
  cbn zeta.
  set (w2 := with_client (set_readyTimestamp (Some now))
               (with_client (set_sessionId sid) w)).
  assert (Hraise :
    let a := perform_all connectable (l_calls listeners) w2 in
    let r := if l_throws listeners then (a.1, Emit (ready sid (VBool isNew)) :: a.2)
             else ((_processQueue a.1).1,
                   Emit (ready sid (VBool isNew)) :: a.2 ++ (_processQueue a.1).2) in
    ready_events r.2 = [(sid, VBool isNew)] /\ isReady (client r.1) = true).
  { cbn zeta.
    assert (Ha : isReady (client (perform_all connectable (l_calls listeners) w2).1) = true).
    { by apply perform_all_keeps_ready. }
    destruct (l_throws listeners); simpl.
    - by rewrite perform_all_ready_events.
    - rewrite ready_events_app, perform_all_ready_events, processQueue_ready_events.
      split; [done|]. by apply processQueue_keeps_ready. }
  split; [|split].
  - intros Hn. rewrite (not_ready_None w Hn). simpl. exact Hraise.
  - intros Hr ->. apply bool_decide_eq_true_1 in Hr as [ts E]. rewrite E. simpl.
    apply processQueue_ready_events.
  - intros ->. rewrite orb_true_r. exact Hraise.
Qed.

End Session.

Lemma handshake_ready_observable_witness :
  assoc "hello" [("hello", VObj [("sid", VStr "s1"); ("isNew", VBool false)])]
    = Some (VObj [("sid", VStr "s1"); ("isNew", VBool false)]) /\
  ready_events (_processMessage one_shot (Normal (hello_frame "s1" false)) 7
                  {| l_calls := [OpExecute "getPairs" None None]; l_throws := true |}
                  idle_world).2
    = [(VStr "s1", VBool false)].
Proof.
  split; [reflexivity|].
  apply (handshake_ready_observable one_shot idle_world
           [("hello", VObj [("sid", VStr "s1"); ("isNew", VBool false)])]
           [("sid", VStr "s1"); ("isNew", VBool false)] (VStr "s1") false 7);
    reflexivity.
Defined.

Section Noise.

Variable connectable : tstate -> bool.



End Noise.


Section Outbound.

Variable connectable : tstate -> bool.

(** C3.  A send request is appended to the outbound buffer, and nothing is
    transmitted, exactly when no transport connection exists, or it is not
    open, or the session has never been ready; otherwise every frame goes
    to the transport at once and the buffer is left alone. *)
Theorem send_path_policy (w : World) (l : list Message) :
  let r := _send connectable l w in
  if must_buffer w
  then _queue (client r.1) = _queue (client w) ++ l /\ sends r.2 = []
  else exists c, _connection (client w) = Some c /\ r = (w, map (WsSend c) l).
Proof.
  unfold must_buffer, isConnected, isReady, _send.
  destruct (_connection (client w)) as [c|]; simpl; [|done].
  destruct (from_option ws_isConnected false (sockets w !! c)); simpl; [|done].
  destruct (_readyTimestamp (client w)) as [ts|]; simpl; [|done].
  eauto.
Qed.

(** A message processed by a session that is not ready either makes it
    ready or changes nothing, whatever the listeners. *)
Lemma processMessage_still_not_ready message now l w :
  isReady (client w) = false ->
  isReady (client (_processMessage connectable message now l w).1) = false ->
  forall l', _processMessage connectable message now l' w = (w, []).
Proof.
  intros Hn Hn'. pose proof (not_ready_None w Hn) as E.
  destruct (processMessage_cases connectable message now w)
    as [E0|[(sid & isNew & E0)|[Hr _]]]; [done| |congruence].
  exfalso. revert Hn'. rewrite E0. cbn zeta. rewrite E. cbn [bool_decide orb].
  rewrite bool_decide_eq_true_2 by done. cbn [orb].
  assert (Ha : isReady (client (perform_all connectable (l_calls l)
                  (with_client (set_readyTimestamp (Some now))
                     (with_client (set_sessionId sid) w))).1) = true).
  { by apply perform_all_keeps_ready. }
  destruct (l_throws l); cbn [fst]; [congruence|].
  by rewrite (processQueue_keeps_ready _ Ha).
Qed.

(** A frame that leaves the session not ready starts no listener. *)
Lemma listeners_start_not_ready w c frame now l :
  isReady (client w) = false ->
  isReady (client (step connectable w (Received c frame now l)).1) = false ->
  (forall l', step connectable w (Received c frame now l') = (w, [])) /\
  listeners_start connectable w (Received c frame now l) = None.
Proof.
  intros Hn Hn'.
  assert (H : forall l', step connectable w (Received c frame now l') = (w, [])).
  { revert Hn'. unfold step, transport_event, on_message. simpl.
    destruct (sockets w !! c) as [t|]; [|done].
    destruct (t_state t); try done.
    intros Hn'. by apply (processMessage_still_not_ready frame now l w). }
  split; [done|]. unfold listeners_start. by rewrite H.
Qed.

(** While the session is not ready a call queues its request and sends
    nothing. *)
Lemma perform_while_not_ready op w :
  isReady (client w) = false ->
  _queue (client (perform connectable op w).1)
    = _queue (client w) ++ op_requests connectable [op] w /\
  sends (perform connectable op w).2 = [].
Proof.
  intros Hw. pose proof (not_ready_None _ Hw) as E.
  cbn [op_requests]. rewrite app_nil_r.
  destruct op; unfold_ops; unfold prepare; simpl;
    repeat (case_match; simplify_eq/=; auto using app_nil_r).
Qed.

Lemma perform_all_while_not_ready ops : forall w,
  isReady (client w) = false ->
  _queue (client (perform_all connectable ops w).1)
    = _queue (client w) ++ op_requests connectable ops w /\
  sends (perform_all connectable ops w).2 = [].
Proof.
  induction ops as [|op ops IH]; intros w Hw.
  - simpl. by rewrite app_nil_r.
  - rewrite perform_all_cons. cbn [fst snd].
    destruct (perform_while_not_ready op w Hw) as [Hq1 Hs1].
    assert (Hw1 : isReady (client (perform connectable op w).1) = false).
    { unfold isReady in *.
      by destruct (perform_fields connectable op w) as (_ & -> & _). }
    destruct (IH _ Hw1) as [Hq2 Hs2].
    split.
    + rewrite Hq2, Hq1. cbn [op_requests]. by rewrite app_nil_r, <- app_assoc.
    + by rewrite sends_app, Hs1, Hs2.
Qed.

Lemma step_while_not_ready w i :
  isReady (client (step connectable w i).1) = false ->
  _queue (client (step connectable w i).1)
    = _queue (client w) ++ requests connectable w [i]
  /\ sends (step connectable w i).2 = [].
Proof.
  intros Hn.
  assert (Hw : isReady (client w) = false).
  { destruct (isReady (client w)) eqn:E; [|done].
    by rewrite (step_keeps_ready connectable w i E) in Hn. }
  pose proof (not_ready_None _ Hw) as E.
  destruct i.
  10: { destruct (listeners_start_not_ready w c frame now listeners Hw Hn) as [H1 H2].
        unfold requests, executes. rewrite H2, H1. simpl. by rewrite app_nil_r. }
  9: { cbn [requests]. rewrite app_nil_r. unfold call_state, executes.
       destruct (step_closed_cases connectable w c code reason) as [H|(t & _ & _ & H)];
         destruct (H listeners) as [-> ->]; cbn [default op_requests fst snd].
       { by rewrite app_nil_r. }
       cbn zeta.
       destruct (perform_all_while_not_ready (l_calls listeners)
                   (with_socket c (set_tstate TClosed) w) Hw) as [Hq Hs].
       destruct (l_throws listeners); cbn [fst snd sends]; [done|].
       destruct (createConnection_fields connectable
                   (Some (_retryDelay (client (perform_all connectable (l_calls listeners)
                      (with_socket c (set_tstate TClosed) w)).1)))
                   (perform_all connectable (l_calls listeners)
                      (with_socket c (set_tstate TClosed) w)).1)
         as (_ & _ & _ & _ & _ & _ & -> & _).
       split; [done|]. by rewrite sends_app, Hs. }
  all: unfold requests, executes, listeners_start, op_requests; cbn [default];
    rewrite ?app_nil_r.
  all: revert Hn; unfold_ops; simpl;
    repeat (case_match; simplify_eq/=; auto using app_nil_r).
Qed.

Lemma run_still_not_ready w trace :
  isReady (client (run connectable w trace).1) = false -> isReady (client w) = false.
Proof.
  intros Hn. destruct (isReady (client w)) eqn:E; [|done].
  by rewrite (run_keeps_ready connectable w trace E) in Hn.
Qed.

(** While the session is not ready every request is queued, in call
    order, and nothing reaches a transport. *)
Lemma run_while_not_ready trace : forall w,
  isReady (client (run connectable w trace).1) = false ->
  _queue (client (run connectable w trace).1)
    = _queue (client w) ++ requests connectable w trace
  /\ sends (run connectable w trace).2 = [].
Proof.
  induction trace as [|i trace IH]; intros w Hn.
  - simpl. by rewrite app_nil_r.
  - rewrite run_cons in *. cbn [fst snd] in *.
    assert (H1 : isReady (client (step connectable w i).1) = false).
    { by apply (run_still_not_ready _ trace). }
    destruct (step_while_not_ready w i H1) as [Hq1 Hs1].
    destruct (IH _ Hn) as [Hq2 Hs2].
    cbn [requests] in *. rewrite app_nil_r in Hq1.
    split.
    + rewrite Hq2, Hq1. by rewrite <- app_assoc.
    + by rewrite sends_app, Hs1, Hs2.
Qed.

(** The calls of listeners only append to the queue. *)
Lemma perform_queue op w :
  exists late, _queue (client (perform connectable op w).1) = _queue (client w) ++ late.
Proof.
  destruct op; unfold_ops; simpl;
    repeat (case_match; simplify_eq/=; eauto using app_nil_r).
Qed.

Lemma perform_all_queue ops : forall w,
  exists late,
    _queue (client (perform_all connectable ops w).1) = _queue (client w) ++ late.
Proof.
  induction ops as [|op ops IH]; intros w.
  - exists []. simpl. by rewrite app_nil_r.
  - rewrite perform_all_cons. cbn [fst].
    destruct (perform_queue op w) as [l1 E1].
    destruct (IH (perform connectable op w).1) as [l2 E2].
    exists (l1 ++ l2). by rewrite E2, E1, app_assoc.
Qed.

(** What the flush hands to the transport the client holds. *)
Lemma processQueue_spec w :
  match _connection (client w) with
  | Some c =>
      sends (_processQueue w).2 = map (pair c) (_queue (client w)) /\
      _queue (client (_processQueue w).1) = []
  | None => _processQueue w = (w, [])
  end.
Proof.
  unfold _processQueue.
  destruct (_queue (client w)) as [|m q] eqn:E; destruct (_connection (client w));
    simpl; rewrite ?E, ?sends_WsSend; done.
Qed.

(** The handshake that makes the session ready sends the whole queue, in
    order, to the current transport and empties it, when the listeners of
    [ready] stay passive. *)
Lemma first_handshake_flushes w data hello sid isNew now c :
  get_prop data "hello" = Normal hello -> is_undefined hello = false ->
  get_prop hello "sid" = Normal sid -> get_prop hello "isNew" = Normal isNew ->
  isReady (client w) = false -> _connection (client w) = Some c ->
  let r := _processMessage connectable (Normal data) now quiet w in
  r.2 = Emit (ready sid isNew) :: map (WsSend c) (_queue (client w)) /\
  _queue (client r.1) = [].
Proof.
  intros Hh Hu Hs Hi Hn Hc r. subst r.
  rewrite (processMessage_hello connectable w data hello sid isNew now quiet Hh Hu Hs Hi).
  rewrite (not_ready_None w Hn). simpl.
  unfold _processQueue. simpl. rewrite Hc.
  destruct (_queue (client w)) eqn:E; simpl; rewrite ?E; done.
Qed.

(** C4, amended.  Frames requested while the session has never been ready
    are queued in call order and none is transmitted.  The handshake that
    makes the session ready first runs the listeners of [ready]; when they
    make no call and do not throw, exactly the queued frames are handed,
    in that order, to the current transport and the queue is left empty.
    In general the frames the listeners send go out before the flush, the
    frames they have queued come after the frames queued before them, the
    flush hands the whole queue to the transport the client then holds,
    and there is no flush, the queue being kept, when a listener throws or
    when the client then holds no transport. *)
Theorem buffered_frames_flushed_in_order (w : World) (trace : list Input) (c : nat)
    (fields hf : list (string * value)) (sid isNew : value) (now : Z)
    (listeners : Listeners) :
  _queue (client w) = [] ->
  isReady (client (run connectable w trace).1) = false ->
  _connection (client (run connectable w trace).1) = Some c ->
  assoc "hello" fields = Some (VObj hf) ->
  assoc "sid" hf = Some sid ->
  assoc "isNew" hf = Some isNew ->
  let w1 := (run connectable w trace).1 in
  let r := _processMessage connectable (Normal (VObj fields)) now listeners w1 in
  let a := perform_all connectable (l_calls listeners)
             (with_client (set_readyTimestamp (Some now))
                (with_client (set_sessionId sid) w1)) in
  sends (run connectable w trace).2 = [] /\
  _queue (client w1) = requests connectable w trace /\
  (l_calls listeners = [] -> l_throws listeners = false ->
     sends r.2 = map (pair c) (requests connectable w trace) /\
     _queue (client r.1) = []) /\
  exists late,
    _queue (client a.1) = requests connectable w trace ++ late /\
    if l_throws listeners then
      sends r.2 = sends a.2 /\ _queue (client r.1) = _queue (client a.1)
    else
      match _connection (client a.1) with
      | Some c' =>
          sends r.2 = sends a.2 ++ map (pair c') (requests connectable w trace ++ late) /\
          _queue (client r.1) = []
      | None => sends r.2 = sends a.2 /\ _queue (client r.1) = _queue (client a.1)
      end.
Proof.
  intros Hq Hn Hc Hh Hs Hi w1 r a.
  destruct (run_while_not_ready trace w Hn) as [Hq1 Hs1]. fold w1 in Hq1, Hn, Hc.
  rewrite Hq in Hq1. simpl in Hq1.
  assert (Er : r = if l_throws listeners then (a.1, Emit (ready sid isNew) :: a.2)
                   else ((_processQueue a.1).1,
                         Emit (ready sid isNew) :: a.2 ++ (_processQueue a.1).2)).
  { subst r.
    rewrite (processMessage_hello connectable w1 (VObj fields) (VObj hf) sid isNew now
               listeners); [| by simpl; rewrite ?Hh, ?Hs, ?Hi ..].
    cbn zeta. rewrite (not_ready_None w1 Hn).
    rewrite bool_decide_eq_true_2 by done. cbn [orb]. by fold a. }
  split; [done|]. split; [done|]. split.
  - intros Hcalls Hthrows. rewrite Er, Hthrows. subst a. rewrite Hcalls.
    cbn [perform_all fst snd app sends].
    pose proof (processQueue_spec
                  (with_client (set_readyTimestamp (Some now))
                     (with_client (set_sessionId sid) w1))) as Hp.
    cbn [with_client client set_readyTimestamp set_sessionId _connection _queue] in Hp.
    rewrite Hc in Hp. destruct Hp as [-> ->]. by rewrite Hq1.
  - destruct (perform_all_queue (l_calls listeners)
                (with_client (set_readyTimestamp (Some now))
                   (with_client (set_sessionId sid) w1))) as [late El].
    fold a in El. cbn [with_client client set_readyTimestamp set_sessionId _queue] in El.
    rewrite Hq1 in El. exists late. split; [done|].
    rewrite Er. destruct (l_throws listeners); cbn [fst snd sends]; [done|].
    rewrite sends_app. pose proof (processQueue_spec a.1) as Hp.
    destruct (_connection (client a.1)) as [c'|].
    + destruct Hp as [-> ->]. by rewrite El.
    + rewrite Hp. cbn [fst snd sends]. by rewrite app_nil_r.
Qed.

End Outbound.

(** C4 does not hold as the specification states it.  With a frame [a]
    queued before the handshake: a listener of [ready] that disconnects,
    or one that throws, leaves it in the queue and nothing is sent; the
    frame [b] that a listener sends reaches the transport before [a]. *)
Lemma ready_listener_disturbs_flush :
  let w1 := (run one_shot (created one_shot local_url None)
               [Execute "a" None None; Opened 0 5]).1 in
  let a := {| msg_m := "a"; msg_p := None; msg_i := None |} in
  let b := {| msg_m := "b"; msg_p := None; msg_i := None |} in
  let handshake l := _processMessage one_shot (Normal (hello_frame "s1" true)) 6 l w1 in
  (isReady (client w1) = false /\ _connection (client w1) = Some 0%nat /\
   _queue (client w1) = [a]) /\
  (sends (handshake {| l_calls := [OpDisconnect]; l_throws := false |}).2 = [] /\
   _queue (client (handshake {| l_calls := [OpDisconnect]; l_throws := false |}).1) = [a]) /\
  (sends (handshake interrupt).2 = [] /\
   _queue (client (handshake interrupt).1) = [a]) /\
  sends (handshake {| l_calls := [OpExecute "b" None None]; l_throws := false |}).2
    = [(0%nat, b); (0%nat, a)].
Proof. vm_compute. done. Qed.

Lemma buffered_frames_flushed_in_order_witness :
  let w := created one_shot local_url None in
  let trace := [Execute "a" None (Some 7%nat); Opened 0 5; Execute "b" None None] in
  let w1 := (run one_shot w trace).1 in
  (_queue (client w) = [] /\ isReady (client w1) = false /\
   _connection (client w1) = Some 0%nat) /\
  sends (_processMessage one_shot (Normal (hello_frame "s1" true)) 6 quiet w1).2
    = [(0%nat, {| msg_m := "a"; msg_p := None; msg_i := Some 1 |});
       (0%nat, {| msg_m := "b"; msg_p := None; msg_i := None |})].
Proof.
  split; [repeat split; vm_compute; reflexivity|].
  destruct (buffered_frames_flushed_in_order one_shot
              (created one_shot local_url None)
              [Execute "a" None (Some 7%nat); Opened 0 5; Execute "b" None None]
              0%nat [("hello", VObj [("sid", VStr "s1"); ("isNew", VBool true)])]
              [("sid", VStr "s1"); ("isNew", VBool true)] (VStr "s1") (VBool true) 6 quiet)
    as (_ & _ & H & _); [vm_compute; reflexivity .. | exact (proj1 (H eq_refl eq_refl))].
Defined.

Section Correlator.

Variable connectable : tstate -> bool.

Lemma js_incr_ge n : n <= js_incr n.
Proof. unfold js_incr. case_match; lia. Qed.

Lemma js_incr_le n : js_incr n <= n + 1.
Proof. unfold js_incr. case_match; lia. Qed.

Lemma ids_handed_out_ext c c' :
  _nextCommandId c' = _nextCommandId c -> _callbacks c' = _callbacks c ->
  ids_handed_out c -> ids_handed_out c'.
Proof. unfold ids_handed_out. by intros -> ->. Qed.

Lemma prepare_ids command params cb c :
  ids_handed_out c -> ids_handed_out (prepare command params cb c).2.
Proof.
  intros [Hb Hk]. destruct cb as [f|]; [|done]. simpl.
  unfold ids_handed_out. simpl. split.
  - unfold js_incr. case_match; lia.
  - intros key [h Hl]. destruct (decide (key = pretty (_nextCommandId c))) as [->|Hne].
    + exists (_nextCommandId c). split; [done|]. split; [lia|].
      unfold js_incr. case_match; lia.
    + rewrite lookup_insert_ne in Hl by done.
      destruct (Hk key) as (id & -> & H1 & H2); [by eauto|].
      exists id. split; [done|]. split; [done|].
      unfold js_incr. case_match; lia.
Qed.

Lemma execute_ids command params cb w :
  ids_handed_out (client w) ->
  ids_handed_out (client (execute connectable command params cb w).1).
Proof.
  intros H. unfold execute.
  pose proof (prepare_ids command params cb (client w) H) as Hp.
  destruct (prepare command params cb (client w)) as [message cl]. simpl in Hp.
  unfold _send, _createConnection, _queueMessages. simpl.
  repeat (case_match; simplify_eq/=; auto).
Qed.

Lemma perform_ids op w :
  ids_handed_out (client w) -> ids_handed_out (client (perform connectable op w).1).
Proof.
  intros H. destruct op; [| | |by apply execute_ids].
  all: unfold_ops; simpl; repeat (case_match; simplify_eq/=; auto).
Qed.

Lemma processMessage_ids message now l w :
  ids_handed_out (client w) ->
  ids_handed_out (client (_processMessage connectable message now l w).1).
Proof.
  apply (processMessage_preserves connectable (fun w => ids_handed_out (client w)));
    auto using perform_ids.
  intros w' key [Hb Hk]. split; [done|]. simpl.
  intros k [h Hl]. apply Hk. exists h.
  destruct (decide (key = k)) as [->|Hne].
  - by rewrite lookup_delete_eq in Hl.
  - by rewrite lookup_delete_ne in Hl.
Qed.

Lemma step_ids w i :
  ids_handed_out (client w) -> ids_handed_out (client (step connectable w i).1).
Proof.
  intros H. destruct i.
  4: { by apply execute_ids. }
  9: { destruct (step_received connectable w c frame now listeners) as [->| ->];
         [done|]. by apply processMessage_ids. }
  8: { apply (step_closed_preserves connectable (fun w => ids_handed_out (client w)));
         [done | apply perform_ids | | done].
       intros d w' Hids.
       destruct (createConnection_fields connectable (Some d) w')
         as (_ & _ & _ & _ & _ & _ & _ & E1 & E2).
       by apply (ids_handed_out_ext (client w')). }
  all: unfold_ops; simpl; repeat (case_match; simplify_eq/=; auto).
Qed.

Lemma run_ids trace : forall w,
  ids_handed_out (client w) -> ids_handed_out (client (run connectable w trace).1).
Proof.
  intros w. apply (run_preserves connectable (fun w => ids_handed_out (client w))).
  intros w' i. apply step_ids.
Qed.

(** The id counter never decreases. *)
Lemma perform_nextCommandId_mono op w :
  _nextCommandId (client w) <= _nextCommandId (client (perform connectable op w).1).
Proof.
  destruct op; unfold_ops; unfold prepare; simpl;
    repeat (case_match; simplify_eq/=; auto using js_incr_ge; try lia).
Qed.

Lemma step_nextCommandId_mono w i :
  _nextCommandId (client w) <= _nextCommandId (client (step connectable w i).1).
Proof.
  destruct i.
  10: { destruct (step_received connectable w c frame now listeners) as [->| ->];
          [done|].
        apply (processMessage_preserves connectable
                 (fun w' => _nextCommandId (client w) <= _nextCommandId (client w')));
          try done.
        intros op w' Hle. pose proof (perform_nextCommandId_mono op w'). lia. }
  9: { apply (step_closed_preserves connectable
                (fun w' => _nextCommandId (client w) <= _nextCommandId (client w')));
         [done | | | done].
       - intros op w' Hle. pose proof (perform_nextCommandId_mono op w'). lia.
       - intros d w' Hle.
         by destruct (createConnection_fields connectable (Some d) w')
           as (_ & _ & _ & _ & _ & _ & _ & _ & ->). }
  all: unfold_ops; unfold prepare; simpl;
    repeat (case_match; simplify_eq/=; auto using js_incr_ge; try lia).
Qed.

Lemma run_nextCommandId_mono trace : forall w,
  _nextCommandId (client w) <= _nextCommandId (client (run connectable w trace).1).
Proof.
  induction trace as [|i trace IH]; intros w; [done|].
  rewrite run_cons. cbn [fst].
  pose proof (step_nextCommandId_mono w i) as Hs.
  specialize (IH (step connectable w i).1). lia.
Qed.

(** Each request takes at most one id, so fewer than 2^53 - 1 requests keep
    the counter in the range where it increments exactly. *)
Lemma perform_all_nextCommandId_le ops : forall w,
  _nextCommandId (client (perform_all connectable ops w).1)
    <= _nextCommandId (client w) + Z.of_nat (length (op_requests connectable ops w)).
Proof.
  induction ops as [|op ops IH]; intros w; [simpl; lia|].
  rewrite perform_all_cons. cbn [fst op_requests].
  specialize (IH (perform connectable op w).1). rewrite length_app.
  assert (_nextCommandId (client (perform connectable op w).1)
          <= _nextCommandId (client w)
             + Z.of_nat (length (match op with
                                 | OpExecute command params cb =>
                                     [(prepare command params cb (client w)).1]
                                 | _ => []
                                 end))); [|lia].
  destruct op; unfold_ops; unfold prepare; simpl;
    repeat (case_match; simplify_eq/=; try lia).
  all: pose proof (js_incr_le (_nextCommandId (client w))); lia.
Qed.

Lemma step_nextCommandId_le w i :
  _nextCommandId (client (step connectable w i).1)
    <= _nextCommandId (client w) + Z.of_nat (length (requests connectable w [i])).
Proof.
  cbn [requests]. rewrite app_nil_r. unfold call_state, executes.
  destruct i.
  10: { destruct (step_received_cases connectable w c frame now)
          as [H|[(sid & _ & H)|[(sid & isNew & H)|(_ & w' & o & H & Hc)]]];
          destruct (H listeners) as [-> ->]; cbn [default fst op_requests length].
        - lia.
        - destruct (processQueue_fields (with_client (set_sessionId sid) w))
            as (_ & _ & _ & _ & _ & _).
          unfold _processQueue. repeat (case_match; simplify_eq/=; try lia).
        - pose proof (perform_all_nextCommandId_le (l_calls listeners)
                        (with_client (set_readyTimestamp (Some now))
                           (with_client (set_sessionId sid) w))) as Hle.
          cbn [with_client client set_readyTimestamp set_sessionId _nextCommandId] in Hle.
          destruct (l_throws listeners); cbn [fst]; [exact Hle|].
          unfold _processQueue. repeat (case_match; simplify_eq/=; try exact Hle).
        - destruct Hc as [(n & d & -> & _)|[(d & -> & _)|(key & cb & a & b & _ & -> & _)]];
            simpl; lia. }
  9: { destruct (step_closed_cases connectable w c code reason) as [H|(t & _ & _ & H)];
         destruct (H listeners) as [-> ->]; cbn [default fst op_requests length];
         [lia|].
       cbn zeta.
       pose proof (perform_all_nextCommandId_le (l_calls listeners)
                     (with_socket c (set_tstate TClosed) w)) as Hle.
       destruct (l_throws listeners); cbn [fst]; [exact Hle|].
       by destruct (createConnection_fields connectable
                      (Some (_retryDelay (client (perform_all connectable
                         (l_calls listeners) (with_socket c (set_tstate TClosed) w)).1)))
                      (perform_all connectable (l_calls listeners)
                         (with_socket c (set_tstate TClosed) w)).1)
         as (_ & _ & _ & _ & _ & _ & _ & _ & ->). }
  all: unfold listeners_start; cbn [default op_requests].
  all: unfold_ops; unfold prepare; simpl;
    repeat (case_match; simplify_eq/=; try lia).
  all: pose proof (js_incr_le (_nextCommandId (client w))); lia.
Qed.

Lemma run_nextCommandId_le trace : forall w,
  _nextCommandId (client (run connectable w trace).1)
    <= _nextCommandId (client w) + Z.of_nat (length (requests connectable w trace)).
Proof.
  induction trace as [|i trace IH]; intros w; [simpl; lia|].
  rewrite run_cons. cbn [fst].
  pose proof (step_nextCommandId_le w i) as Hs.
  specialize (IH (step connectable w i).1).
  cbn [requests] in *. rewrite app_nil_r in Hs. rewrite length_app. lia.
Qed.

Lemma new_Client_ids u options w0 o0 :
  new_Client connectable u options = Normal (w0, o0) ->
  _nextCommandId (client w0) = 1 /\ ids_handed_out (client w0).
Proof.
  intros H. apply new_Client_inv in H as (uri & sid & gl & delay & o & [H|H]);
    unfold connect, _createConnection in H; simplify_eq/=.
  all: split; [done|]; split; [simpl; lia|];
    intros key [h Hl]; simpl in Hl; by rewrite lookup_empty in Hl.
Qed.

(** C5.  A command given a handler carries the current value of the id
    counter, which starts at 1 and never decreases during the life of the
    client; the handler is registered under that id in the state that the
    send path receives.  A command without handler carries no id and
    registers nothing.  Below 2^53, where the counter increments exactly,
    the id given is not the id of any pending command. *)
Theorem execute_correlation_ids (u : ParsedUrl) (options : option Options)
    (w0 : World) (o0 : list Obs) (trace : list Input)
    (command : string) (params : option value) (cb : option handler) :
  new_Client connectable u options = Normal (w0, o0) ->
  let w := (run connectable w0 trace).1 in
  let id := _nextCommandId (client w) in
  let prepared := prepare command params cb (client w) in
  _nextCommandId (client w0) = 1 /\
  1 <= id /\
  (forall more : list Input, id <= _nextCommandId (client (run connectable w more).1)) /\
  execute connectable command params cb w
    = _send connectable [prepared.1] (with_client (fun _ => prepared.2) w) /\
  match cb with
  | Some f =>
      msg_i prepared.1 = Some id /\
      _callbacks prepared.2 !! pretty id = Some f /\
      _nextCommandId prepared.2 = js_incr id /\
      (id < 2 ^ 53 -> _callbacks (client w) !! pretty id = None)
  | None => msg_i prepared.1 = None /\ prepared.2 = client w
  end.
Proof.
  intros Hnew w id prepared.
  destruct (new_Client_ids u options w0 o0 Hnew) as [H1 Hids0].
  pose proof (run_ids trace w0 Hids0) as Hids. fold w in Hids.
  pose proof (run_nextCommandId_mono trace w0) as Hmono. fold w in Hmono.
  split; [done|]. split; [subst id; lia|].
  split; [intros more; apply run_nextCommandId_mono|].
  split.
  { unfold execute. subst prepared. by destruct (prepare _ _ _ _). }
  subst prepared. destruct cb as [f|]; simpl; [|done].
  split; [done|]. split; [by rewrite lookup_insert_eq|]. split; [done|].
  intros Hlt. destruct Hids as [Hb Hk].
  destruct (_callbacks (client w) !! pretty id) as [h|] eqn:El; [|done].
  destruct (Hk (pretty id)) as (id' & Hp & Hge & Hor); [by eauto|].
  apply (inj pretty) in Hp. subst id'. subst id. lia.
Qed.

End Correlator.

Lemma execute_correlation_ids_witness :
  new_Client one_shot local_url None
    = Normal (created one_shot local_url None,
              [WsNew 0 (UriPlain "ws://127.0.0.1:8001/"); WsConnect 0]) /\
  msg_i (prepare "getPairs" None (Some 7%nat)
           (client (run one_shot (created one_shot local_url None)
                      [Execute "a" None (Some 3%nat)]).1)).1 = Some 2.
Proof.
  split; [vm_compute; reflexivity|].
  destruct (execute_correlation_ids one_shot local_url None
              (created one_shot local_url None)
              [WsNew 0 (UriPlain "ws://127.0.0.1:8001/"); WsConnect 0]
              [Execute "a" None (Some 3%nat)] "getPairs" None (Some 7%nat))
    as (_ & _ & _ & _ & H & _); [vm_compute; reflexivity | exact H].
Defined.

(** At 2^53 the counter no longer moves: two commands in a row get the
    same id. *)
Lemma id_repeats_at_2_53 command params f g c :
  _nextCommandId c = 2 ^ 53 ->
  let first := prepare command params (Some f) c in
  let second := prepare command params (Some g) first.2 in
  msg_i first.1 = Some (2 ^ 53) /\ msg_i second.1 = Some (2 ^ 53).
Proof. intros H. simpl. rewrite H. by vm_compute. Qed.

Section Replies.

Variable connectable : tstate -> bool.

Lemma has_field_false_normal data k k' v :
  has_field data k = false -> get_prop data k' = Normal v ->
  get_prop data k = Normal VUndefined.
Proof.
  intros H Hv. destruct (has_field_false _ _ H) as [E|[e E]]; [done|].
  by rewrite (get_prop_throw_all _ _ k' _ E) in Hv.
Qed.

(** C6.  Once the session is ready, a result frame [{i, r}] or an error
    frame [{i, e}] whose id has a pending handler removes the entry and
    calls the handler once, with [(r, null)] or [(null, e)]; the same frame
    delivered again, like any reply whose id has no pending handler,
    changes nothing and is not observed.  No listener of [ready] runs. *)
Theorem reply_resolves_pending (w : World) (data i : value) (rep : reply) (now : Z)
    (listeners again : Listeners) :
  isReady (client w) = true ->
  is_reply data i rep ->
  let r := _processMessage connectable (Normal data) now listeners w in
  match _callbacks (client w) !! to_key i with
  | Some cb =>
      r = (with_client
             (fun c => set_callbacks (delete (to_key i) (_callbacks c)) c) w,
           [Call cb (reply_args rep).1 (reply_args rep).2]) /\
      _processMessage connectable (Normal data) now again r.1 = (r.1, [])
  | None => r = (w, [])
  end.
Proof.
  intros Hr (Hh & Hn & Hi & Hrep) r.
  apply bool_decide_eq_true_1 in Hr as [ts Ets].
  pose proof (has_field_false_normal _ _ _ _ Hh Hi) as Eh.
  pose proof (has_field_false_normal _ _ _ _ Hn Hi) as En.
  assert (Hgen : forall l w', _readyTimestamp (client w') = Some ts ->
    _processMessage connectable (Normal data) now l w' =
      match _callbacks (client w') !! to_key i with
      | Some cb =>
          (with_client
             (fun c => set_callbacks (delete (to_key i) (_callbacks c)) c) w',
           [Call cb (reply_args rep).1 (reply_args rep).2])
      | None => (w', [])
      end).
  { intros l w' E'. js_unfold. rewrite Eh. simpl. rewrite E'. simpl.
    rewrite En. simpl.
    destruct rep as [res|err]; simpl in *.
    - destruct Hrep as [Er Hu]. rewrite Er. simpl. rewrite Hu. simpl.
      rewrite Hi. simpl.
      destruct (_callbacks (client w') !! to_key i) as [cb|] eqn:El.
      + done.
      + repeat case_match; simplify_eq/=; done.
    - destruct Hrep as (Hnr & Ee & Hu).
      rewrite (has_field_false_normal _ _ _ _ Hnr Hi). simpl.
      rewrite Ee. simpl. rewrite Hu. simpl. rewrite Hi. simpl.
      destruct (_callbacks (client w') !! to_key i) as [cb|] eqn:El.
      + done.
      + repeat case_match; simplify_eq/=; done. }
  subst r. rewrite (Hgen listeners w Ets).
  destruct (_callbacks (client w) !! to_key i) as [cb|] eqn:El; [|done].
  split; [done|]. simpl.
  rewrite Hgen by done. simpl. by rewrite lookup_delete_eq.
Qed.

End Replies.

Lemma reply_resolves_pending_witness :
  let w := (run one_shot (created one_shot local_url None)
              [Opened 0 5; Received 0 (Normal (hello_frame "s1" true)) 6 quiet;
               Execute "getPairs" None (Some 7%nat)]).1 in
  (isReady (client w) = true /\
   is_reply (result_frame 1 (VStr "ok")) (VNum 1) (Result (VStr "ok"))) /\
  (_processMessage one_shot (Normal (result_frame 1 (VStr "ok"))) 8 interrupt w).2
    = [Call 7%nat (VStr "ok") VNull].
Proof.
  intros w.
  assert (Hr : isReady (client w) = true) by (vm_compute; reflexivity).
  assert (Hf : is_reply (result_frame 1 (VStr "ok")) (VNum 1) (Result (VStr "ok")))
    by (repeat split; reflexivity).
  assert (El : _callbacks (client w) !! to_key (VNum 1) = @Some handler 7%nat)
    by (vm_compute; reflexivity).
  split; [done|].
  pose proof (reply_resolves_pending one_shot w (result_frame 1 (VStr "ok")) (VNum 1)
                (Result (VStr "ok")) 8 interrupt quiet Hr Hf) as H.
  cbv zeta in H. rewrite El in H. destruct H as [H _]. by rewrite H.
Defined.

(** A reply whose id names a built-in of [Object.prototype] finds no
    pending handler of the client and changes nothing. *)
Example inherited_key_reply_is_ignored :
  let w := (run one_shot (created one_shot local_url None)
              [Opened 0 5; Received 0 (Normal (hello_frame "s1" true)) 6 quiet;
               Execute "getPairs" None (Some 7%nat)]).1 in
  _processMessage one_shot (Normal (VObj [("i", VStr "toString"); ("r", VNum 1)])) 8
    quiet w = (w, []) /\
  _processMessage one_shot (Normal (VObj [("i", VStr "__proto__"); ("e", VNum 1)])) 8
    quiet w = (w, []).
Proof. vm_compute. split; reflexivity. Qed.

(** The id of a reply is compared as a property key: the string ["1"]
    resolves the command with id 1. *)
Example string_id_resolves_command :
  let w := (run one_shot (created one_shot local_url None)
              [Opened 0 5; Received 0 (Normal (hello_frame "s1" true)) 6 quiet;
               Execute "getPairs" None (Some 7%nat)]).1 in
  (_processMessage one_shot (Normal (VObj [("i", VStr "1"); ("r", VStr "ok")])) 8
     quiet w).2
    = [Call 7%nat (VStr "ok") VNull].
Proof. vm_compute. reflexivity. Qed.

Section Addressing.

Variable connectable : tstate -> bool.

(** The parameters collected by the loop of [_getUri], key by key. *)
Lemma getUri_lookup (c : Client) (k : string) :
  query_of (_getUri c) !! k =
    if is_null (_sessionId c) then None
    else
      match _queryParams c !! k with
      | Some v =>
          if first_only k && bool_decide (is_Some (_readyTimestamp c))
          then ({[ "sid" := _sessionId c ]} : gmap string value) !! k
          else Some v
      | None => ({[ "sid" := _sessionId c ]} : gmap string value) !! k
      end.
Proof.
  unfold _getUri.
  set (params := if is_null (_sessionId c) then _ else _).
  assert (Hq : query_of (if Nat.eqb (size params) 0 then UriPlain (_uri c)
                         else UriQuery (_uri c) params) = params).
  { destruct (Nat.eqb (size params) 0) eqn:E; [|done].
    apply Nat.eqb_eq, map_size_empty_inv in E. by rewrite E. }
  rewrite Hq. subst params.
  destruct (is_null (_sessionId c)); [by rewrite lookup_empty|].
  revert k.
  apply (map_fold_weak_ind
           (fun (r : gmap string value) (m : gmap string value) =>
              forall k, r !! k =
                match m !! k with
                | Some v =>
                    if first_only k && bool_decide (is_Some (_readyTimestamp c))
                    then ({[ "sid" := _sessionId c ]} : gmap string value) !! k
                    else Some v
                | None => ({[ "sid" := _sessionId c ]} : gmap string value) !! k
                end)).
  - intros k. by rewrite lookup_empty.
  - intros i x m r Hi IH k.
    destruct (decide (k = i)) as [->|Hne].
    + rewrite lookup_insert_eq.
      destruct (first_only i && bool_decide (is_Some (_readyTimestamp c))).
      * rewrite IH, Hi. done.
      * by rewrite lookup_insert_eq.
    + rewrite (lookup_insert_ne m) by done.
      destruct (first_only i && bool_decide (is_Some (_readyTimestamp c)));
        [|rewrite lookup_insert_ne by done]; apply IH.
Qed.

Lemma getUri_ext c c' :
  _uri c' = _uri c -> _queryParams c' = _queryParams c ->
  _sessionId c' = _sessionId c -> _readyTimestamp c' = _readyTimestamp c ->
  _getUri c' = _getUri c.
Proof. unfold _getUri. by intros -> -> -> ->. Qed.

(** Without a session id the URI is the base alone: the query of the
    original URI is not sent at all. *)
Lemma getUri_without_session c :
  is_null (_sessionId c) = true -> _getUri c = UriPlain (_uri c).
Proof. unfold _getUri. by intros ->. Qed.








(** Every URI given to a transport by a call is [_getUri] of the client
    as it was before the call. *)
Lemma perform_uris op w uri :
  uri ∈ uris (perform connectable op w).2 -> uri = _getUri (client w).
Proof.
  destruct op; unfold_ops; unfold prepare; simpl;
    repeat (case_match; simplify_eq/=; rewrite ?uris_WsSend;
            try by rewrite elem_of_nil).
  all: rewrite list_elem_of_singleton; intros ->; by apply getUri_ext.
Qed.

Lemma perform_all_uris ops : forall w uri,
  uri ∈ uris (perform_all connectable ops w).2 -> uri = _getUri (client w).
Proof.
  induction ops as [|op ops IH]; intros w uri; [by rewrite elem_of_nil|].
  rewrite perform_all_cons. cbn [snd]. rewrite uris_app, elem_of_app.
  intros [H|H]; [by apply perform_uris in H|].
  apply IH in H as ->.
  destruct (perform_fields connectable op w) as (E1 & E2 & E3 & E4 & _).
  by apply getUri_ext.
Qed.

(** Every URI given to a transport during a step is [_getUri] of the
    client in the state in which the calls of the step are made. *)
Lemma step_uris w i uri :
  uri ∈ uris (step connectable w i).2 ->
  uri = _getUri (client (call_state connectable w i)).
Proof.
  unfold call_state. destruct i.
  10: { destruct (step_received_cases connectable w c frame now)
          as [H|[(sid & _ & H)|[(sid & isNew & H)|(_ & w' & o & H & Hc)]]];
          destruct (H listeners) as [-> ->]; cbn [default snd].
        - by rewrite elem_of_nil.
        - rewrite (proj1 (processQueue_quiet _)). by rewrite elem_of_nil.
        - destruct (l_throws listeners); cbn [snd uris].
          + apply perform_all_uris.
          + rewrite uris_app, (proj1 (processQueue_quiet _)), app_nil_r.
            apply perform_all_uris.
        - destruct Hc as [(n & d & _ & ->)|[(d & _ & ->)|(key & cb & a & b & _ & _ & ->)]];
            by rewrite elem_of_nil. }
  9: { destruct (step_closed_cases connectable w c code reason) as [H|(t & _ & _ & H)];
         destruct (H listeners) as [-> ->]; cbn [default snd];
         [by rewrite elem_of_nil|].
       cbn zeta.
       set (ws := with_socket c (set_tstate TClosed) w).
       destruct (l_throws listeners); cbn [snd uris]; [apply perform_all_uris|].
       rewrite uris_app, elem_of_app. intros [Hin|Hin]; [by apply perform_all_uris in Hin|].
       revert Hin. unfold _createConnection. cbn [snd uris].
       rewrite list_elem_of_singleton. intros ->.
       destruct (perform_all_fields connectable (l_calls listeners) ws)
         as (E1 & E2 & E3 & E4 & _).
       by apply getUri_ext. }
  all: unfold listeners_start; cbn [default].
  all: unfold_ops; unfold prepare; simpl;
    repeat (case_match; simplify_eq/=; rewrite ?uris_WsSend;
            try by rewrite elem_of_nil).
  all: rewrite list_elem_of_singleton; intros ->; by apply getUri_ext.
Qed.


Lemma new_Client_queryParams u options w0 o0 :
  new_Client connectable u options = Normal (w0, o0) ->
  _queryParams (client w0) = initial_queryParams (default ∅ (query u)) /\
  forall uri, uri ∈ uris o0 -> uri = _getUri (client w0).
Proof.
  intros H. apply new_Client_inv in H as (uri0 & sid & gl & delay & o & [H|H]);
    unfold connect, _createConnection in H; simplify_eq/=.
  all: split; [done|]; intros uri; try by rewrite elem_of_nil.
  rewrite list_elem_of_singleton; intros ->; by apply getUri_ext.
Qed.



End Addressing.



Section LatchedReadiness.

Variable connectable : tstate -> bool.

Lemma send_when_ready_and_open w c l :
  isReady (client w) = true -> _connection (client w) = Some c ->
  isConnected w = true ->
  _send connectable l w = (w, map (WsSend c) l).
Proof.
  intros Hr Hc Ho. apply bool_decide_eq_true_1 in Hr as [ts Ets].
  unfold isConnected in Ho. rewrite Hc in Ho.
  unfold _send. by rewrite Hc, Ho, Ets.
Qed.

(** An open current transport closes unexpectedly: a new transport is
    created, made current and left waiting for its timer. *)
Lemma closed_schedules_reconnection w c t code reason :
  _connection (client w) = Some c -> sockets w !! c = Some t -> t_state t = TOpen ->
  let c' := length (sockets w) in
  let r := step connectable w (Closed c code reason quiet) in
  _connection (client r.1) = Some c' /\
  (exists t', sockets r.1 !! c' = Some t' /\ t_state t' = TNew) /\
  c' ∈ timers r.1 /\
  _readyTimestamp (client r.1) = _readyTimestamp (client w) /\
  _queue (client r.1) = _queue (client w) /\
  sends r.2 = [].
Proof.
  intros Hc Hs Ht c' r. subst r.
  unfold step. simpl. rewrite Hs. unfold transport_event. rewrite Ht.
  unfold on_disconnected, _createConnection, with_socket. simpl. rewrite Hs.
  rewrite length_insert. fold c'.
  split; [done|]. split.
  { eexists. split; [|].
    - rewrite lookup_app_r by (rewrite length_insert; subst c'; lia).
      rewrite length_insert. fold c'. by rewrite Nat.sub_diag.
    - reflexivity. }
  split; [|by repeat split].
  apply elem_of_app. right. by apply list_elem_of_singleton.
Qed.

(** The timer of the current transport elapses: the transport is asked to
    connect. *)
Lemma timer_connects_current w c t :
  connectable TNew = true ->
  _connection (client w) = Some c -> sockets w !! c = Some t -> t_state t = TNew ->
  c ∈ timers w ->
  let r := step connectable w (TimerFired c) in
  _connection (client r.1) = Some c /\
  (exists t', sockets r.1 !! c = Some t' /\ t_state t' = TConnecting) /\
  _readyTimestamp (client r.1) = _readyTimestamp (client w) /\
  _queue (client r.1) = _queue (client w) /\
  sends r.2 = [].
Proof.
  intros Hnew Hc Hs Ht Hin r. subst r.
  unfold step. rewrite bool_decide_eq_true_2 by done.
  unfold timer_body, with_socket. simpl. rewrite Hc, Hs. simpl.
  split; [done|]. split; [|by repeat split].
  eexists. split.
  - apply list_lookup_insert_eq. by eapply lookup_lt_Some.
  - unfold ws_connect. by rewrite Ht, Hnew.
Qed.

(** A connecting transport opens. *)
Lemma opened_is_connected w c t now :
  _connection (client w) = Some c -> sockets w !! c = Some t ->
  t_state t = TConnecting ->
  let r := step connectable w (Opened c now) in
  _connection (client r.1) = Some c /\ isConnected r.1 = true /\
  _readyTimestamp (client r.1) = _readyTimestamp (client w) /\
  _queue (client r.1) = _queue (client w) /\
  sends r.2 = [].
Proof.
  intros Hc Hs Ht r. subst r.
  unfold step. simpl. rewrite Hs. unfold transport_event. rewrite Ht.
  unfold on_connected, with_socket, isConnected. simpl. rewrite Hs, Hc. simpl.
  repeat split.
  rewrite list_lookup_insert_eq by (by eapply lookup_lt_Some). done.
Qed.

(** After an unexpected close, the delayed reconnection and the opening of
    the new transport, a request is transmitted on the new transport though
    no handshake was received on it. *)
Lemma send_before_new_handshake w c t code reason now command params :
  connectable TNew = true ->
  isReady (client w) = true ->
  _connection (client w) = Some c -> sockets w !! c = Some t -> t_state t = TOpen ->
  let c' := length (sockets w) in
  let r := run connectable w
             [Closed c code reason quiet; TimerFired c'; Opened c' now;
              Execute command params None] in
  sends r.2 = [(c', {| msg_m := command; msg_p := params; msg_i := None |})] /\
  _queue (client r.1) = _queue (client w).
Proof.
  intros Hnew Hr Hc Hs Ht c' r.
  destruct (closed_schedules_reconnection w c t code reason Hc Hs Ht)
    as (Hc1 & (t1 & Hs1 & Ht1) & Hin1 & Hr1 & Hq1 & Ho1).
  fold c' in Hc1, Hs1, Hin1.
  set (w1 := (step connectable w (Closed c code reason quiet)).1) in *.
  destruct (timer_connects_current w1 c' t1 Hnew Hc1 Hs1 Ht1 Hin1)
    as (Hc2 & (t2 & Hs2 & Ht2) & Hr2 & Hq2 & Ho2).
  set (w2 := (step connectable w1 (TimerFired c')).1) in *.
  destruct (opened_is_connected w2 c' t2 now Hc2 Hs2 Ht2)
    as (Hc3 & Hi3 & Hr3 & Hq3 & Ho3).
  set (w3 := (step connectable w2 (Opened c' now)).1) in *.
  assert (Hready3 : isReady (client w3) = true).
  { unfold isReady in *. by rewrite Hr3, Hr2, Hr1. }
  assert (E4 : step connectable w3 (Execute command params None)
               = (w3, [WsSend c' {| msg_m := command; msg_p := params; msg_i := None |}])).
  { unfold step, execute, prepare.
    replace (with_client (fun _ => client w3) w3) with w3 by by destruct w3.
    by rewrite (send_when_ready_and_open w3 c' _ Hready3 Hc3 Hi3). }
  subst r. rewrite !run_cons. fold w1. fold w2. fold w3. rewrite E4.
  cbn [fst snd run].
  rewrite !sends_app, Ho1, Ho2, Ho3. simpl.
  split; [done|]. by rewrite Hq3, Hq2, Hq1.
Qed.

(** C10.  Once the ready timestamp is set no operation and no transport
    event clears it, so [isReady] stays true; a request made while the
    current transport is open is then transmitted at once, in particular on
    a transport opened after a reconnection and before any handshake is
    received on it. *)
Theorem readiness_is_latched (w : World) :
  isReady (client w) = true ->
  (forall trace, isReady (client (run connectable w trace).1) = true) /\
  (forall c l, _connection (client w) = Some c -> isConnected w = true ->
     _send connectable l w = (w, map (WsSend c) l)) /\
  (connectable TNew = true ->
   forall c t code reason now command params,
     _connection (client w) = Some c -> sockets w !! c = Some t -> t_state t = TOpen ->
     let c' := length (sockets w) in
     let r := run connectable w
                [Closed c code reason quiet; TimerFired c'; Opened c' now;
                 Execute command params None] in
     sends r.2 = [(c', {| msg_m := command; msg_p := params; msg_i := None |})] /\
     _queue (client r.1) = _queue (client w)).
Proof.
  intros Hr. split; [|split].
  - intros trace. by apply run_keeps_ready.
  - intros c l. by apply send_when_ready_and_open.
  - intros Hnew c t code reason now command params Hc Hs Ht.
    by apply (send_before_new_handshake w c t).
Qed.

End LatchedReadiness.

Lemma readiness_is_latched_witness :
  let w := (run one_shot (created one_shot local_url None)
              [Opened 0 5; Received 0 (Normal (hello_frame "s1" true)) 6 quiet]).1 in
  isReady (client w) = true /\
  isReady (client (run one_shot w [Disconnect; Connect; Reconnect]).1) = true.
Proof.
  intros w.
  assert (Hr : isReady (client w) = true) by (vm_compute; reflexivity).
  split; [done|].
  by apply (readiness_is_latched one_shot w Hr).
Defined.

(** A frame queued while the transport was being replaced is sent by the
    next handshake, after a frame requested later on the open transport. *)
Example queued_while_reconnecting_is_sent_late :
  sends (run one_shot (created one_shot local_url None)
           [Opened 0 5; Received 0 (Normal (hello_frame "s1" true)) 6 quiet;
            abnormal_closure; Execute "a" None None; TimerFired 1; Opened 1 7;
            Execute "b" None None; Received 1 (Normal (hello_frame "s1" false)) 8 quiet]).2
    = [(1%nat, {| msg_m := "b"; msg_p := None; msg_i := None |});
       (1%nat, {| msg_m := "a"; msg_p := None; msg_i := None |})].
Proof. vm_compute. reflexivity. Qed.

Section Supervision.

Variable connectable : tstate -> bool.

Lemma with_socket_lookup c f w k :
  sockets (with_socket c f w) !! k =
    if decide (k = c) then f <$> sockets w !! c else sockets w !! k.
Proof.
  unfold with_socket. simpl.
  destruct (sockets w !! c) as [t|] eqn:E.
  - destruct (decide (k = c)) as [->|Hne].
    + rewrite list_lookup_insert_eq by (by eapply lookup_lt_Some). done.
    + by rewrite list_lookup_insert_ne.
  - destruct (decide (k = c)) as [->|Hne]; [by rewrite E|done].
Qed.

(** Handling of a failed attempt, for a connecting transport. *)
Lemma failed_attempt_observed w c t error retryable :
  sockets w !! c = Some t -> t_state t = TConnecting ->
  let retry := retry_possible (t_options t) retryable (t_attempts t) in
  let r := step connectable w (Failed c error retryable) in
  r.2 = [Emit (if retry
               then connectionError (t_counter t) (t_attempts t + 1) error
               else terminated (t_counter t) (t_attempts t + 1) error)] /\
  client r.1 = client w /\ timers r.1 = timers w /\
  sockets r.1 = <[c := set_attempts (t_attempts t + 1)
                         (set_tstate (if retry then TBackoff else TTerminated) t)]>
                  (sockets w).
Proof.
  intros Hs Ht retry r. subst r.
  unfold step. simpl. rewrite Hs. unfold transport_event. rewrite Ht.
  unfold on_connectionError, with_socket. fold retry. rewrite Hs.
  by destruct retry.
Qed.

(** A quiescent client keeps its transports, timers and current transport,
    and neither creates nor connects a transport, whatever happens short
    of [reconnect()] or [disconnect()]. *)
Lemma quiescent_step w i :
  quiescent w -> not_rearming i = true ->
  let r := step connectable w i in
  sockets r.1 = sockets w /\ timers r.1 = timers w /\
  _connection (client r.1) = _connection (client w) /\
  attempts_made r.2 = [].
Proof.
  intros (Hc & Ht & Hs) Hi r. subst r.
  assert (Hdead : forall c t, sockets w !! c = Some t -> live (t_state t) = false).
  { intros c t Hl. by apply (Forall_lookup_1 _ _ _ _ Hs Hl). }
  destruct Hc as [cur Hc].
  destruct i; try discriminate Hi.
  - (* Connect *) unfold step, connect. by rewrite Hc.
  - (* Execute *)
    unfold step, execute, prepare, _send, _queueMessages. simpl.
    destruct cb; simpl; rewrite Hc;
      repeat (case_match; simplify_eq/=; rewrite ?attempts_made_WsSend); done.
  - (* TimerFired *) unfold step. rewrite Ht.
    by rewrite bool_decide_eq_false_2 by apply not_elem_of_nil.
  - (* Opened *)
    unfold step. simpl. destruct (sockets w !! c) as [t|] eqn:El; [|done].
    pose proof (Hdead c t El). unfold transport_event. by destruct (t_state t).
  - (* Failed *)
    unfold step. simpl. destruct (sockets w !! c) as [t|] eqn:El; [|done].
    pose proof (Hdead c t El). unfold transport_event. by destruct (t_state t).
  - (* RetryElapsed *)
    unfold step. simpl. destruct (sockets w !! c) as [t|] eqn:El; [|done].
    pose proof (Hdead c t El). unfold transport_event. by destruct (t_state t).
  - (* Closed *)
    unfold step. simpl. destruct (sockets w !! c) as [t|] eqn:El; [|done].
    pose proof (Hdead c t El). unfold transport_event. by destruct (t_state t).
  - (* Received *)
    unfold step. simpl. destruct (sockets w !! c) as [t|] eqn:El; [|done].
    pose proof (Hdead c t El). unfold transport_event. by destruct (t_state t).
Qed.

Lemma quiescent_run trace : forall w,
  quiescent w -> forallb not_rearming trace = true ->
  let r := run connectable w trace in
  quiescent r.1 /\ sockets r.1 = sockets w /\ attempts_made r.2 = [].
Proof.
  induction trace as [|i trace IH]; intros w Hq Hall; [done|].
  simpl in Hall. apply andb_prop in Hall as [Hi Hall].
  rewrite run_cons. cbn [fst snd].
  destruct (quiescent_step w i Hq Hi) as (Hs1 & Ht1 & Hc1 & Ha1).
  assert (Hq1 : quiescent (step connectable w i).1).
  { destruct Hq as (Hc & Ht & Hs). unfold quiescent. by rewrite Hs1, Ht1, Hc1. }
  destruct (IH _ Hq1 Hall) as (Hq2 & Hs2 & Ha2).
  split; [done|]. split; [congruence|].
  by rewrite attempts_made_app, Ha1, Ha2.
Qed.

End Supervision.

Section RetryScenario.

Variable connectable : tstate -> bool.

(** With [retryCount = 2] three failures in a row are reported as two
    [connectionError] and one [terminated]. *)
Lemma three_failures_terminate e1 e2 e3 :
  connectable TNew = true ->
  let w0 := created connectable local_url (Some retry_twice) in
  let r := run connectable w0
             [Failed 0 e1 true; RetryElapsed 0; Failed 0 e2 true; RetryElapsed 0;
              Failed 0 e3 true] in
  r.2 = [Emit (connectionError 1 1 e1); Emit (connectionError 1 2 e2);
         Emit (terminated 1 3 e3)] /\
  quiescent r.1.
Proof.
  intros Hnew w0 r. subst r w0.
  unfold created, new_Client, connect, _createConnection, ws_connect. simpl.
  rewrite Hnew. simpl.
  split; [done|].
  split; [by eauto|]. split; [done|].
  by repeat constructor.
Qed.

End RetryScenario.

Section ConnectionErrors.

Variable connectable : tstate -> bool.

Lemma reconnect_attempts w c :
  _connection (client w) = Some c ->
  attempts_made (step connectable w Reconnect).2
    = [length (sockets w); length (sockets w)].
Proof.
  intros Hc. unfold step, reconnect, _createConnection. rewrite Hc. simpl.
  unfold with_socket. simpl.
  destruct (sockets w !! c); simpl; by rewrite ?length_insert.
Qed.

(** C8.  When a connecting transport reports a failure, the client emits
    exactly one event carrying the id of the connection, the number of
    attempts and the error: [connectionError] when a retry is possible (the
    error is retryable and the attempts made so far are below the retry
    count, or the count is unbounded), and the transport then waits and
    starts its next attempt; [terminated] otherwise, after which, nothing
    else running or scheduled, no transport is created or connected until
    [reconnect()] is called, which creates and connects one.  With
    [retryCount = 2] three failures in a row give [connectionError] with 1
    and 2 attempts, then [terminated] with 3. *)
Theorem connection_error_observables (w : World) (c : nat) (t : Transport)
    (error : value) (retryable : bool) :
  sockets w !! c = Some t -> t_state t = TConnecting ->
  let retry := retry_possible (t_options t) retryable (t_attempts t) in
  let r := step connectable w (Failed c error retryable) in
  (if retry
   then r.2 = [Emit (connectionError (t_counter t) (t_attempts t + 1) error)] /\
        t_state <$> sockets r.1 !! c = Some TBackoff /\
        t_state <$> sockets (step connectable r.1 (RetryElapsed c)).1 !! c
          = Some TConnecting
   else r.2 = [Emit (terminated (t_counter t) (t_attempts t + 1) error)] /\
        t_state <$> sockets r.1 !! c = Some TTerminated /\
        (is_Some (_connection (client w)) -> timers w = [] ->
         (forall k t', sockets w !! k = Some t' -> k <> c -> live (t_state t') = false) ->
         forall trace, forallb not_rearming trace = true ->
           attempts_made (run connectable r.1 trace).2 = [] /\
           attempts_made (step connectable (run connectable r.1 trace).1 Reconnect).2
             = [length (sockets w); length (sockets w)])) /\
  (connectable TNew = true ->
   forall e1 e2 e3,
     events (run connectable (created connectable local_url (Some retry_twice))
               [Failed 0 e1 true; RetryElapsed 0; Failed 0 e2 true; RetryElapsed 0;
                Failed 0 e3 true]).2
       = [connectionError 1 1 e1; connectionError 1 2 e2; terminated 1 3 e3]).
Proof.
  intros Hs Ht retry r.
  destruct (failed_attempt_observed connectable w c t error retryable Hs Ht)
    as (Ho & Hcl & Htm & Hso).
  fold retry in Ho, Hso. fold r in Ho, Hcl, Htm, Hso.
  assert (Hlt : (c < length (sockets w))%nat) by (by eapply lookup_lt_Some).
  split.
  - destruct retry eqn:Er.
    + split; [done|]. split.
      * rewrite Hso, list_lookup_insert_eq by done. done.
      * unfold step. simpl. rewrite Hso.
        rewrite list_lookup_insert_eq by done.
        unfold transport_event. simpl.
        rewrite Hso, list_lookup_insert_eq by done.
        rewrite list_lookup_insert_eq by (by rewrite length_insert). done.
    + split; [done|]. split.
      * rewrite Hso, list_lookup_insert_eq by done. done.
      * intros Hc Htimers Hothers trace Hall.
        assert (Hq : quiescent r.1).
        { split; [by rewrite Hcl|]. split; [by rewrite Htm|].
          rewrite Hso. apply Forall_lookup_2. intros k t' Hl.
          destruct (decide (k = c)) as [->|Hne].
          - rewrite list_lookup_insert_eq in Hl by done. by simplify_eq.
          - rewrite list_lookup_insert_ne in Hl by done. by eapply Hothers. }
        destruct (quiescent_run connectable trace r.1 Hq Hall)
          as (((cur & Hcur) & _) & Hsame & Ha).
        split; [done|].
        rewrite (reconnect_attempts _ cur Hcur), Hsame, Hso, length_insert. done.
  - intros Hnew e1 e2 e3.
    destruct (three_failures_terminate connectable e1 e2 e3 Hnew) as [-> _]. done.
Qed.

End ConnectionErrors.

Lemma connection_error_observables_witness :
  let w := created one_shot local_url (Some retry_twice) in
  (exists t, sockets w !! 0%nat = Some t /\ t_state t = TConnecting) /\
  (step one_shot w (Failed 0 (VStr "ECONNREFUSED") true)).2
    = [Emit (connectionError 1 1 (VStr "ECONNREFUSED"))].
Proof.
  intros w. split; [eexists; split; reflexivity|].
  destruct (connection_error_observables one_shot w 0
              {| t_counter := 1; t_uri := UriPlain "ws://127.0.0.1:8001/";
                 t_options := {| apiKey := None; retryCount := Some 2;
                                 retryDelay := Some 1000; pingTimeout := None |};
                 t_state := TConnecting; t_attempts := 0 |}
              (VStr "ECONNREFUSED") true) as [H _];
    [reflexivity | reflexivity |].
  simpl in H. by destruct H as [H _].
Defined.

Section SingleTransport.

Variable connectable : tstate -> bool.

(** The transport honours [connect()] in its initial state only. *)
Hypothesis connect_once : forall s, connectable s = true -> s = TNew.

Lemma createConnection_others_closed delay w :
  all_closed w -> others_closed (_createConnection connectable delay w).1.
Proof.
  intros Hall c t. unfold _createConnection.
  destruct delay; simpl; intros Hl Hne.
  - destruct (decide (c < length (sockets w))%nat).
    + rewrite lookup_app_l in Hl by done. by eapply Hall.
    + rewrite lookup_app_r in Hl by lia.
      destruct (c - length (sockets w))%nat eqn:E; [|done].
      exfalso. apply Hne. f_equal. lia.
  - destruct (decide (c < length (sockets w))%nat).
    + rewrite lookup_app_l in Hl by done. by eapply Hall.
    + rewrite lookup_app_r in Hl by lia.
      destruct (c - length (sockets w))%nat eqn:E; [|done].
      exfalso. apply Hne. f_equal. lia.
Qed.

Lemma others_closed_current w c t :
  others_closed w -> sockets w !! c = Some t -> t_state t <> TClosed ->
  _connection (client w) = Some c.
Proof.
  intros Ho Hl Hn. destruct (decide (_connection (client w) = Some c)); [done|].
  exfalso. apply Hn. by eapply Ho.
Qed.

(** Changing the state of the current transport keeps the others closed. *)
Lemma with_socket_current f w c :
  others_closed w -> _connection (client w) = Some c ->
  others_closed (with_socket c f w).
Proof.
  intros Ho Hc k t. rewrite with_socket_lookup.
  destruct (decide (k = c)) as [->|Hne]; [by intros _ []|].
  intros Hl Hk. by eapply Ho.
Qed.

(** Closing the current transport leaves every transport closed. *)
Lemma close_current_all_closed (f : Client -> Client) w c :
  others_closed w -> _connection (client w) = Some c ->
  all_closed (with_socket c (set_tstate TClosed) (with_client f w)).
Proof.
  intros Ho Hc k t. rewrite with_socket_lookup. simpl.
  destruct (decide (k = c)) as [->|Hne].
  - destruct (sockets w !! c); intros; by simplify_eq/=.
  - intros Hl. eapply Ho; [done|]. rewrite Hc. congruence.
Qed.

Lemma with_client_others_closed (f : Client -> Client) w :
  _connection (f (client w)) = _connection (client w) ->
  others_closed w -> others_closed (with_client f w).
Proof. intros Hf Ho k t. simpl. rewrite Hf. apply Ho. Qed.

(** The calls of the caller, and of listeners, keep every transport other
    than the current one closed. *)
Lemma perform_others_closed op w :
  others_closed w -> others_closed (perform connectable op w).1.
Proof.
  intros Ho. destruct op.
  - (* connect *)
    unfold perform, connect.
    destruct (_connection (client w)) as [c|] eqn:Hc; [done|].
    apply createConnection_others_closed. intros k t Hl. eapply Ho; [done|].
    by rewrite Hc.
  - (* reconnect *)
    unfold perform, reconnect.
    destruct (_connection (client w)) as [c|] eqn:Hc; [|done].
    pose proof (close_current_all_closed (fun x => x) w c Ho Hc) as Hall.
    replace (with_client (fun x => x) w) with w in Hall by by destruct w.
    pose proof (createConnection_others_closed None _ Hall) as H.
    unfold ws_disconnect. by destruct (_createConnection _ _ _).
  - (* disconnect *)
    unfold perform, disconnect.
    destruct (_connection (client w)) as [c|] eqn:Hc; [|done].
    simpl. intros k t Hl _.
    by eapply (close_current_all_closed (set_connection None) w c Ho Hc).
  - (* execute *)
    unfold perform, execute.
    destruct (prepare command params cb (client w)) as [message cl] eqn:Ep.
    assert (Hcl : _connection cl = _connection (client w)).
    { unfold prepare in Ep. by destruct cb; simplify_eq/=. }
    assert (Ho' : forall q, others_closed (with_client (fun _ => set_queue q cl) w)).
    { intros q k t. simpl. rewrite Hcl. apply Ho. }
    unfold _send. cbn [client with_client sockets]. rewrite Hcl.
    destruct (_connection (client w)) as [c|] eqn:Hc.
    + repeat case_match; cbn [fst]; unfold _queueMessages; cbn [client with_client];
        try apply Ho'.
      intros k t. simpl. rewrite Hcl. intros Hl Hne. eapply Ho; [done|].
      by rewrite Hc.
    + apply createConnection_others_closed. intros k t Hl. simpl in Hl.
      eapply Ho; [done|]. by rewrite Hc.
Qed.

(** Requests made while the client holds a transport create none and
    keep the transport. *)
Lemma perform_all_requests ops : forall w,
  forallb (fun op => match op with OpExecute _ _ _ => true | _ => false end) ops = true ->
  is_Some (_connection (client w)) ->
  sockets (perform_all connectable ops w).1 = sockets w /\
  _connection (client (perform_all connectable ops w).1) = _connection (client w).
Proof.
  induction ops as [|op ops IH]; intros w Hall Hc; [done|].
  cbn [forallb] in Hall. apply andb_prop in Hall as [Hop Hall].
  rewrite perform_all_cons. cbn [fst].
  assert (H1 : sockets (perform connectable op w).1 = sockets w /\
               _connection (client (perform connectable op w).1)
                 = _connection (client w)).
  { destruct op; try discriminate Hop. destruct Hc as [c Hc].
    unfold perform, execute, prepare, _send, _queueMessages.
    destruct cb; cbn; rewrite Hc; by repeat case_match. }
  destruct H1 as [E1 E2].
  destruct (IH (perform connectable op w).1 Hall) as [E3 E4]; [by rewrite E2|].
  split; congruence.
Qed.

Lemma all_closed_others_closed w : all_closed w -> others_closed w.
Proof. intros H c t Hl _. by eapply H. Qed.

Lemma step_others_closed w i :
  calm i = true -> others_closed w -> others_closed (step connectable w i).1.
Proof.
  intros Hcalm Ho. destruct i.
  - by apply (perform_others_closed OpConnect).
  - by apply (perform_others_closed OpReconnect).
  - by apply (perform_others_closed OpDisconnect).
  - by apply (perform_others_closed (OpExecute command params cb)).
  - (* TimerFired *)
    unfold step. case_bool_decide; [|done].
    unfold timer_body. cbn [client].
    destruct (_connection (client w)) as [cur|] eqn:Hc.
    + intros k t. cbn [fst]. rewrite with_socket_lookup. cbn [client sockets with_socket].
      rewrite Hc.
      destruct (decide (k = c)) as [->|Hne].
      * destruct (sockets w !! c) as [tc|] eqn:El; [|done].
        simpl. intros ? Hne. simplify_eq.
        assert (Htc : t_state tc = TClosed) by (eapply Ho; [done|by rewrite Hc]).
        unfold ws_connect. rewrite Htc.
        destruct (connectable TClosed) eqn:E; [|done].
        by apply connect_once in E.
      * intros Hl Hk. eapply Ho; [done|]. by rewrite Hc.
    + intros k t. simpl. rewrite Hc. intros Hl _. eapply Ho; [done|]. by rewrite Hc.
  - (* Opened *)
    unfold step. simpl. destruct (sockets w !! c) as [t|] eqn:El; [|done].
    unfold transport_event. destruct (t_state t) eqn:Et; try done.
    assert (Hc : _connection (client w) = Some c).
    { apply (others_closed_current w c t Ho El). by rewrite Et. }
    unfold on_connected. cbn [fst].
    apply with_client_others_closed; [done|]. by apply with_socket_current.
  - (* Failed *)
    unfold step. simpl. destruct (sockets w !! c) as [t|] eqn:El; [|done].
    unfold transport_event. destruct (t_state t) eqn:Et; try done.
    assert (Hc : _connection (client w) = Some c).
    { apply (others_closed_current w c t Ho El). by rewrite Et. }
    unfold on_connectionError.
    case_match; cbn [fst]; by apply with_socket_current.
  - (* RetryElapsed *)
    unfold step. simpl. destruct (sockets w !! c) as [t|] eqn:El; [|done].
    unfold transport_event. destruct (t_state t) eqn:Et; try done.
    assert (Hc : _connection (client w) = Some c).
    { apply (others_closed_current w c t Ho El). by rewrite Et. }
    cbn [fst]. by apply with_socket_current.
  - (* Closed *)
    destruct (step_closed_cases connectable w c code reason) as [H|(t & El & Et & H)];
      destruct (H listeners) as [-> _]; [done|].
    assert (Hc : _connection (client w) = Some c).
    { apply (others_closed_current w c t Ho El). by rewrite Et. }
    pose proof (close_current_all_closed (fun x => x) w c Ho Hc) as Hall.
    replace (with_client (fun x => x) w) with w in Hall by by destruct w.
    cbn zeta.
    destruct (perform_all_requests (l_calls listeners)
                (with_socket c (set_tstate TClosed) w) Hcalm) as [Es Ec];
      [by exists c|].
    assert (Ha : all_closed (perform_all connectable (l_calls listeners)
                               (with_socket c (set_tstate TClosed) w)).1).
    { intros k t'. rewrite Es. apply Hall. }
    destruct (l_throws listeners); cbn [fst].
    + by apply all_closed_others_closed.
    + by apply createConnection_others_closed.
  - (* Received *)
    destruct (step_received connectable w c frame now listeners) as [->| ->]; [done|].
    apply (processMessage_preserves connectable others_closed); try done.
    intros op w'. apply perform_others_closed.
Qed.

Lemma run_others_closed trace : forall w,
  forallb calm trace = true ->
  others_closed w -> others_closed (run connectable w trace).1.
Proof.
  induction trace as [|i trace IH]; intros w Hcalm Ho; [done|].
  cbn [forallb] in Hcalm. apply andb_prop in Hcalm as [Hi Hcalm].
  rewrite run_cons. cbn [fst]. apply IH; [done|]. by apply step_others_closed.
Qed.

Lemma new_Client_others_closed u options w0 o0 :
  new_Client connectable u options = Normal (w0, o0) -> others_closed w0.
Proof.
  intros H. apply new_Client_inv in H as (uri & sid & gl & delay & o & [H|H]).
  - simplify_eq. intros c t Hl. simpl in Hl. by rewrite lookup_nil in Hl.
  - unfold connect in H. cbn [blank client _connection] in H.
    replace w0 with (w0, o0).1 by done. rewrite H.
    apply createConnection_others_closed. intros c t Hl.
    simpl in Hl. by rewrite lookup_nil in Hl.
Qed.

(** A timer that elapses for a transport the client no longer holds asks
    a closed transport to connect, which starts nothing. *)
Lemma stale_timer_starts_nothing w c :
  others_closed w -> _connection (client w) <> Some c ->
  sockets (step connectable w (TimerFired c)).1 = sockets w /\
  _connection (client (step connectable w (TimerFired c)).1) = _connection (client w).
Proof.
  intros Ho Hne. unfold step. case_bool_decide; [|done].
  unfold timer_body. cbn [client].
  destruct (_connection (client w)) as [cur|] eqn:Hc; [|done].
  cbn [fst]. split; [|done]. unfold with_socket. cbn [sockets].
  destruct (sockets w !! c) as [t|] eqn:El; [|done].
  assert (Ht : t_state t = TClosed) by (eapply Ho; [done|by rewrite Hc]).
  unfold ws_connect. rewrite Ht.
  destruct (connectable TClosed) eqn:E; [by apply connect_once in E|].
  by apply list_insert_id.
Qed.

End SingleTransport.

Section NewestTransport.

Variable connectable : tstate -> bool.

Lemma with_socket_length c f w : length (sockets (with_socket c f w)) = length (sockets w).
Proof.
  unfold with_socket. simpl. destruct (sockets w !! c); [|done]. apply length_insert.
Qed.

Lemma perform_newest op w :
  newest_current w ->
  newest_current (perform connectable op w).1 /\
  (length (sockets w) <= length (sockets (perform connectable op w).1))%nat.
Proof.
  unfold newest_current. intros H.
  destruct op; unfold_ops; unfold prepare; simpl;
    repeat (case_match; simplify_eq/=;
            rewrite ?length_app, ?length_insert, ?with_socket_length; simpl;
            try (split; [intros; simplify_eq; try lia; eauto|lia])).
Qed.

Lemma step_newest w i :
  newest_current w ->
  newest_current (step connectable w i).1 /\
  (length (sockets w) <= length (sockets (step connectable w i).1))%nat.
Proof.
  intros H. destruct i.
  1: by apply (perform_newest OpConnect w).
  1: by apply (perform_newest OpReconnect w).
  1: by apply (perform_newest OpDisconnect w).
  1: by apply (perform_newest (OpExecute command params cb) w).
  5: { apply (step_closed_preserves connectable
                (fun w' => newest_current w' /\
                           (length (sockets w) <= length (sockets w'))%nat));
         [| | |done].
       - intros w' c' [H1 H2]. unfold newest_current.
         rewrite with_socket_length. by split.
       - intros op w' [H1 H2]. destruct (perform_newest op w' H1). split; [done|lia].
       - intros d w' [H1 H2]. unfold newest_current, _createConnection. cbn.
         rewrite length_app. cbn. split; [intros ? [= <-]; lia|lia]. }
  5: { destruct (step_received connectable w c frame now listeners) as [->| ->];
         [done|].
       apply (processMessage_preserves connectable
                (fun w' => newest_current w' /\
                           (length (sockets w) <= length (sockets w'))%nat));
         try done.
       intros op w' [H1 H2]. destruct (perform_newest op w' H1). split; [done|lia]. }
  all: revert H; unfold newest_current; unfold_ops; simpl;
    try (intros Hnew; split; [intros; simplify_eq; try lia; eauto|lia]);
    repeat (case_match; simplify_eq/=;
            rewrite ?length_app, ?length_insert, ?with_socket_length; simpl;
            try (intros Hnew; split; [intros; simplify_eq; try lia; eauto|lia])).
Qed.

Lemma new_Client_newest u options w0 o0 :
  new_Client connectable u options = Normal (w0, o0) -> newest_current w0.
Proof.
  intros H. apply new_Client_inv in H as (uri & sid & gl & delay & o & [H|H]);
    unfold connect, _createConnection in H; simplify_eq/=.
  - by intros c.
  - intros c [= <-]. done.
Qed.

End NewestTransport.

Section OneConnection.

Lemma one_shot_once s : one_shot s = true -> s = TNew.
Proof. intros Hs. by apply bool_decide_eq_true in Hs. Qed.

(** With the transport of the contract, as long as the listeners of
    [disconnected] call nothing but request methods, every transport
    other than the one the client holds is closed in every state that a
    constructed client reaches, so that at most one transport connection
    is open.  A step that creates a transport leaves every transport
    created before it closed.  A timer that elapses for a transport the
    client no longer holds, as after [disconnect()] and [connect()], asks
    that transport to connect but starts nothing. *)
Lemma single_connection_while_listeners_calm (u : ParsedUrl) (options : option Options)
    (w0 : World) (o0 : list Obs) (trace : list Input) :
  new_Client one_shot u options = Normal (w0, o0) ->
  forallb calm trace = true ->
  let w := (run one_shot w0 trace).1 in
  (forall c t, sockets w !! c = Some t -> t_state t <> TClosed ->
     _connection (client w) = Some c) /\
  (forall c1 c2 t1 t2,
     sockets w !! c1 = Some t1 -> t_state t1 = TOpen ->
     sockets w !! c2 = Some t2 -> t_state t2 = TOpen -> c1 = c2) /\
  (forall i c t,
     calm i = true ->
     (length (sockets w) < length (sockets (step one_shot w i).1))%nat ->
     (c < length (sockets w))%nat ->
     sockets (step one_shot w i).1 !! c = Some t -> t_state t = TClosed) /\
  (forall c, _connection (client w) <> Some c ->
     sockets (step one_shot w (TimerFired c)).1 = sockets w /\
     _connection (client (step one_shot w (TimerFired c)).1) = _connection (client w)).
Proof.
  intros Hnew Hcalm w.
  assert (Ho : others_closed w).
  { apply (run_others_closed one_shot one_shot_once); [done|].
    by eapply (new_Client_others_closed one_shot). }
  assert (Hn : newest_current w).
  { apply (run_preserves one_shot newest_current).
    - intros w' i H. by apply step_newest.
    - by eapply new_Client_newest. }
  split; [|split; [|split]].
  - intros c t. by apply others_closed_current.
  - intros c1 c2 t1 t2 H1 S1 H2 S2.
    assert (E1 : _connection (client w) = Some c1).
    { apply (others_closed_current w c1 t1 Ho H1). by rewrite S1. }
    assert (E2 : _connection (client w) = Some c2).
    { apply (others_closed_current w c2 t2 Ho H2). by rewrite S2. }
    congruence.
  - intros i c t Hi Hgrow Hc Hl.
    pose proof (step_others_closed one_shot one_shot_once w i Hi Ho) as Ho'.
    destruct (step_newest one_shot w i Hn) as [Hn' _].
    apply (Ho' c t Hl). intros Hcur. apply Hn' in Hcur. lia.
  - intros c. by apply (stale_timer_starts_nothing one_shot one_shot_once).
Qed.

End OneConnection.

(** The retry of transport 1 is scheduled, the caller disconnects and
    connects, the timer elapses: transport 1 is asked to connect and stays
    closed; transport 2 alone opens. *)
Example stale_timer_after_disconnect_and_connect :
  let r := run one_shot (created one_shot local_url None)
             [Opened 0 5; abnormal_closure; Disconnect; Connect; TimerFired 1;
              Opened 2 6; Opened 1 7] in
  r.2 = [Emit (connected 1); Emit (disconnected 1 (VNum 1006) (VStr ""));
         WsNew 1 (UriPlain "ws://127.0.0.1:8001/"); SetTimeout 1 10000;
         WsDisconnect 1;
         WsNew 2 (UriPlain "ws://127.0.0.1:8001/"); WsConnect 2;
         WsConnect 1;
         Emit (connected 3)] /\
  map t_state (sockets r.1) = [TClosed; TClosed; TOpen] /\
  running r.1 = [2%nat].
Proof. vm_compute. done. Qed.

(** C1.  That at most one transport connection is open at a time does not
    hold on this run.  The caller has registered a listener of
    [disconnected] that calls [reconnect()].  The open transport reports a
    close: the listener's [reconnect()] creates transport 1 and asks it to
    connect, then the handler, which goes on after the event is emitted,
    creates transport 2, makes it the current one and sets its timer,
    transport 1 being left as it is.  Transport 1 opens, the timer makes
    transport 2 connect and it opens too: two transports are open and
    [connected] has been emitted for both. *)
Theorem disconnected_listener_opens_second_transport :
  let r := run one_shot (created one_shot local_url None)
             [Opened 0 5;
              Closed 0 (VNum 1006) (VStr "")
                {| l_calls := [OpReconnect]; l_throws := false |};
              Opened 1 6; TimerFired 2; Opened 2 7] in
  r.2 = [Emit (connected 1); Emit (disconnected 1 (VNum 1006) (VStr ""));
         WsDisconnect 0;
         WsNew 1 (UriPlain "ws://127.0.0.1:8001/"); WsConnect 1;
         WsNew 2 (UriPlain "ws://127.0.0.1:8001/"); SetTimeout 2 10000;
         Emit (connected 2); WsConnect 2; Emit (connected 3)] /\
  map t_state (sockets r.1) = [TClosed; TOpen; TOpen] /\
  running r.1 = [1%nat; 2%nat] /\
  _connection (client r.1) = Some 2%nat.
Proof. vm_compute. done. Qed.

(** A listener of [disconnected] that calls [disconnect()] does not stop
    the client: the handler creates the next transport all the same. *)
Example disconnect_in_listener_is_overridden :
  let r := run one_shot (created one_shot local_url None)
             [Opened 0 5;
              Closed 0 (VNum 1006) (VStr "")
                {| l_calls := [OpDisconnect]; l_throws := false |};
              TimerFired 1] in
  _connection (client r.1) = Some 1%nat /\
  map t_state (sockets r.1) = [TClosed; TConnecting].
Proof. vm_compute. done. Qed.

(** * Further properties

    The constructor, the addresses, the life cycle of transports, the
    conservation of frames and handlers, inbound dispatch and the request
    methods. *)

Section Conservation.

Variable connectable : tstate -> bool.

(** A call sends or queues the frame it is given, and nothing else. *)
Lemma perform_conserves op w :
  (sends (perform connectable op w).2).*2 ++ _queue (client (perform connectable op w).1)
    ≡ₚ _queue (client w) ++ op_requests connectable [op] w.
Proof.
  cbn [op_requests]. rewrite app_nil_r.
  destruct op; unfold_ops; simpl;
    repeat (case_match; simplify_eq/=; rewrite ?app_nil_r; try done).
  all: by rewrite Permutation_cons_append.
Qed.

Lemma perform_all_conserves ops : forall w,
  (sends (perform_all connectable ops w).2).*2
    ++ _queue (client (perform_all connectable ops w).1)
    ≡ₚ _queue (client w) ++ op_requests connectable ops w.
Proof.
  induction ops as [|op ops IH]; intros w.
  - simpl. by rewrite app_nil_r.
  - rewrite perform_all_cons. cbn [fst snd].
    rewrite sends_app, fmap_app, <- app_assoc, IH.
    rewrite app_assoc, perform_conserves.
    cbn [op_requests]. by rewrite app_nil_r, <- app_assoc.
Qed.

Lemma step_conserves w i :
  (sends (step connectable w i).2).*2 ++ _queue (client (step connectable w i).1)
    ≡ₚ _queue (client w) ++ requests connectable w [i].
Proof.
  cbn [requests]. rewrite app_nil_r. unfold call_state, executes.
  destruct i.
  10: { destruct (step_received_cases connectable w c frame now)
          as [H|[(sid & _ & H)|[(sid & isNew & H)|(_ & w' & o & H & Hc)]]];
          destruct (H listeners) as [-> ->]; cbn [default op_requests fst snd].
        - by rewrite app_nil_r.
        - by rewrite processQueue_conserves, app_nil_r.
        - pose proof (perform_all_conserves (l_calls listeners)
                        (with_client (set_readyTimestamp (Some now))
                           (with_client (set_sessionId sid) w))) as Hp.
          destruct (l_throws listeners); cbn [fst snd sends]; [exact Hp|].
          by rewrite sends_app, fmap_app, <- app_assoc, processQueue_conserves.
        - destruct Hc as [(n & d & -> & ->)|[(d & -> & ->)|(key & cb & a & b & _ & -> & ->)]];
            by rewrite app_nil_r. }
  9: { destruct (step_closed_cases connectable w c code reason) as [H|(t & _ & _ & H)];
         destruct (H listeners) as [-> ->]; cbn [default op_requests fst snd];
         [by rewrite app_nil_r|].
       cbn zeta.
       pose proof (perform_all_conserves (l_calls listeners)
                     (with_socket c (set_tstate TClosed) w)) as Hp.
       destruct (l_throws listeners); cbn [fst snd sends]; [exact Hp|].
       destruct (createConnection_fields connectable
                   (Some (_retryDelay (client (perform_all connectable (l_calls listeners)
                      (with_socket c (set_tstate TClosed) w)).1)))
                   (perform_all connectable (l_calls listeners)
                      (with_socket c (set_tstate TClosed) w)).1)
         as (_ & _ & _ & _ & _ & _ & -> & _).
       rewrite sends_app.
       assert (Hn : forall d w1, sends (_createConnection connectable (Some d) w1).2 = [])
         by done.
       by rewrite Hn, app_nil_r. }
  all: unfold listeners_start; cbn [default].
  1: by rewrite (perform_conserves OpConnect w).
  1: by rewrite (perform_conserves OpReconnect w).
  1: by rewrite (perform_conserves OpDisconnect w).
  1: by rewrite (perform_conserves (OpExecute command params cb) w).
  all: cbn [op_requests]; rewrite app_nil_r.
  all: unfold_ops; simpl;
    repeat (case_match; simplify_eq/=; rewrite ?app_nil_r; try done).
Qed.

(** A call never leaves the client connected to another transport than
    before: a transport it creates is not open. *)
Lemma perform_not_opening op w :
  isConnected (perform connectable op w).1 = true ->
  _connection (client (perform connectable op w).1) = _connection (client w) /\
  isConnected w = true.
Proof.
  assert (Hnew : forall delay w', isConnected (_createConnection connectable delay w').1 = false).
  { intros delay w'. unfold _createConnection, isConnected.
    destruct delay; cbn [fst client sockets set_connection _connection];
      rewrite lookup_app_r, Nat.sub_diag by lia; cbn; unfold ws_connect; cbn;
      try done.
    by destruct (connectable TNew). }
  destruct op; unfold perform.
  - unfold connect. destruct (_connection (client w)) eqn:E; [done|].
    by rewrite Hnew.
  - unfold reconnect. destruct (_connection (client w)) eqn:E.
    + pose proof (Hnew None (with_socket n ws_disconnect w)) as H.
      destruct (_createConnection _ _ _). cbn [fst] in *. by rewrite H.
    + by intros H.
  - unfold disconnect. destruct (_connection (client w)) eqn:E; [|by intros H].
    unfold isConnected. cbn. discriminate.
  - unfold execute.
    destruct (prepare command params cb (client w)) as [message cl] eqn:Ep.
    assert (Hc : _connection cl = _connection (client w)).
    { unfold prepare in Ep. destruct cb; by simplify_eq/=. }
    unfold _send. cbn [with_client client sockets]. rewrite Hc.
    destruct (_connection (client w)) as [c0|] eqn:E.
    + assert (Hw : isConnected w = from_option ws_isConnected false (sockets w !! c0)).
      { unfold isConnected. by rewrite E. }
      rewrite Hw.
      destruct (from_option ws_isConnected false (sockets w !! c0)) eqn:Eo; cbn [negb].
      * destruct (_readyTimestamp cl); cbn; by rewrite Hc.
      * unfold isConnected. cbn. rewrite Hc, Eo. discriminate.
    + by rewrite Hnew.
Qed.

(** A call sends a frame only on the transport the client holds, when it
    is connected and the session is ready. *)
Lemma perform_sends_current op w c m :
  (c, m) ∈ sends (perform connectable op w).2 ->
  _connection (client w) = Some c /\ isConnected w = true /\
  isReady (client w) = true.
Proof.
  destruct op.
  4: { unfold perform, execute, isConnected.
       destruct (prepare command params cb (client w)) as [message cl] eqn:Ep.
       assert (Hc : _connection cl = _connection (client w) /\
                    _readyTimestamp cl = _readyTimestamp (client w)).
       { unfold prepare in Ep. destruct cb; by simplify_eq/=. }
       destruct Hc as [Hc Hr].
       unfold _send. cbn [with_client client sockets]. rewrite Hc, Hr.
       destruct (_connection (client w)) as [c0|].
       - destruct (from_option ws_isConnected false (sockets w !! c0)) eqn:Eo;
           cbn [negb snd sends]; [|by rewrite elem_of_nil].
         destruct (_readyTimestamp (client w)) as [ts|] eqn:Et;
           cbn [snd sends]; [|by rewrite elem_of_nil].
         rewrite sends_WsSend. simpl. rewrite list_elem_of_singleton.
         intros [= -> ->]. repeat split.
         unfold isReady. rewrite Et. by apply bool_decide_eq_true_2.
       - unfold _createConnection. cbn. by rewrite elem_of_nil. }
  all: unfold_ops; simpl;
    repeat (case_match; simplify_eq/=; try by rewrite elem_of_nil).
Qed.

Lemma perform_all_sends_current ops : forall w c m,
  (c, m) ∈ sends (perform_all connectable ops w).2 ->
  _connection (client w) = Some c /\ isConnected w = true /\
  isReady (client w) = true.
Proof.
  induction ops as [|op ops IH]; intros w c m; [by rewrite elem_of_nil|].
  rewrite perform_all_cons. cbn [snd]. rewrite sends_app, elem_of_app.
  intros [H|H].
  - by apply perform_sends_current in H.
  - apply IH in H as (H1 & H2 & H3).
    destruct (perform_not_opening op w H2) as [E1 E2].
    split; [congruence|]. split; [done|].
    unfold isReady in *.
    by destruct (perform_fields connectable op w) as (_ & <- & _).
Qed.

(** A client connected after one of its transports was closed was
    connected before. *)
Lemma isConnected_after_close w c :
  isConnected (with_socket c (set_tstate TClosed) w) = true -> isConnected w = true.
Proof.
  unfold isConnected. cbn [with_socket client sockets].
  destruct (_connection (client w)) as [k|]; [|done].
  destruct (sockets w !! c) as [t|] eqn:El; [|done].
  destruct (decide (k = c)) as [->|Hne].
  - rewrite list_lookup_insert_eq by (by eapply lookup_lt_Some). done.
  - by rewrite list_lookup_insert_ne.
Qed.

End Conservation.

Section Handlers.

Variable connectable : tstate -> bool.

(** While ids are below 2^53 the id handed out next is not in use. *)
Lemma next_id_unused c :
  ids_handed_out c -> _nextCommandId c < 2 ^ 53 ->
  _callbacks c !! pretty (_nextCommandId c) = None.
Proof.
  intros [_ Hk] Hlt.
  destruct (_callbacks c !! pretty (_nextCommandId c)) as [f|] eqn:E; [|done].
  destruct (Hk (pretty (_nextCommandId c))) as (id & Hid & _ & Hb); [by eauto|].
  apply (inj pretty) in Hid. lia.
Qed.

Lemma perform_handlers op w :
  ids_handed_out (client w) -> _nextCommandId (client w) < 2 ^ 53 ->
  called (perform connectable op w).2
    ++ (map_to_list (_callbacks (client (perform connectable op w).1))).*2
    ≡ₚ (map_to_list (_callbacks (client w))).*2 ++ op_handlers [op].
Proof.
  intros Hids Hlt. pose proof (next_id_unused _ Hids Hlt) as Hfresh.
  destruct op; cbn [op_handlers]; rewrite ?app_nil_r.
  4: { destruct cb as [f|]; rewrite ?app_nil_r.
       - unfold_ops; simpl.
         repeat (case_match; simplify_eq/=; rewrite ?called_WsSend; simpl).
         all: rewrite (map_to_list_insert _ _ _ Hfresh), fmap_cons; simpl.
         all: by rewrite Permutation_cons_append.
       - unfold_ops; simpl.
         repeat (case_match; simplify_eq/=; rewrite ?called_WsSend; try done). }
  all: unfold_ops; simpl;
    repeat (case_match; simplify_eq/=; try done).
Qed.

Lemma perform_all_nextCommandId_mono ops : forall w,
  _nextCommandId (client w)
    <= _nextCommandId (client (perform_all connectable ops w).1).
Proof.
  induction ops as [|op ops IH]; intros w; [done|].
  rewrite perform_all_cons. cbn [fst].
  pose proof (perform_nextCommandId_mono connectable op w).
  specialize (IH (perform connectable op w).1). lia.
Qed.

Lemma op_handlers_cons op ops : op_handlers (op :: ops) = op_handlers [op] ++ op_handlers ops.
Proof. by destruct op as [| | |? ? [?|]]. Qed.

Lemma perform_all_handlers ops : forall w,
  ids_handed_out (client w) ->
  _nextCommandId (client (perform_all connectable ops w).1) < 2 ^ 53 ->
  called (perform_all connectable ops w).2
    ++ (map_to_list (_callbacks (client (perform_all connectable ops w).1))).*2
    ≡ₚ (map_to_list (_callbacks (client w))).*2 ++ op_handlers ops.
Proof.
  induction ops as [|op ops IH]; intros w Hids Hlt.
  - simpl. by rewrite app_nil_r.
  - rewrite perform_all_cons in *. cbn [fst snd] in *.
    pose proof (perform_all_nextCommandId_mono ops (perform connectable op w).1) as Hm1.
    pose proof (perform_nextCommandId_mono connectable op w) as Hm2.
    rewrite called_app, <- app_assoc.
    rewrite (IH _ (perform_ids connectable op w Hids) Hlt).
    rewrite app_assoc, perform_handlers by (done || lia).
    by rewrite (op_handlers_cons op ops), app_assoc.
Qed.

Lemma perform_all_called ops w : called (perform_all connectable ops w).2 = [].
Proof.
  apply (perform_all_silent connectable called); auto using called_app, perform_called.
Qed.

Lemma step_handlers w i :
  ids_handed_out (client w) ->
  _nextCommandId (client (step connectable w i).1) < 2 ^ 53 ->
  called (step connectable w i).2
    ++ (map_to_list (_callbacks (client (step connectable w i).1))).*2
    ≡ₚ (map_to_list (_callbacks (client w))).*2 ++ handlers_of connectable w [i].
Proof.
  intros Hids Hlt.
  pose proof (step_nextCommandId_mono connectable w i) as Hmono.
  cbn [handlers_of]. rewrite app_nil_r. unfold executes.
  destruct i.
  10: { revert Hlt.
        destruct (step_received_cases connectable w c frame now)
          as [H|[(sid & _ & H)|[(sid & isNew & H)|(_ & w' & o & H & Hc)]]];
          destruct (H listeners) as [-> ->]; cbn [op_handlers fst snd]; intros Hlt.
        - by rewrite app_nil_r.
        - rewrite processQueue_called, app_nil_r.
          by destruct (processQueue_fields (with_client (set_sessionId sid) w))
            as (_ & _ & _ & -> & _).
        - set (ws := with_client (set_readyTimestamp (Some now))
                       (with_client (set_sessionId sid) w)) in *.
          assert (Hq : forall w1, _nextCommandId (client (_processQueue w1).1)
                                  = _nextCommandId (client w1)).
          { intros w1. unfold _processQueue. by repeat case_match. }
          pose proof (perform_all_handlers (l_calls listeners) ws Hids) as Hp.
          destruct (l_throws listeners); cbn [fst snd called] in *; [by apply Hp|].
          rewrite Hq in Hlt. rewrite called_app, processQueue_called, app_nil_r.
          destruct (processQueue_fields (perform_all connectable (l_calls listeners) ws).1)
            as (_ & _ & _ & -> & _).
          by apply Hp.
        - destruct Hc as [(n & d & -> & ->)|[(d & -> & ->)|(key & cb & a & b & Hk & -> & ->)]];
            rewrite ?app_nil_r; try done.
          cbn [fst snd called client with_client _callbacks set_callbacks app].
          rewrite <- (map_to_list_delete _ _ _ Hk). by rewrite fmap_cons. }
  9: { revert Hlt.
       destruct (step_closed_cases connectable w c code reason) as [H|(t & _ & _ & H)];
         destruct (H listeners) as [-> ->]; cbn [op_handlers fst snd]; intros Hlt;
         [by rewrite app_nil_r|].
       cbn zeta in *.
       set (ws := with_socket c (set_tstate TClosed) w) in *.
       pose proof (perform_all_handlers (l_calls listeners) ws Hids) as Hp.
       destruct (l_throws listeners); cbn [fst snd called] in *; [by apply Hp|].
       destruct (createConnection_fields connectable
                   (Some (_retryDelay (client (perform_all connectable
                                                 (l_calls listeners) ws).1)))
                   (perform_all connectable (l_calls listeners) ws).1)
         as (_ & _ & _ & _ & _ & _ & _ & Ecb & Eid).
       rewrite Eid in Hlt. rewrite Ecb, called_app.
       assert (Hn : forall d w1, called (_createConnection connectable (Some d) w1).2 = [])
         by done.
       rewrite Hn, app_nil_r. by apply Hp. }
  1: apply (perform_handlers OpConnect w Hids); lia.
  1: apply (perform_handlers OpReconnect w Hids); lia.
  1: apply (perform_handlers OpDisconnect w Hids); lia.
  1: { destruct cb as [f|].
       - apply (perform_handlers (OpExecute command params (Some f)) w Hids).
         revert Hlt. unfold_ops. unfold prepare. simpl.
         pose proof (js_incr_ge (_nextCommandId (client w))).
         repeat (case_match; simplify_eq/=; try lia).
       - apply (perform_handlers (OpExecute command params None) w Hids).
         revert Hlt. unfold_ops. unfold prepare. simpl.
         repeat (case_match; simplify_eq/=; try lia). }
  all: cbn [op_handlers]; rewrite app_nil_r.
  all: unfold_ops; simpl;
    repeat (case_match; simplify_eq/=; try done).
Qed.

Lemma run_handlers trace : forall w,
  ids_handed_out (client w) ->
  _nextCommandId (client (run connectable w trace).1) < 2 ^ 53 ->
  called (run connectable w trace).2
    ++ (map_to_list (_callbacks (client (run connectable w trace).1))).*2
    ≡ₚ (map_to_list (_callbacks (client w))).*2 ++ handlers_of connectable w trace.
Proof.
  induction trace as [|i trace IH]; intros w Hids Hlt.
  - simpl. by rewrite app_nil_r.
  - rewrite run_cons in *. cbn [fst snd] in *.
    pose proof (run_nextCommandId_mono connectable trace (step connectable w i).1) as Hm1.
    rewrite called_app, <- app_assoc.
    rewrite (IH _ (step_ids connectable w i Hids) Hlt).
    rewrite app_assoc, step_handlers by (done || lia).
    cbn [handlers_of]. by rewrite app_nil_r, <- app_assoc.
Qed.

(** Inputs that register no handler and deliver no frame leave the pending
    handlers as they are and call none. *)
Lemma step_passive w i :
  passive i = true ->
  _callbacks (client (step connectable w i).1) = _callbacks (client w) /\
  called (step connectable w i).2 = [].
Proof.
  intros Hp. destruct i as [| | |? ? [?|]| | | | | |]; try discriminate Hp.
  9: { cbn [passive] in Hp. apply bool_decide_eq_true in Hp.
       destruct (step_closed_cases connectable w c code reason) as [H|(t & _ & _ & H)];
         destruct (H listeners) as [-> _]; [done|].
       cbn zeta. rewrite Hp. cbn [perform_all fst snd app].
       destruct (l_throws listeners); [done|]. by destruct listeners. }
  all: unfold_ops; simpl;
    repeat (case_match; simplify_eq/=; rewrite ?called_WsSend; try done).
Qed.

End Handlers.

Section ConnectionIds.

Variable connectable : tstate -> bool.

Lemma nth_id_incr (n : nat) :
  js_incr (Z.min (2 ^ 53) (Z.of_nat n)) = Z.min (2 ^ 53) (Z.of_nat (S n)).
Proof.
  unfold js_incr. destruct (Z.ltb_spec (Z.min (2 ^ 53) (Z.of_nat n)) (2 ^ 53)); lia.
Qed.

Lemma ids_counted_with_client (f : Client -> Client) w :
  _connectionCounter (f (client w)) = _connectionCounter (client w) ->
  ids_counted w -> ids_counted (with_client f w).
Proof. intros E [H1 H2]. split; [by simpl; rewrite E|done]. Qed.

Lemma ids_counted_with_socket c (f : Transport -> Transport) w :
  (forall t, t_counter (f t) = t_counter t) ->
  ids_counted w -> ids_counted (with_socket c f w).
Proof.
  intros Hf [H1 H2]. unfold ids_counted, with_socket. simpl.
  destruct (sockets w !! c) as [t|] eqn:E; [|done].
  rewrite length_insert. split; [done|].
  intros k t'. destruct (decide (k = c)) as [->|Hne].
  - rewrite list_lookup_insert_eq by (by eapply lookup_lt_Some).
    intros [= <-]. rewrite Hf. by apply H2.
  - rewrite list_lookup_insert_ne by done. apply H2.
Qed.

Lemma ws_connect_counter t : t_counter (ws_connect connectable t) = t_counter t.
Proof. unfold ws_connect. by destruct (connectable (t_state t)). Qed.

Lemma ids_counted_createConnection delay w :
  ids_counted w -> ids_counted (_createConnection connectable delay w).1.
Proof.
  intros [H1 H2]. unfold _createConnection.
  assert (Hc : js_incr (_connectionCounter (client w)) = nth_id (length (sockets w))).
  { rewrite H1, nth_id_incr. unfold nth_id. f_equal. lia. }
  destruct delay; simpl; (split; [simpl; rewrite length_app; simpl; rewrite Hc; unfold nth_id; f_equal; lia|]).
  all: intros k t'; simpl; intros Hl.
  all: apply lookup_app_Some in Hl as [Hl|[Hge Hl]]; [by apply H2|].
  all: apply list_lookup_singleton_Some in Hl as [Hk <-]; simpl.
  all: rewrite ?ws_connect_counter; simpl; rewrite Hc; f_equal; lia.
Qed.

Lemma ids_counted_timers w l :
  ids_counted w -> ids_counted {| client := client w; sockets := sockets w; timers := l |}.
Proof. done. Qed.

Lemma perform_ids_counted op w :
  ids_counted w -> ids_counted (perform connectable op w).1.
Proof.
  intros H. destruct op.
  - unfold perform, connect. destruct (_connection (client w)); [done|].
    by apply ids_counted_createConnection.
  - unfold perform, reconnect. destruct (_connection (client w)) as [c|]; [|done].
    pose proof (ids_counted_createConnection None
                  (with_socket c ws_disconnect w)) as Hc.
    destruct (_createConnection _ _ _) as [w1 o]. apply Hc.
    by apply ids_counted_with_socket.
  - unfold perform, disconnect. destruct (_connection (client w)) as [c|]; [|done].
    apply ids_counted_with_socket; [done|]. by apply ids_counted_with_client.
  - unfold perform, execute.
    destruct (prepare command params cb (client w)) as [message cl] eqn:Ep.
    assert (Hw : ids_counted (with_client (fun _ => cl) w)).
    { apply ids_counted_with_client; [|done].
      unfold prepare in Ep. destruct cb; by simplify_eq/=. }
    revert Hw. generalize (with_client (fun _ => cl) w). intros w1 Hw.
    unfold _send. destruct (_connection (client w1)) as [c|].
    + repeat case_match; try done.
      all: by apply (ids_counted_with_client _ w1).
    + apply ids_counted_createConnection.
      by apply (ids_counted_with_client _ w1).
Qed.

Lemma processMessage_ids_counted message now l w :
  ids_counted w -> ids_counted (_processMessage connectable message now l w).1.
Proof.
  apply (processMessage_preserves connectable ids_counted); auto.
  intros op w'. apply perform_ids_counted.
Qed.

Lemma step_ids_counted w i :
  ids_counted w -> ids_counted (step connectable w i).1.
Proof.
  intros H. destruct i.
  10: { destruct (step_received connectable w c frame now listeners) as [->| ->];
          [done|].
        by apply processMessage_ids_counted. }
  - by apply (perform_ids_counted OpConnect).
  - by apply (perform_ids_counted OpReconnect).
  - by apply (perform_ids_counted OpDisconnect).
  - by apply (perform_ids_counted (OpExecute command params cb)).
  - unfold step. case_match; [|done]. unfold timer_body. simpl.
    destruct (_connection (client w)); [|done].
    apply (ids_counted_with_socket c (ws_connect connectable)
             {| client := client w; sockets := sockets w;
                timers := filter (fun x => x ≠ c) (timers w) |}); [|done].
    apply ws_connect_counter.
  - unfold step, transport_event, on_connected. simpl.
    destruct (sockets w !! c) as [t|]; [|done].
    destruct (t_state t); try done.
    apply ids_counted_with_client; [done|]. by apply ids_counted_with_socket.
  - unfold step, transport_event, on_connectionError. simpl.
    destruct (sockets w !! c) as [t|]; [|done].
    destruct (t_state t); try done.
    destruct (retry_possible _ _ _); simpl; by apply ids_counted_with_socket.
  - unfold step, transport_event. simpl.
    destruct (sockets w !! c) as [t|]; [|done].
    destruct (t_state t); try done.
    by apply ids_counted_with_socket.
  - apply (step_closed_preserves connectable ids_counted); [| | |done].
    + intros w' c' Hw'. by apply ids_counted_with_socket.
    + intros op w'. apply perform_ids_counted.
    + intros d w'. apply ids_counted_createConnection.
Qed.

Lemma run_ids_counted trace : forall w,
  ids_counted w -> ids_counted (run connectable w trace).1.
Proof.
  induction trace as [|i trace IH]; intros w H; [done|].
  rewrite run_cons. cbn [fst]. apply IH. by apply step_ids_counted.
Qed.

Lemma new_Client_ids_counted u options w0 o0 :
  new_Client connectable u options = Normal (w0, o0) -> ids_counted w0.
Proof.
  intros H. apply new_Client_inv in H as (uri0 & sid & gl & delay & o & [H|H]).
  - simplify_eq/=. split; [done|]. intros k t. simpl. by rewrite lookup_nil.
  - pose proof (ids_counted_createConnection None (blank uri0
        (initial_queryParams (default ∅ (query u))) sid gl delay o)) as Hc.
    unfold connect in H. cbn [blank client _connection] in H.
    rewrite <- H in Hc. apply Hc.
    split; [done|]. intros k t. simpl. by rewrite lookup_nil.
Qed.

End ConnectionIds.

Section Uris.

Variable connectable : tstate -> bool.

(** The session id and the readiness change only when a frame is
    processed. *)
Lemma step_session_fields w i :
  (forall c frame now l, i <> Received c frame now l) ->
  _sessionId (client (step connectable w i).1) = _sessionId (client w) /\
  _readyTimestamp (client (step connectable w i).1) = _readyTimestamp (client w).
Proof.
  intros Hi. destruct i.
  10: { by destruct (Hi c frame now listeners). }
  9: { apply (step_closed_preserves connectable
                (fun w' => _sessionId (client w') = _sessionId (client w) /\
                           _readyTimestamp (client w') = _readyTimestamp (client w)));
         [done | | | done].
       - intros op w' [E1 E2].
         destruct (perform_fields connectable op w') as (E3 & E4 & _).
         cbn zeta in *. split; congruence.
       - intros d w' [E1 E2].
         destruct (createConnection_fields connectable (Some d) w') as (E3 & E4 & _).
         cbn zeta in *. split; congruence. }
  all: unfold_ops; simpl; repeat (case_match; simplify_eq/=; try done).
Qed.

(** A step leaves the session id as it is or leaves the session ready. *)
Lemma step_session_or_ready w i :
  isReady (client (step connectable w i).1) = true \/
  (_sessionId (client (step connectable w i).1) = _sessionId (client w) /\
   _readyTimestamp (client (step connectable w i).1) = _readyTimestamp (client w)).
Proof.
  destruct i.
  10: { destruct (step_received connectable w c frame now listeners) as [E|E].
        { rewrite E. by right. }
        destruct (isReady (client w)) eqn:Er.
        { left. by apply step_keeps_ready. }
        destruct (isReady (client (step connectable w (Received c frame now listeners)).1))
          eqn:Er'; [by left|].
        right. rewrite E in *.
        by rewrite (processMessage_still_not_ready connectable frame now listeners w Er Er'). }
  all: right; by apply step_session_fields.
Qed.


(** A session without id that is not ready stays so or becomes ready. *)
Lemma run_null_or_ready trace : forall w,
  is_null (_sessionId (client w)) = true \/ isReady (client w) = true ->
  is_null (_sessionId (client (run connectable w trace).1)) = true \/
  isReady (client (run connectable w trace).1) = true.
Proof.
  induction trace as [|i trace IH]; intros w H; [done|].
  rewrite run_cons. cbn [fst]. apply IH.
  destruct (step_session_or_ready w i) as [Hr|[E1 E2]]; [by right|].
  unfold isReady in *. rewrite E1, E2. done.
Qed.

(** The calls of a step are made by a client with the fields it had
    before the step, or by listeners of [ready], in a session that is
    ready. *)
Lemma call_state_ready w i :
  client (call_state connectable w i) = client w \/
  isReady (client (call_state connectable w i)) = true.
Proof.
  unfold call_state. destruct i; try by left.
  - destruct (step_closed_cases connectable w c code reason) as [H|(t & _ & _ & H)];
      destruct (H listeners) as [_ ->]; cbn [default]; by left.
  - destruct (step_received_cases connectable w c frame now)
      as [H|[(sid & _ & H)|[(sid & isNew & H)|(_ & w' & o & H & Hc)]]];
      destruct (H listeners) as [_ ->]; cbn [default]; by auto.
Qed.

(** The parameters of a URI are those the fold of [_getUri] collects. *)
Lemma getUri_not_first_only c k :
  first_only k = true -> isReady c = true -> query_of (_getUri c) !! k = None.
Proof.
  intros Hk Hr. rewrite getUri_lookup.
  destruct (is_null (_sessionId c)); [done|].
  unfold isReady in Hr. rewrite Hk, Hr. simpl.
  assert (k <> "sid").
  { intros ->. vm_compute in Hk. discriminate. }
  destruct (_queryParams c !! k); by rewrite lookup_singleton_ne.
Qed.


End Uris.

Section Construction.

Variable connectable : tstate -> bool.

(** X1.  The constructor throws exactly when the protocol of the URI is
    neither [ws:] nor [wss:], or [options.retryCount] is a number below 0,
    or [options.retryDelay] or [options.pingTimeout] is below 1000. *)
Theorem constructor_rejects_exactly (u : ParsedUrl) (options : option Options) :
  (exists what, new_Client connectable u options = Throw what) <->
  (protocol u <> "ws:" /\ protocol u <> "wss:") \/
  exists o, options = Some o /\
    ((exists n, opt_retryCount o = Some (retry_count n) /\ n < 0) \/
     (exists d, opt_retryDelay o = Some d /\ d < 1000) \/
     (exists p, opt_pingTimeout o = Some p /\ p < 1000)).
Proof.
  unfold new_Client.
  destruct (bool_decide (protocol u = "ws:") || bool_decide (protocol u = "wss:")) eqn:E;
    simpl.
  2: { apply orb_false_elim in E as [E1%bool_decide_eq_false E2%bool_decide_eq_false].
       split; eauto. }
  assert (Hp : ~ (protocol u <> "ws:" /\ protocol u <> "wss:")).
  { apply orb_prop in E as [E%bool_decide_eq_true|E%bool_decide_eq_true]; tauto. }
  destruct options as [o|]; simpl.
  2: { split; [by intros [? ?]|intros [?|(? & ? & _)]; done]. }
  unfold checked, mret, completion_ret.
  destruct (opt_retryCount o) as [[|n]|] eqn:Ec; simpl;
    [| destruct (Z.ltb_spec n 0); simpl |].
  all: destruct (opt_retryDelay o) as [d|] eqn:Ed; simpl;
         [destruct (Z.ltb_spec d 1000); simpl|].
  all: destruct (opt_pingTimeout o) as [p|] eqn:Eg; simpl;
         [destruct (Z.ltb_spec p 1000); simpl|].
  all: split.
  all: try (intros [what Hw]; discriminate Hw).
  all: try (intros [what Hw]; right; exists o; split; [done|]; by eauto 10).
  all: intros [Hq|Hq]; [tauto|].
  all: destruct Hq as (o' & Ho & Hq); simplify_eq.
  all: destruct Hq as [(n' & Hq & Hlt)|[(d' & Hq & Hlt)|(p' & Hq & Hlt)]];
         simplify_eq; try lia; eauto.
Qed.

Lemma new_Client_blank u options w0 o0 :
  new_Client connectable u options = Normal (w0, o0) ->
  exists uri sessionId globalListener delay o,
    let w := blank uri (initial_queryParams (default ∅ (query u))) sessionId
               globalListener delay o in
    (w0, o0) = if bool_decide (options ≫= opt_autoConnect = Some false)
               then (w, []) else connect connectable w.
Proof.
  unfold new_Client.
  destruct (negb _); [done|].
  unfold mbind at 1 2 3, completion_bind.
  destruct (match opt_retryCount _ with None => _ | _ => _ end) as [count|]; [|done].
  destruct (checked 1000 _ (opt_retryDelay _)) as [delay|]; [|done].
  destruct (checked 1000 _ (opt_pingTimeout _)) as [ping|]; [|done].
  unfold mret, completion_ret. intros H. injection H as H.
  do 5 eexists. cbn zeta. rewrite <- H.
  by destruct options.
Qed.

(** X2.  A constructed client is not ready, has an empty queue, no pending
    handler and next id 1.  Unless [options.autoConnect] is [false] it has
    created its first transport, with connection id 1, and asked it to
    connect; with [autoConnect: false] it has created none. *)
Theorem constructor_initial_state (u : ParsedUrl) (options : option Options)
    (w0 : World) (o0 : list Obs) :
  new_Client connectable u options = Normal (w0, o0) ->
  isReady (client w0) = false /\ _queue (client w0) = [] /\
  _callbacks (client w0) = ∅ /\ _nextCommandId (client w0) = 1 /\ timers w0 = [] /\
  if bool_decide (options ≫= opt_autoConnect = Some false)
  then o0 = [] /\ sockets w0 = [] /\ _connection (client w0) = None
  else o0 = [WsNew 0 (_getUri (client w0)); WsConnect 0] /\
       _connection (client w0) = Some 0%nat /\
       exists t, sockets w0 = [ws_connect connectable t] /\ t_state t = TNew /\
                 t_counter t = 1 /\ t_uri t = _getUri (client w0) /\
                 t_options t = _connectionOptions (client w0).
Proof.
  intros H. apply new_Client_blank in H as (uri & sid & gl & delay & o & H).
  cbn zeta in H.
  destruct (bool_decide (options ≫= opt_autoConnect = Some false)).
  - by simplify_eq.
  - unfold connect, _createConnection in H. cbn in H. simplify_eq.
    cbn. repeat split.
    eexists. split; [done|]. cbn. repeat split.
Qed.

End Construction.

Lemma constructor_initial_state_witness :
  new_Client one_shot local_url None
    = Normal (created one_shot local_url None,
              [WsNew 0 (UriPlain "ws://127.0.0.1:8001/"); WsConnect 0]) /\
  _nextCommandId (client (created one_shot local_url None)) = 1.
Proof.
  assert (H : new_Client one_shot local_url None
              = Normal (created one_shot local_url None,
                        [WsNew 0 (UriPlain "ws://127.0.0.1:8001/"); WsConnect 0]))
    by (vm_compute; reflexivity).
  split; [exact H|].
  exact (proj1 (proj2 (proj2 (proj2
           (constructor_initial_state one_shot local_url None _ _ H))))).
Defined.

Section UriTheorems.

Variable connectable : tstate -> bool.

(** X3.  A client constructed without session id connects to the bare
    URI, whatever query parameters the URI had, and no URI it ever gives
    to a transport carries [expires] or [timeout]. *)
Theorem no_session_id_no_first_parameters (u : ParsedUrl) (options : option Options)
    (w0 : World) (o0 : list Obs) :
  new_Client connectable u options = Normal (w0, o0) ->
  is_null (_sessionId (client w0)) = true ->
  (forall uri, uri ∈ uris o0 -> uri = UriPlain (_uri (client w0))) /\
  (forall trace i uri,
     uri ∈ uris (step connectable (run connectable w0 trace).1 i).2 ->
     query_of uri !! "expires" = None /\ query_of uri !! "timeout" = None).
Proof.
  intros Hnew Hnull. split.
  - intros uri Hin.
    destruct (new_Client_queryParams connectable u options w0 o0 Hnew) as [_ Hu].
    rewrite (Hu uri Hin). by apply getUri_without_session.
  - intros trace i uri Hin. apply step_uris in Hin as ->.
    assert (H : is_null (_sessionId (client (call_state connectable
                  (run connectable w0 trace).1 i))) = true \/
                isReady (client (call_state connectable
                  (run connectable w0 trace).1 i)) = true).
    { destruct (call_state_ready connectable (run connectable w0 trace).1 i)
        as [->|Hr]; [|by right].
      apply (run_null_or_ready connectable trace w0 (or_introl Hnull)). }
    destruct H as [Hn|Hr].
    + rewrite (getUri_without_session _ Hn). simpl. by rewrite lookup_empty.
    + split; by apply getUri_not_first_only.
Qed.


End UriTheorems.

Lemma no_session_id_no_first_parameters_witness :
  (new_Client one_shot query_url None
     = Normal (created one_shot query_url None,
               [WsNew 0 (UriPlain "ws://127.0.0.1:8001/"); WsConnect 0]) /\
   is_null (_sessionId (client (created one_shot query_url None))) = true) /\
  forall uri,
    uri ∈ uris (step one_shot
                  (run one_shot (created one_shot query_url None)
                     [Opened 0 5; Received 0 (Normal (hello_frame "s1" true)) 6 quiet]).1
                  Reconnect).2 ->
    query_of uri !! "expires" = None /\ query_of uri !! "timeout" = None.
Proof.
  assert (H : new_Client one_shot query_url None
              = Normal (created one_shot query_url None,
                        [WsNew 0 (UriPlain "ws://127.0.0.1:8001/"); WsConnect 0]))
    by (vm_compute; reflexivity).
  assert (Hn : is_null (_sessionId (client (created one_shot query_url None))) = true)
    by (vm_compute; reflexivity).
  split; [by split|].
  exact (proj2 (no_session_id_no_first_parameters one_shot query_url None _ _ H Hn)
           [Opened 0 5; Received 0 (Normal (hello_frame "s1" true)) 6 quiet] Reconnect).
Defined.


(** A session id given as a no-break space is blank, and a parameter
    [__proto__] is not sent. *)
Example blank_session_id_and_proto_parameter :
  let nbsp := String (Ascii.ascii_of_nat 194) (String (Ascii.ascii_of_nat 160) EmptyString) in
  let blank_id := {| opt_autoConnect := None; opt_globalListener := None;
                     opt_sessionId := Some nbsp; opt_apiKey := None;
                     opt_retryCount := None; opt_retryDelay := None;
                     opt_pingTimeout := None |} in
  let u := {| protocol := "ws:"; host := "127.0.0.1:8001"; pathname := Some "/";
              query := Some {[ "sid" := VStr "s0"; "__proto__" := VStr "p";
                               "x" := VStr "1" ]} |} in
  uris (match new_Client one_shot local_url (Some blank_id) with
        | Normal (_, o) => o
        | Throw _ => []
        end) = [UriPlain "ws://127.0.0.1:8001/"] /\
  uris (match new_Client one_shot u None with
        | Normal (_, o) => o
        | Throw _ => []
        end)
    = [UriQuery "ws://127.0.0.1:8001/" {[ "sid" := VStr "s0"; "x" := VStr "1" ]}].
Proof. vm_compute. done. Qed.

Section Lifecycle.

Variable connectable : tstate -> bool.

(** X5.  [execute] creates a transport only when the client holds none:
    it then creates exactly one, asks it to connect, makes it the current
    one and queues the frame.  When the client holds a transport, in any
    state, no transport is created or connected. *)
Theorem execute_connects_lazily (command : string) (params : option value)
    (cb : option handler) (w : World) :
  let r := execute connectable command params cb w in
  match _connection (client w) with
  | None =>
      attempts_made r.2 = [length (sockets w); length (sockets w)] /\
      _connection (client r.1) = Some (length (sockets w)) /\
      length (sockets r.1) = S (length (sockets w)) /\
      sends r.2 = [] /\
      _queue (client r.1)
        = _queue (client w) ++ [(prepare command params cb (client w)).1]
  | Some c =>
      attempts_made r.2 = [] /\ _connection (client r.1) = Some c /\
      sockets r.1 = sockets w /\ timers r.1 = timers w
  end.
Proof.
  unfold execute.
  destruct (prepare command params cb (client w)) as [message cl] eqn:Ep.
  assert (Hc : _connection cl = _connection (client w) /\ _queue cl = _queue (client w)).
  { unfold prepare in Ep. destruct cb; by simplify_eq/=. }
  destruct Hc as [Hc Hq].
  unfold _send. cbn [with_client client]. rewrite Hc.
  destruct (_connection (client w)) as [c|] eqn:E.
  - destruct (negb _); [by rewrite <- Hc|].
    destruct (_readyTimestamp cl); cbn [fst snd _queueMessages with_client client];
      rewrite ?attempts_made_WsSend; by rewrite <- ?Hc.
  - unfold _createConnection, _queueMessages. cbn.
    rewrite length_app, Hq. cbn. repeat split. lia.
Qed.

(** X6.  After [disconnect()] the client holds no transport and reports
    itself not connected; the transport it held was told to disconnect;
    readiness, session id, queue, pending handlers and next id are kept.
    From then on [disconnect()], [reconnect()] and every timer that fires
    do nothing. *)
Theorem disconnect_stops_the_client (w : World) :
  let r := disconnect w in
  _connection (client r.1) = None /\ isConnected r.1 = false /\
  r.2 = match _connection (client w) with
        | Some c => [WsDisconnect c]
        | None => []
        end /\
  (_readyTimestamp (client r.1) = _readyTimestamp (client w) /\
   _sessionId (client r.1) = _sessionId (client w) /\
   _queue (client r.1) = _queue (client w) /\
   _callbacks (client r.1) = _callbacks (client w) /\
   _nextCommandId (client r.1) = _nextCommandId (client w)) /\
  forall i, i = Disconnect \/ i = Reconnect \/ (exists c, i = TimerFired c) ->
    (step connectable r.1 i).2 = [] /\
    client (step connectable r.1 i).1 = client r.1 /\
    sockets (step connectable r.1 i).1 = sockets r.1.
Proof.
  cbn zeta.
  assert (Hnone : _connection (client (disconnect w).1) = None).
  { unfold disconnect. by destruct (_connection (client w)) eqn:E. }
  split; [done|]. split; [by unfold isConnected; rewrite Hnone|].
  split; [unfold disconnect; by destruct (_connection (client w))|].
  split; [unfold disconnect; by destruct (_connection (client w))|].
  revert Hnone. generalize (disconnect w).1. intros w1 Hnone i Hi.
  destruct Hi as [->|[->|[c ->]]].
  - unfold step, disconnect. by rewrite Hnone.
  - unfold step, reconnect. by rewrite Hnone.
  - unfold step, timer_body. cbn [client]. rewrite Hnone. by case_match.
Qed.

(** X7.  Connection ids count the transports created: in every state a
    constructed client reaches, the counter is the number of transports
    created so far and the transport created [k]-th, from 0, reports
    connection id [k + 1] (both capped at 2^53, where [++] stops). *)
Theorem connection_ids_count_transports (u : ParsedUrl) (options : option Options)
    (w0 : World) (o0 : list Obs) (trace : list Input) :
  new_Client connectable u options = Normal (w0, o0) ->
  let w := (run connectable w0 trace).1 in
  _connectionCounter (client w) = Z.min (2 ^ 53) (Z.of_nat (length (sockets w))) /\
  (forall k t, sockets w !! k = Some t -> t_counter t = nth_id k) /\
  (Z.of_nat (length (sockets w)) < 2 ^ 53 ->
   _connectionCounter (client w) = Z.of_nat (length (sockets w)) /\
   forall k t, sockets w !! k = Some t -> t_counter t = Z.of_nat k + 1).
Proof.
  intros Hnew w.
  pose proof (new_Client_ids_counted connectable u options w0 o0 Hnew) as H0.
  destruct (run_ids_counted connectable trace w0 H0) as [Hc Hk].
  fold w in Hc, Hk. split; [done|]. split; [done|].
  intros Hlt. split; [lia|].
  intros k t Hl. rewrite (Hk k t Hl). unfold nth_id.
  apply lookup_lt_Some in Hl. lia.
Qed.

(** X8.  No frame is lost or sent twice: after any run, the frames handed
    to transports together with the frames still queued are the frames
    queued at the start together with the requests made, each once. *)
Theorem frames_sent_or_queued_once (trace : list Input) : forall w : World,
  (sends (run connectable w trace).2).*2 ++ _queue (client (run connectable w trace).1)
    ≡ₚ _queue (client w) ++ requests connectable w trace.
Proof.
  induction trace as [|i trace IH]; intros w.
  - simpl. by rewrite app_nil_r.
  - rewrite run_cons. cbn [fst snd]. simpl requests.
    rewrite sends_app, fmap_app, <- app_assoc, IH.
    rewrite (app_assoc _ _ (requests _ _ trace)).
    rewrite step_conserves. simpl requests.
    by rewrite !app_nil_r, app_assoc.
Qed.

(** X9.  Whatever happens to a client, a frame is only ever sent by a
    session that is ready, on the transport the client holds before the
    step or, for a frame flushed after the calls of listeners of [ready],
    on the transport it holds after it; when no listener makes a call it
    is the transport held before the step.  A frame sent by a caller's
    request goes to a transport that reports itself connected. *)
Theorem frames_sent_on_current_transport (w : World) (i : Input) (c : nat)
    (m : Message) :
  (c, m) ∈ sends (step connectable w i).2 ->
  isReady (client (step connectable w i).1) = true /\
  (_connection (client w) = Some c \/
   _connection (client (step connectable w i).1) = Some c) /\
  ((forall c' frame now l, i = Received c' frame now l -> l_calls l = []) ->
   _connection (client w) = Some c) /\
  ((forall c' frame now l, i <> Received c' frame now l) -> isConnected w = true).
Proof.
  intros Hin.
  assert (Hcalls : forall op, (c, m) ∈ sends (perform connectable op w).2 ->
            isReady (client (perform connectable op w).1) = true /\
            (_connection (client w) = Some c \/
             _connection (client (perform connectable op w).1) = Some c) /\
            _connection (client w) = Some c /\ isConnected w = true).
  { intros op H. apply perform_sends_current in H as (H1 & H2 & H3).
    split; [by apply perform_keeps_ready|]. by auto. }
  destruct i.
  10: { revert Hin.
        destruct (step_received_cases connectable w c0 frame now)
          as [H|[(sid & Hr & H)|[(sid & isNew & H)|(_ & w' & o & H & Hc)]]];
          destruct (H listeners) as [-> _]; cbn [fst snd].
        - by rewrite elem_of_nil.
        - intros Hin%processQueue_current. cbn in Hin.
          split; [by apply processQueue_keeps_ready|].
          split; [by left|]. split; [done|].
          intros Hne. by destruct (Hne c0 frame now listeners).
        - set (ws := with_client (set_readyTimestamp (Some now))
                       (with_client (set_sessionId sid) w)).
          assert (Ha : isReady (client (perform_all connectable (l_calls listeners) ws).1)
                       = true) by (by apply perform_all_keeps_ready).
          intros Hin.
          assert (Hcur : _connection (client w) = Some c \/
                         (l_throws listeners = false /\
                          _connection (client (perform_all connectable
                                                 (l_calls listeners) ws).1) = Some c)).
          { destruct (l_throws listeners); cbn [snd sends] in Hin.
            - apply perform_all_sends_current in Hin as [H1 _]. by left.
            - rewrite sends_app, elem_of_app in Hin. destruct Hin as [Hin|Hin].
              + apply perform_all_sends_current in Hin as [H1 _]. by left.
              + apply processQueue_current in Hin. by right. }
          split; [|split; [|split]].
          + destruct (l_throws listeners); cbn [fst]; [done|].
            by apply processQueue_keeps_ready.
          + destruct Hcur as [Hcur|[Et Hcur]]; [by left|right].
            rewrite Et. cbn [fst].
            by destruct (processQueue_fields
                           (perform_all connectable (l_calls listeners) ws).1)
              as (_ & _ & -> & _).
          + intros Hq. rewrite (Hq c0 frame now listeners eq_refl) in *.
            cbn [perform_all fst] in Hcur. by destruct Hcur as [Hcur|[_ Hcur]].
          + intros Hne. by destruct (Hne c0 frame now listeners).
        - destruct Hc as [(n & d & _ & ->)|[(d & _ & ->)|(key & cb & a & b & _ & _ & ->)]];
            by rewrite elem_of_nil. }
  9: { revert Hin.
       destruct (step_closed_cases connectable w c0 code reason) as [H|(t & _ & _ & H)];
         destruct (H listeners) as [-> _]; cbn [fst snd];
         [by rewrite elem_of_nil|].
       cbn zeta.
       set (ws := with_socket c0 (set_tstate TClosed) w).
       intros Hin.
       assert (Hs : (c, m) ∈ sends (perform_all connectable (l_calls listeners) ws).2).
       { destruct (l_throws listeners); cbn [snd sends] in Hin; [done|].
         rewrite sends_app, elem_of_app in Hin. destruct Hin as [Hin|Hin]; [done|].
         revert Hin. unfold _createConnection. cbn. by rewrite elem_of_nil. }
       apply perform_all_sends_current in Hs as (H1 & H2 & H3).
       assert (Ha : isReady (client (perform_all connectable (l_calls listeners) ws).1)
                    = true) by (by apply perform_all_keeps_ready).
       split; [|split; [by left|split; [done|]]].
       - destruct (l_throws listeners); cbn [fst]; [done|].
         unfold isReady in *.
         by destruct (createConnection_fields connectable
                        (Some (_retryDelay (client (perform_all connectable
                                                      (l_calls listeners) ws).1)))
                        (perform_all connectable (l_calls listeners) ws).1)
           as (_ & -> & _).
       - intros _. by apply (isConnected_after_close w c0). }
  1: destruct (Hcalls OpConnect Hin) as (H1 & H2 & H3 & H4); by auto.
  1: destruct (Hcalls OpReconnect Hin) as (H1 & H2 & H3 & H4); by auto.
  1: destruct (Hcalls OpDisconnect Hin) as (H1 & H2 & H3 & H4); by auto.
  1: destruct (Hcalls (OpExecute command params cb) Hin) as (H1 & H2 & H3 & H4); by auto.
  all: exfalso; revert Hin; unfold_ops; simpl;
    repeat (case_match; simplify_eq/=; try by rewrite elem_of_nil).
Qed.

End Lifecycle.

Lemma connection_ids_count_transports_witness :
  let w0 := created one_shot local_url None in
  let trace := [Opened 0 5; abnormal_closure; Reconnect] in
  new_Client one_shot local_url None
    = Normal (w0, [WsNew 0 (UriPlain "ws://127.0.0.1:8001/"); WsConnect 0]) /\
  _connectionCounter (client (run one_shot w0 trace).1) = 3 /\
  map t_counter (sockets (run one_shot w0 trace).1) = [1; 2; 3].
Proof.
  cbn zeta.
  assert (H : new_Client one_shot local_url None
              = Normal (created one_shot local_url None,
                        [WsNew 0 (UriPlain "ws://127.0.0.1:8001/"); WsConnect 0]))
    by (vm_compute; reflexivity).
  split; [exact H|].
  destruct (connection_ids_count_transports one_shot local_url None _ _
              [Opened 0 5; abnormal_closure; Reconnect] H) as (Hc & _ & _).
  split; [rewrite Hc|]; vm_compute; reflexivity.
Defined.

Lemma frames_sent_on_current_transport_witness :
  let w := (run one_shot (created one_shot local_url None)
              [Opened 0 5; Received 0 (Normal (hello_frame "s1" true)) 6 quiet]).1 in
  let m := {| msg_m := "getPairs"; msg_p := None; msg_i := None |} in
  (0%nat, m) ∈ sends (step one_shot w (Execute "getPairs" None None)).2 /\
  _connection (client w) = Some 0%nat.
Proof.
  cbn zeta.
  assert (H : (0%nat, {| msg_m := "getPairs"; msg_p := None; msg_i := None |})
              ∈ sends (step one_shot
                         (run one_shot (created one_shot local_url None)
                            [Opened 0 5;
                             Received 0 (Normal (hello_frame "s1" true)) 6 quiet]).1
                         (Execute "getPairs" None None)).2).
  { vm_compute. apply list_elem_of_here. }
  split; [exact H|].
  destruct (frames_sent_on_current_transport one_shot _ _ _ _ H) as (_ & _ & Hc & _).
  apply Hc. discriminate.
Defined.

Section HandlerTheorems.

Variable connectable : tstate -> bool.

(** X10.  While command ids stay below 2^53, every handler given to
    [execute] is either still pending or has been called, and called once:
    the handlers called during a run together with those pending at its
    end are the handlers registered, each as often as it was registered. *)
Theorem handlers_called_at_most_once (u : ParsedUrl) (options : option Options)
    (w0 : World) (o0 : list Obs) (trace : list Input) :
  new_Client connectable u options = Normal (w0, o0) ->
  let r := run connectable w0 trace in
  _nextCommandId (client r.1) < 2 ^ 53 ->
  called r.2 ++ (map_to_list (_callbacks (client r.1))).*2 ≡ₚ handlers_of connectable w0 trace.
Proof.
  intros Hnew r Hlt.
  destruct (new_Client_ids connectable u options w0 o0 Hnew) as [_ Hids].
  assert (Hempty : _callbacks (client w0) = ∅).
  { apply new_Client_inv in Hnew as (uri & sid & gl & delay & o & [H|H]);
      unfold connect, _createConnection in H; by simplify_eq/=. }
  pose proof (run_handlers connectable trace w0 Hids Hlt) as Hp.
  rewrite Hempty, map_to_list_empty in Hp. exact Hp.
Qed.

(** X11.  Only a received frame resolves a command.  Connecting,
    disconnecting, reconnecting, a lost or failed connection, a timer and
    requests without handler call no handler and leave the pending
    handlers registered as they are. *)
Theorem pending_handlers_outlive_connections (trace : list Input) : forall w : World,
  forallb passive trace = true ->
  _callbacks (client (run connectable w trace).1) = _callbacks (client w) /\
  called (run connectable w trace).2 = [].
Proof.
  induction trace as [|i trace IH]; intros w Hp; [done|].
  simpl in Hp. apply andb_prop in Hp as [Hi Hp].
  rewrite run_cons. cbn [fst snd].
  destruct (step_passive connectable w i Hi) as [E1 E2].
  destruct (IH (step connectable w i).1 Hp) as [E3 E4].
  by rewrite called_app, E2, E4, E3, E1.
Qed.

End HandlerTheorems.

Lemma handlers_called_at_most_once_witness :
  let w0 := created one_shot local_url None in
  let trace := [Execute "a" None (Some 7%nat); Opened 0 5;
                Received 0 (Normal (hello_frame "s1" true)) 6 quiet;
                Execute "b" None (Some 8%nat);
                Received 0 (Normal (result_frame 1 (VStr "ok"))) 7 quiet] in
  (new_Client one_shot local_url None
     = Normal (w0, [WsNew 0 (UriPlain "ws://127.0.0.1:8001/"); WsConnect 0]) /\
   _nextCommandId (client (run one_shot w0 trace).1) < 2 ^ 53) /\
  called (run one_shot w0 trace).2
    ++ (map_to_list (_callbacks (client (run one_shot w0 trace).1))).*2
    ≡ₚ [7%nat; 8%nat].
Proof.
  cbn zeta.
  assert (H : new_Client one_shot local_url None
              = Normal (created one_shot local_url None,
                        [WsNew 0 (UriPlain "ws://127.0.0.1:8001/"); WsConnect 0]))
    by (vm_compute; reflexivity).
  assert (Hlt : _nextCommandId
                  (client (run one_shot (created one_shot local_url None)
                     [Execute "a" None (Some 7%nat); Opened 0 5;
                      Received 0 (Normal (hello_frame "s1" true)) 6 quiet;
                      Execute "b" None (Some 8%nat);
                      Received 0 (Normal (result_frame 1 (VStr "ok"))) 7 quiet]).1) < 2 ^ 53)
    by (vm_compute; reflexivity).
  split; [by split|].
  exact (handlers_called_at_most_once one_shot local_url None _ _ _ H Hlt).
Defined.

Lemma pending_handlers_outlive_connections_witness :
  let w := (run one_shot (created one_shot local_url None)
              [Opened 0 5; Received 0 (Normal (hello_frame "s1" true)) 6 quiet;
               Execute "getPairs" None (Some 7%nat)]).1 in
  let trace := [abnormal_closure; TimerFired 1; Disconnect; Connect; Reconnect] in
  forallb passive trace = true /\
  _callbacks (client (run one_shot w trace).1) = _callbacks (client w) /\
  called (run one_shot w trace).2 = [].
Proof.
  cbn zeta. split; [reflexivity|].
  apply (pending_handlers_outlive_connections one_shot). reflexivity.
Defined.

Section InboundTheorems.

Variable connectable : tstate -> bool.


(** X13.  Every frame with a [hello] object, the first or a later one,
    with or without other fields, replaces the session id, leaves the
    session ready and calls no handler.  It raises [ready] when the
    session was never ready or [isNew] is truthy; the listeners of
    [ready] then run, and what they send goes out first.  Unless a
    listener throws, the whole queue is then sent, in order, on the
    transport the client holds at that point and the queue is emptied;
    the queue is kept when the client holds no transport, or when a
    listener throws.  When [ready] is not raised, or no listener makes a
    call, queue, transport and pending handlers are at that point those
    of before the frame. *)
Theorem handshake_updates_session_and_flushes (w : World)
    (data hello sid isNew : value) (now : Z) (listeners : Listeners) :
  get_prop data "hello" = Normal hello -> is_undefined hello = false ->
  get_prop hello "sid" = Normal sid -> get_prop hello "isNew" = Normal isNew ->
  let r := _processMessage connectable (Normal data) now listeners w in
  let raised := bool_decide (_readyTimestamp (client w) = None) || truthy isNew in
  let a := if raised
           then perform_all connectable (l_calls listeners)
                  (with_client (set_readyTimestamp (Some now))
                     (with_client (set_sessionId sid) w))
           else (with_client (set_sessionId sid) w, []) in
  (_sessionId (client r.1) = sid /\ isReady (client r.1) = true /\
   called r.2 = [] /\ _callbacks (client r.1) = _callbacks (client a.1) /\
   ready_events r.2 = if raised then [(sid, isNew)] else []) /\
  (if raised && l_throws listeners
   then sends r.2 = sends a.2 /\ _queue (client r.1) = _queue (client a.1)
   else match _connection (client a.1) with
        | Some c =>
            sends r.2 = sends a.2 ++ map (pair c) (_queue (client a.1)) /\
            _queue (client r.1) = []
        | None => sends r.2 = sends a.2 /\ _queue (client r.1) = _queue (client a.1)
        end) /\
  (raised = false \/ l_calls listeners = [] ->
   a.2 = [] /\ _queue (client a.1) = _queue (client w) /\
   _connection (client a.1) = _connection (client w) /\
   _callbacks (client a.1) = _callbacks (client w)).
Proof.
  intros Hh Hu Hs Hi. cbn zeta.
  rewrite (processMessage_hello connectable w data hello sid isNew now listeners
             Hh Hu Hs Hi).
  cbn zeta.
  set (ws := with_client (set_readyTimestamp (Some now))
               (with_client (set_sessionId sid) w)).
  destruct (bool_decide (_readyTimestamp (client w) = None) || truthy isNew) eqn:Eb.
  - set (a := perform_all connectable (l_calls listeners) ws).
    destruct (perform_all_fields connectable (l_calls listeners) ws)
      as (Es & Er & _). fold a in Es, Er.
    assert (Ha : isReady (client a.1) = true).
    { unfold isReady. by rewrite Er. }
    assert (Hcalled : called a.2 = []) by apply perform_all_called.
    assert (Hready : ready_events a.2 = []) by apply perform_all_ready_events.
    destruct (processQueue_fields a.1) as (_ & _ & _ & E4 & E5 & E6).
    pose proof (processQueue_spec a.1) as Hq.
    split; [|split].
    + destruct (l_throws listeners); cbn [fst snd called ready_events].
      * by rewrite Hcalled, Hready.
      * rewrite called_app, ready_events_app, processQueue_called,
          processQueue_ready_events, Hcalled, Hready.
        unfold isReady. rewrite E4, E5, E6. by rewrite Es.
    + cbn [andb]. destruct (l_throws listeners); cbn [fst snd sends]; [done|].
      rewrite sends_app. destruct (_connection (client a.1)) as [c|].
      * by destruct Hq as [-> ->].
      * rewrite Hq. cbn [fst snd sends]. by rewrite app_nil_r.
    + intros [?|Hc]; [done|]. unfold a. by rewrite Hc.
  - cbn [andb fst snd sends app].
    set (w1 := with_client (set_sessionId sid) w).
    destruct (processQueue_fields w1) as (_ & _ & _ & E4 & E5 & E6).
    pose proof (processQueue_spec w1) as Hq.
    apply orb_false_elim in Eb as [Eb%bool_decide_eq_false _].
    split; [|split].
    + rewrite processQueue_called, processQueue_ready_events.
      unfold isReady. rewrite E4, E5, E6.
      split; [done|]. split; [|done].
      simpl. apply bool_decide_eq_true_2.
      by destruct (_readyTimestamp (client w)); [eauto|].
    + destruct (_connection (client w1)) as [c|].
      * by destruct Hq as [-> ->].
      * by rewrite Hq.
    + done.
Qed.

(** A property of the state kept by the four kinds of assignment made
    while a message is processed is kept by [_processMessage] when the
    listeners of [ready] make no call. *)
Lemma processMessage_preserves_passive (P : World -> Prop) :
  (forall w sid, P w -> P (with_client (set_sessionId sid) w)) ->
  (forall w now, P w -> P (with_client (set_readyTimestamp (Some now)) w)) ->
  (forall w, P w -> P (with_client (set_queue []) w)) ->
  (forall w key, P w ->
     P (with_client (fun c => set_callbacks (delete key (_callbacks c)) c) w)) ->
  forall message now throws w, P w ->
    P (_processMessage connectable message now
         {| l_calls := []; l_throws := throws |} w).1.
Proof.
  intros Hsid Hready Hqueue Hcb message now throws w HP.
  destruct (processMessage_cases connectable message now w)
    as [E|[(sid & isNew & E)|[_ [(n & d & E)|[(d & E)|(key & cb & a & b & _ & E)]]]]];
    rewrite E; cbn [fst]; auto.
  cbn zeta. cbn [l_calls l_throws perform_all fst snd].
  destruct (bool_decide _ || truthy isNew).
  - destruct throws; cbn [fst]; auto.
    apply processQueue_preserves; auto.
  - apply processQueue_preserves; auto.
Qed.

(** Processing a message creates no transport and connects none when the
    listeners of [ready] make no call. *)
Lemma processMessage_quiet message now throws w :
  uris (_processMessage connectable message now
          {| l_calls := []; l_throws := throws |} w).2 = [] /\
  attempts_made (_processMessage connectable message now
                   {| l_calls := []; l_throws := throws |} w).2 = [].
Proof.
  destruct (processMessage_cases connectable message now w)
    as [E|[(sid & isNew & E)|[_ [(n & d & E)|[(d & E)|(key & cb & a & b & _ & E)]]]]];
    rewrite E; try done.
  cbn zeta. cbn [l_calls l_throws perform_all fst snd].
  destruct (bool_decide _ || truthy isNew).
  - destruct throws; [done|]. cbn [snd uris attempts_made app]. apply processQueue_quiet.
  - apply processQueue_quiet.
Qed.

(** X14.  Processing a received frame, of any content, when no listener
    of [ready] calls the client (a listener may throw), creates, connects
    and closes no transport, sets no timer, takes no command id, registers
    no handler and queues nothing: the pending handlers can only shrink
    and the queue is kept or emptied. *)
Theorem frame_processing_is_confined (message : completion value) (now : Z)
    (throws : bool) (w : World) :
  let r := _processMessage connectable message now
             {| l_calls := []; l_throws := throws |} w in
  sockets r.1 = sockets w /\ timers r.1 = timers w /\
  _connection (client r.1) = _connection (client w) /\
  _connectionCounter (client r.1) = _connectionCounter (client w) /\
  _nextCommandId (client r.1) = _nextCommandId (client w) /\
  attempts_made r.2 = [] /\
  _callbacks (client r.1) ⊆ _callbacks (client w) /\
  (_queue (client r.1) = _queue (client w) \/ _queue (client r.1) = []).
Proof.
  cbn zeta.
  pose proof (processMessage_preserves_passive
    (fun w' => sockets w' = sockets w /\ timers w' = timers w /\
               _connection (client w') = _connection (client w) /\
               _connectionCounter (client w') = _connectionCounter (client w) /\
               _nextCommandId (client w') = _nextCommandId (client w) /\
               _callbacks (client w') ⊆ _callbacks (client w) /\
               (_queue (client w') = _queue (client w) \/ _queue (client w') = [])))
    as Hp.
  destruct (Hp) with (message := message) (now := now) (throws := throws) (w := w)
    as (H1 & H2 & H3 & H4 & H5 & H6 & H7).
  - intros w' sid'. simpl. tauto.
  - intros w' now'. simpl. tauto.
  - intros w'. simpl. tauto.
  - intros w' key (? & ? & ? & ? & ? & Hsub & ?). repeat split; try done.
    simpl. etrans; [apply delete_subseteq|done].
  - repeat split; auto.
  - repeat split; try done.
    apply processMessage_quiet.
Qed.

End InboundTheorems.

(** A listener of [ready] that reconnects and sends: the frame it sends
    is queued for the new transport, after the frame queued before the
    handshake, and the flush hands both to the new transport. *)
Example listener_reconnects_and_sends :
  let w := (run one_shot (created one_shot local_url None)
              [Execute "a" None None; Opened 0 5]).1 in
  let r := step one_shot w
             (Received 0 (Normal (hello_frame "s1" true)) 6
                {| l_calls := [OpReconnect; OpExecute "b" None None];
                   l_throws := false |}) in
  sends r.2 = [(1%nat, {| msg_m := "a"; msg_p := None; msg_i := None |});
               (1%nat, {| msg_m := "b"; msg_p := None; msg_i := None |})] /\
  _connection (client r.1) = Some 1%nat /\ _queue (client r.1) = [].
Proof. vm_compute. done. Qed.


Lemma handshake_updates_session_and_flushes_witness :
  let w := (run one_shot (created one_shot local_url None)
              [Opened 0 5; Received 0 (Normal (hello_frame "s1" true)) 6 quiet;
               abnormal_closure; Execute "a" None None; TimerFired 1; Opened 1 7]).1 in
  let l := {| l_calls := [OpExecute "b" None None]; l_throws := false |} in
  let r := _processMessage one_shot (Normal (hello_frame "s2" true)) 8 l w in
  get_prop (hello_frame "s2" true) "hello"
    = Normal (VObj [("sid", VStr "s2"); ("isNew", VBool true)]) /\
  _sessionId (client r.1) = VStr "s2" /\
  sends r.2 = [(1%nat, {| msg_m := "b"; msg_p := None; msg_i := None |});
               (1%nat, {| msg_m := "a"; msg_p := None; msg_i := None |})].
Proof.
  cbn zeta. split; [reflexivity|].
  destruct (handshake_updates_session_and_flushes one_shot
              (run one_shot (created one_shot local_url None)
                 [Opened 0 5; Received 0 (Normal (hello_frame "s1" true)) 6 quiet;
                  abnormal_closure; Execute "a" None None; TimerFired 1;
                  Opened 1 7]).1
              (hello_frame "s2" true)
              (VObj [("sid", VStr "s2"); ("isNew", VBool true)]) (VStr "s2")
              (VBool true) 8
              {| l_calls := [OpExecute "b" None None]; l_throws := false |}
              eq_refl eq_refl eq_refl eq_refl) as ((Hs & _) & _).
  split; [exact Hs|].
  vm_compute. reflexivity.
Defined.

Ltac solve_typed :=
  repeat split; intros ?; simpl; repeat case_decide; try done;
  intros [= <-]; eauto.

Section Requests.

Variable connectable : tstate -> bool.

Lemma checkExchange_cases exchange :
  (_checkExchange exchange = Normal tt /\ exists s, exchange = VStr s /\ s <> "") \/
  _checkExchange exchange = Throw "Argument 'exchange' should be a non-empty string".
Proof.
  destruct exchange; simpl; auto. case_bool_decide; eauto.
Qed.

Lemma checkExchangeAndPairs_cases exchange pairs :
  (_checkExchangeAndPairs exchange pairs = Normal tt /\
   (exists s, exchange = VStr s /\ s <> "") /\ exists l, pairs = VArr l) \/
  exists e, _checkExchangeAndPairs exchange pairs = Throw e /\ e ∈ rejections.
Proof.
  destruct exchange; simpl; try (right; eexists; split; [done|set_solver]).
  case_bool_decide; [right; eexists; split; [done|set_solver]|].
  destruct pairs; simpl; try (right; eexists; split; [done|set_solver]).
  left. eauto 10.
Qed.

Lemma subscribe_pairs_accepted command s l reset cb w :
  s <> "" ->
  subscribe_pairs connectable command (VStr s) (VArr l) reset cb w =
    Normal (execute connectable command
              (Some (VObj [("exchange", VStr s); ("reset", VBool (reset_sent reset));
                           ("pairs", VArr l)]))
              (handler_given reset cb) w).
Proof.
  intros Hs. unfold subscribe_pairs. simpl. rewrite bool_decide_eq_false_2 by done.
  simpl. by destruct reset as [[]|].
Qed.

(** The three shapes of method, for any command name. *)
Lemma request_exchange_outcome command exchange cb :
  (exists e, e ∈ rejections /\
     forall w, request_exchange connectable command exchange cb w = Throw e) \/
  (exists params cb', well_typed params /\
     forall w, request_exchange connectable command exchange cb w
               = Normal (execute connectable command (Some (VObj params)) cb' w)).
Proof.
  unfold request_exchange.
  destruct (checkExchange_cases exchange) as [[E (s & -> & Hs)]|E]; rewrite E.
  - right. do 2 eexists. split; [|done]. solve_typed.
  - left. eexists. split; [|done]. set_solver.
Qed.

Lemma request_pairs_outcome command exchange pairs cb :
  (exists e, e ∈ rejections /\
     forall w, request_pairs connectable command exchange pairs cb w = Throw e) \/
  (exists params cb', well_typed params /\
     forall w, request_pairs connectable command exchange pairs cb w
               = Normal (execute connectable command (Some (VObj params)) cb' w)).
Proof.
  unfold request_pairs.
  destruct (checkExchangeAndPairs_cases exchange pairs)
    as [[E ((s & -> & Hs) & (l & ->))]|(e & E & He)]; rewrite E.
  - right. do 2 eexists. split; [|done]. solve_typed.
  - left. eexists. by split.
Qed.

Lemma subscribe_pairs_outcome command exchange pairs reset cb :
  (exists e, e ∈ rejections /\
     forall w, subscribe_pairs connectable command exchange pairs reset cb w = Throw e) \/
  (exists params cb', well_typed params /\
     forall w, subscribe_pairs connectable command exchange pairs reset cb w
               = Normal (execute connectable command (Some (VObj params)) cb' w)).
Proof.
  destruct (checkExchangeAndPairs_cases exchange pairs)
    as [[E ((s & -> & Hs) & (l & ->))]|(e & E & He)].
  - right. do 2 eexists. split; [|intros w; by apply subscribe_pairs_accepted].
    solve_typed.
  - left. exists e. split; [done|]. intros w. unfold subscribe_pairs. by rewrite E.
Qed.

Lemma getPairs_outcome exchange filter cb :
  (exists e, e ∈ rejections /\
     forall w, getPairs connectable exchange filter cb w = Throw e) \/
  (exists params cb', well_typed params /\
     forall w, getPairs connectable exchange filter cb w
               = Normal (execute connectable "getPairs" (Some (VObj params)) cb' w)).
Proof.
  unfold getPairs.
  destruct (checkExchange_cases exchange) as [[E (s & -> & Hs)]|E]; rewrite E.
  2: { left. eexists. split; [|done]. set_solver. }
  simpl. destruct cb as [f|].
  - destruct filter as [v|g].
    + destruct v; simpl;
        try (right; do 2 eexists; split; [|done]; solve_typed);
        try (left; eexists; split; [|done]; set_solver).
      destruct (given (default VUndefined (assoc "currency" fields))); simpl.
      * right. do 2 eexists. split; [|done]. solve_typed.
      * destruct (given (default VUndefined (assoc "baseCurrency" fields))); simpl.
        -- right. do 2 eexists. split; [|done]. solve_typed.
        -- right. do 2 eexists. split; [|done]. solve_typed.
    + right. do 2 eexists. split; [|done]. solve_typed.
  - destruct filter as [v|g].
    + left. eexists. split; [|done]. set_solver.
    + right. do 2 eexists. split; [|done]. solve_typed.
Qed.

Lemma subscribeToKlines_outcome exchange pairs interval reset cb :
  (exists e, e ∈ rejections /\
     forall w, subscribeToKlines connectable exchange pairs interval reset cb w = Throw e) \/
  (exists params cb', well_typed params /\
     forall w, subscribeToKlines connectable exchange pairs interval reset cb w
               = Normal (execute connectable "subscribeToKlines"
                           (Some (VObj params)) cb' w)).
Proof.
  unfold subscribeToKlines.
  destruct (checkExchangeAndPairs_cases exchange pairs)
    as [[E ((s & -> & Hs) & (l & ->))]|(e & E & He)]; rewrite E.
  2: { left. eexists. by split. }
  simpl. destruct interval as [| | | |iv| |];
    try (left; eexists; split; [|done]; set_solver).
  case_bool_decide; [left; eexists; split; [|done]; set_solver|].
  right. destruct reset as [[]|]; simpl; do 2 eexists; (split; [|done]); solve_typed.
Qed.

Lemma unsubscribeFromKlines_outcome exchange pairs interval cb :
  (exists e, e ∈ rejections /\
     forall w, unsubscribeFromKlines connectable exchange pairs interval cb w = Throw e) \/
  (exists params cb', well_typed params /\
     forall w, unsubscribeFromKlines connectable exchange pairs interval cb w
               = Normal (execute connectable "unsubscribeFromKlines"
                           (Some (VObj params)) cb' w)).
Proof.
  unfold unsubscribeFromKlines.
  destruct (checkExchangeAndPairs_cases exchange pairs)
    as [[E ((s & -> & Hs) & (l & ->))]|(e & E & He)]; rewrite E.
  2: { left. eexists. by split. }
  simpl. destruct interval as [[| | | |iv| |]|];
    try (left; eexists; split; [|done]; set_solver).
  - right. simpl. do 2 eexists. split; [|done]. solve_typed.
  - case_bool_decide; [left; eexists; split; [|done]; set_solver|].
    right. simpl. do 2 eexists. split; [|done]. solve_typed.
Qed.

Lemma unsubscribe_outcome exchange cb :
  (exists e, e ∈ rejections /\
     forall w, unsubscribe connectable exchange cb w = Throw e) \/
  (exists params cb', well_typed params /\
     forall w, unsubscribe connectable exchange cb w
               = Normal (execute connectable "unsubscribe" (Some (VObj params)) cb' w)).
Proof.
  unfold unsubscribe. destruct exchange as [v|f].
  - destruct v as [| | | |s| |]; simpl;
      try (left; eexists; split; [|done]; set_solver).
    + right. do 2 eexists. split; [|done]. solve_typed.
    + case_bool_decide; [left; eexists; split; [|done]; set_solver|].
      right. do 2 eexists. split; [|done]. solve_typed.
  - right. do 2 eexists. split; [|done]. solve_typed.
Qed.

(** Every call of a request method comes to a rejection or to one call of
    [execute], the same in every state of the client. *)
Lemma invoke_outcome r :
  exists out, comes_to connectable r out /\
    match out with
    | Rejected what => what ∈ rejections
    | Accepted params _ => well_typed params
    end.
Proof.
  assert (H : (exists e, e ∈ rejections /\ forall w, invoke connectable r w = Throw e) \/
              (exists params cb', well_typed params /\
                 forall w, invoke connectable r w
                           = Normal (execute connectable (method_name r)
                                       (Some (VObj params)) cb' w))).
  { destruct r; simpl.
    - apply getPairs_outcome.
    - apply subscribe_pairs_outcome.
    - apply request_pairs_outcome.
    - apply request_exchange_outcome.
    - apply subscribe_pairs_outcome.
    - apply request_pairs_outcome.
    - apply request_pairs_outcome.
    - apply request_exchange_outcome.
    - apply subscribe_pairs_outcome.
    - apply request_pairs_outcome.
    - apply request_exchange_outcome.
    - apply subscribeToKlines_outcome.
    - apply unsubscribeFromKlines_outcome.
    - apply request_exchange_outcome.
    - apply unsubscribe_outcome. }
  destruct H as [(e & He & H)|(params & cb & Hty & H)].
  - by exists (Rejected e).
  - by exists (Accepted params cb).
Qed.

(** X15.  Whichever request method is called, with whatever arguments, if
    it returns it has made exactly one call of [execute], under its own
    name and with an object of parameters typed as the gateway expects: a
    non-empty string for [exchange], an array for [pairs], a boolean for
    [reset] and a non-empty string for [interval], where present.  So one
    frame named after the method has been sent or queued. *)
Theorem request_methods_issue_one_typed_command (r : Request) (w : World)
    (res : World * list Obs) :
  invoke connectable r w = Normal res ->
  exists params cb,
    res = execute connectable (method_name r) (Some (VObj params)) cb w /\
    well_typed params /\
    let msg := (prepare (method_name r) (Some (VObj params)) cb (client w)).1 in
    msg_m msg = method_name r /\
    (sends res.2).*2 ++ _queue (client res.1) ≡ₚ _queue (client w) ++ [msg].
Proof.
  intros H.
  destruct (invoke_outcome r) as ([e|params cb] & Hout & Hty);
    rewrite (Hout w) in H; [done|].
  injection H as <-.
  exists params, cb. split; [done|]. split; [done|]. cbn zeta.
  split; [by destruct cb|].
  pose proof (step_conserves connectable w
                (Execute (method_name r) (Some (VObj params)) cb)) as Hc.
  cbn [requests executes call_state listeners_start default op_requests app step fst]
    in Hc. exact Hc.
Qed.

(** X16.  Whether a request method rejects a call, and with which error,
    depends on the arguments alone: the same call is rejected with the same
    error, or accepted with the same command, in every state of the
    client, connected or not.  The error is one of the four argument
    errors or the TypeError of a [null] filter. *)
Theorem request_rejection_depends_on_arguments_only (r : Request) (w w' : World) :
  match invoke connectable r w, invoke connectable r w' with
  | Throw e, Throw e' => e = e' /\ e ∈ rejections
  | Normal res, Normal res' =>
      exists params cb,
        res = execute connectable (method_name r) (Some (VObj params)) cb w /\
        res' = execute connectable (method_name r) (Some (VObj params)) cb w'
  | _, _ => False
  end.
Proof.
  destruct (invoke_outcome r) as ([e|params cb] & Hout & Hty);
    rewrite (Hout w), (Hout w').
  - done.
  - by exists params, cb.
Qed.

End Requests.

Section RequestReplies.

Variable connectable : tstate -> bool.

(** A ready session that receives the result frame or the error frame of
    a pending command calls its handler. *)
Lemma reply_frame_calls w id f now l :
  isReady (client w) = true ->
  _callbacks (client w) !! pretty id = Some f ->
  (forall r, is_undefined r = false ->
     (_processMessage connectable (Normal (result_frame id r)) now l w).2
       = [Call f r VNull]) /\
  (forall e, is_undefined e = false ->
     (_processMessage connectable (Normal (error_frame id e)) now l w).2
       = [Call f VNull e]).
Proof.
  intros Hr Hf. unfold isReady in Hr. apply bool_decide_eq_true in Hr as [ts Hr].
  split; intros v Hv; js_unfold; simpl; rewrite Hr; simpl; rewrite ?Hv; simpl;
    by rewrite Hf.
Qed.

(** X17.  On a ready session whose transport is connected, a
    [subscribeTo...] call with a non-empty exchange and an array of pairs
    sends one frame at once on the current transport.  Its [reset] is
    [true] only when the third argument is exactly [true].  The handler is
    the function given as third argument, else [cb]; with a handler the
    frame carries the next command id, and the result or error frame with
    that id makes the client call that handler, and run no listener of
    [ready]. *)
Theorem subscription_reply_reaches_handler (command s : string) (l : list value)
    (reset : arg) (cb : option handler) (w : World) (c : nat) :
  s <> "" ->
  isReady (client w) = true -> _connection (client w) = Some c ->
  isConnected w = true ->
  exists w1,
    subscribe_pairs connectable command (VStr s) (VArr l) reset cb w
      = Normal (w1,
                [WsSend c
                   {| msg_m := command;
                      msg_p := Some (VObj [("exchange", VStr s);
                                           ("reset", VBool (reset_sent reset));
                                           ("pairs", VArr l)]);
                      msg_i := (fun _ => _nextCommandId (client w))
                                 <$> handler_given reset cb |}]) /\
    forall f now listeners, handler_given reset cb = Some f ->
      (forall r, is_undefined r = false ->
         (_processMessage connectable
            (Normal (result_frame (_nextCommandId (client w)) r)) now listeners w1).2
           = [Call f r VNull]) /\
      (forall e, is_undefined e = false ->
         (_processMessage connectable
            (Normal (error_frame (_nextCommandId (client w)) e)) now listeners w1).2
           = [Call f VNull e]).
Proof.
  intros Hs Hr Hc Ho.
  rewrite subscribe_pairs_accepted by done.
  unfold execute.
  destruct (prepare command _ (handler_given reset cb) (client w)) as [message cl] eqn:Ep.
  assert (Hw : isReady cl = true /\ _connection cl = Some c /\
               message = {| msg_m := command;
                            msg_p := Some (VObj [("exchange", VStr s);
                                                 ("reset", VBool (reset_sent reset));
                                                 ("pairs", VArr l)]);
                            msg_i := (fun _ => _nextCommandId (client w))
                                       <$> handler_given reset cb |} /\
               forall f, handler_given reset cb = Some f ->
                 _callbacks cl !! pretty (_nextCommandId (client w)) = Some f).
  { unfold prepare in Ep. destruct (handler_given reset cb) as [f|]; simplify_eq/=.
    - repeat split; try done. intros f' [= <-]. apply lookup_insert_eq.
    - repeat split; try done. }
  destruct Hw as (Hr' & Hc' & -> & Hcb).
  rewrite (send_when_ready_and_open connectable (with_client (fun _ => cl) w) c);
    [|done|done|].
  2: { unfold isConnected in *. cbn [with_client client sockets].
       by rewrite Hc' in *; rewrite Hc in Ho. }
  eexists. split; [done|].
  intros f now listeners Hf.
  by apply reply_frame_calls; [|apply Hcb].
Qed.

(** X18.  [unsubscribeFromKlines] never accepts a function as its third
    argument: whatever the other arguments, the call throws and nothing is
    sent; with valid exchange and pairs the error names [interval].  The
    callback has to be passed fourth, after an [undefined] interval. *)
Theorem unsubscribeFromKlines_rejects_callback_as_interval (exchange pairs : value)
    (f : handler) (cb : option handler) (w : World) :
  (exists what,
     unsubscribeFromKlines connectable exchange pairs (Fn f) cb w = Throw what) /\
  (_checkExchangeAndPairs exchange pairs = Normal tt ->
   unsubscribeFromKlines connectable exchange pairs (Fn f) cb w
     = Throw "Argument 'interval' should be a non-empty string" /\
   unsubscribeFromKlines connectable exchange pairs (Val VUndefined) (Some f) w
     = Normal (execute connectable "unsubscribeFromKlines"
                 (Some (VObj [("exchange", exchange); ("pairs", pairs)])) (Some f) w)).
Proof.
  unfold unsubscribeFromKlines.
  destruct (checkExchangeAndPairs_cases exchange pairs) as [[E _]|(e & E & _)];
    rewrite E.
  - split; [by eexists|]. by intros _.
  - split; [by eexists|]. done.
Qed.

(** X19.  [getPairs] returns only when it was given a handler, as third
    argument or in place of the filter, and then issues one [getPairs]
    command with that handler.  Its parameters are the exchange alone when
    the filter is undefined or a function; otherwise they are the exchange
    and a filter on [currency] when [filter.currency] is defined and not
    the empty string, else the exchange and a filter on [baseCurrency]
    when [filter.baseCurrency] is, else the exchange alone: never both
    filters. *)
Theorem getPairs_needs_handler_and_one_filter (exchange : value) (filter : arg)
    (cb : option handler) (w : World) (res : World * list Obs) :
  getPairs connectable exchange filter cb w = Normal res ->
  exists f extra,
    (cb = Some f \/ (cb = None /\ filter = Fn f)) /\
    res = execute connectable "getPairs"
            (Some (VObj (("exchange", exchange) :: extra))) (Some f) w /\
    match filter with
    | Fn _ => extra = []
    | Val v =>
        if is_undefined v then extra = []
        else exists cur base,
               get_prop v "currency" = Normal cur /\
               get_prop v "baseCurrency" = Normal base /\
               extra = if given cur then [("filter", VObj [("currency", cur)])]
                       else if given base
                            then [("filter", VObj [("baseCurrency", base)])]
                            else []
    end.
Proof.
  unfold getPairs.
  destruct (checkExchange_cases exchange) as [[E _]|E]; rewrite E; [|done].
  simpl. destruct cb as [f|].
  - destruct filter as [v|g].
    + intros H. exists f.
      destruct (is_undefined v) eqn:Hu.
      { destruct v; try done. injection H as <-. exists []. by eauto. }
      assert (H' : (currency ← get_prop v "currency";
                    if given currency
                    then Normal [("exchange", exchange);
                                 ("filter", VObj [("currency", currency)])]
                    else baseCurrency ← get_prop v "baseCurrency";
                         if given baseCurrency
                         then Normal [("exchange", exchange);
                                      ("filter", VObj [("baseCurrency", baseCurrency)])]
                         else Normal [("exchange", exchange)]) ≫=
                   (fun params => mret (execute connectable "getPairs"
                                          (Some (VObj params)) (Some f) w))
                   = Normal res).
      { destruct v; [discriminate Hu|exact H ..]. }
      clear H.
      destruct (get_prop v "currency") as [cur|e] eqn:Ec; [|done].
      destruct (get_prop_normal_all v "currency" "baseCurrency" _ Ec) as [base Eb].
      rewrite Eb in H'. simpl in H'.
      destruct (given cur) eqn:Gc; simpl in H'.
      * injection H' as <-. eexists. split; [by left|]. split; [done|].
        exists cur, base. by rewrite Gc.
      * destruct (given base) eqn:Gb; simpl in H'; injection H' as <-.
        -- eexists. split; [by left|]. split; [done|].
           exists cur, base. by rewrite Gc, Gb.
        -- exists []. split; [by left|]. split; [done|].
           exists cur, base. by rewrite Gc, Gb.
    + intros [= <-]. exists f, []. by eauto.
  - destruct filter as [v|g]; [done|].
    intros [= <-]. exists g, []. split; [by right|]. by split.
Qed.

End RequestReplies.

Lemma request_methods_issue_one_typed_command_witness :
  let r := SubscribeToKlines (VStr "binance") (VArr [VStr "USDT-BTC"]) (VStr "4h")
             (Val (VBool true)) (Some 7%nat) in
  let params := [("exchange", VStr "binance"); ("interval", VStr "4h");
                 ("reset", VBool true); ("pairs", VArr [VStr "USDT-BTC"])] in
  let res := execute one_shot "subscribeToKlines" (Some (VObj params)) (Some 7%nat)
               idle_world in
  invoke one_shot r idle_world = Normal res /\
  exists params' cb,
    res = execute one_shot (method_name r) (Some (VObj params')) cb idle_world /\
    well_typed params' /\
    let msg := (prepare (method_name r) (Some (VObj params')) cb (client idle_world)).1 in
    msg_m msg = method_name r /\
    (sends res.2).*2 ++ _queue (client res.1) ≡ₚ _queue (client idle_world) ++ [msg].
Proof.
  cbn zeta. split; [reflexivity|].
  apply (request_methods_issue_one_typed_command one_shot
           (SubscribeToKlines (VStr "binance") (VArr [VStr "USDT-BTC"]) (VStr "4h")
              (Val (VBool true)) (Some 7%nat))).
  reflexivity.
Defined.

Lemma subscription_reply_reaches_handler_witness :
  "binance" <> "" /\ isReady (client ready_world) = true /\
  _connection (client ready_world) = Some 0%nat /\ isConnected ready_world = true /\
  exists w1,
    subscribe_pairs one_shot "subscribeToTickers" (VStr "binance")
      (VArr [VStr "USDT-BTC"]) (Fn 7%nat) None ready_world
      = Normal (w1,
                [WsSend 0
                   {| msg_m := "subscribeToTickers";
                      msg_p := Some (VObj [("exchange", VStr "binance");
                                           ("reset", VBool false);
                                           ("pairs", VArr [VStr "USDT-BTC"])]);
                      msg_i := Some 1 |}]) /\
    (_processMessage one_shot (Normal (result_frame 1 (VBool true))) 9 interrupt w1).2
      = [Call 7%nat (VBool true) VNull].
Proof.
  assert (Hs : "binance" <> "") by discriminate.
  assert (Hr : isReady (client ready_world) = true) by (vm_compute; reflexivity).
  assert (Hc : _connection (client ready_world) = Some 0%nat) by (vm_compute; reflexivity).
  assert (Ho : isConnected ready_world = true) by (vm_compute; reflexivity).
  split; [exact Hs|]. split; [exact Hr|]. split; [exact Hc|]. split; [exact Ho|].
  destruct (subscription_reply_reaches_handler one_shot "subscribeToTickers" "binance"
              [VStr "USDT-BTC"] (Fn 7%nat) None ready_world 0 Hs Hr Hc Ho)
    as (w1 & Hsub & Hreply).
  exists w1. split; [exact Hsub|].
  exact (proj1 (Hreply 7%nat 9 interrupt eq_refl) (VBool true) eq_refl).
Defined.

Lemma unsubscribeFromKlines_rejects_callback_as_interval_witness :
  _checkExchangeAndPairs (VStr "binance") (VArr [VStr "USDT-BTC"]) = Normal tt /\
  unsubscribeFromKlines one_shot (VStr "binance") (VArr [VStr "USDT-BTC"])
    (Fn 7%nat) None idle_world
    = Throw "Argument 'interval' should be a non-empty string".
Proof.
  split; [reflexivity|].
  exact (proj1 (proj2 (unsubscribeFromKlines_rejects_callback_as_interval one_shot
                         (VStr "binance") (VArr [VStr "USDT-BTC"]) 7%nat None idle_world)
                  eq_refl)).
Defined.

Lemma getPairs_needs_handler_and_one_filter_witness :
  let filter := VObj [("currency", VStr ""); ("baseCurrency", VStr "USDT")] in
  let res := execute one_shot "getPairs"
               (Some (VObj [("exchange", VStr "binance");
                            ("filter", VObj [("baseCurrency", VStr "USDT")])]))
               (Some 7%nat) idle_world in
  getPairs one_shot (VStr "binance") (Val filter) (Some 7%nat) idle_world = Normal res /\
  exists f extra,
    (Some 7%nat = Some f \/ (Some 7%nat = None /\ Val filter = Fn f)) /\
    res = execute one_shot "getPairs"
            (Some (VObj (("exchange", VStr "binance") :: extra))) (Some f) idle_world /\
    exists cur base,
      get_prop filter "currency" = Normal cur /\
      get_prop filter "baseCurrency" = Normal base /\
      extra = if given cur then [("filter", VObj [("currency", cur)])]
              else if given base then [("filter", VObj [("baseCurrency", base)])]
              else [].
Proof.
  cbn zeta. split; [reflexivity|].
  apply (getPairs_needs_handler_and_one_filter one_shot (VStr "binance")
           (Val (VObj [("currency", VStr ""); ("baseCurrency", VStr "USDT")]))
           (Some 7%nat) idle_world).
  reflexivity.
Defined.

Section Reconnection.

Variable connectable : tstate -> bool.

(** X20.  [reconnect()] on a client that holds a transport tells that
    transport to disconnect, creates a new transport for the URI of the
    moment, asks it to connect at once and makes it the current one, with
    the next connection id.  It sets no timer, sends nothing and keeps
    readiness, session id, queue and pending handlers. *)
Theorem reconnect_replaces_transport (w : World) (c : nat) :
  _connection (client w) = Some c ->
  let c' := length (sockets w) in
  let r := reconnect connectable w in
  r.2 = [WsDisconnect c; WsNew c' (_getUri (client w)); WsConnect c'] /\
  _connection (client r.1) = Some c' /\
  _connectionCounter (client r.1) = js_incr (_connectionCounter (client w)) /\
  (exists t, sockets r.1 !! c' = Some (ws_connect connectable t) /\
             t_state t = TNew /\ t_uri t = _getUri (client w) /\
             t_counter t = js_incr (_connectionCounter (client w))) /\
  length (sockets r.1) = S (length (sockets w)) /\
  timers r.1 = timers w /\
  _readyTimestamp (client r.1) = _readyTimestamp (client w) /\
  _sessionId (client r.1) = _sessionId (client w) /\
  _queue (client r.1) = _queue (client w) /\
  _callbacks (client r.1) = _callbacks (client w).
Proof.
  intros Hc. cbn zeta. unfold reconnect. rewrite Hc.
  assert (Hlen : length (sockets (with_socket c ws_disconnect w)) = length (sockets w)).
  { unfold with_socket. simpl. destruct (sockets w !! c); [|done].
    by rewrite length_insert. }
  unfold _createConnection. cbn [fst snd client sockets timers with_socket].
  cbn [fst snd client sockets timers with_socket] in Hlen. rewrite !Hlen.
  assert (Hu : _getUri (set_connectionCounter (js_incr (_connectionCounter (client w)))
                          (client w)) = _getUri (client w)) by (by apply getUri_ext).
  rewrite !Hu.
  set (socks := match sockets w !! c with
                | Some t => <[c:=ws_disconnect t]> (sockets w)
                | None => sockets w
                end) in *.
  split; [reflexivity|]. split; [reflexivity|]. split; [reflexivity|].
  split.
  { eexists. split; [by apply list_lookup_middle|]. by repeat split. }
  split; [rewrite length_app, Hlen; simpl; lia|].
  by repeat split.
Qed.

Lemma perform_all_timeouts ops w : timeouts (perform_all connectable ops w).2 = [].
Proof.
  apply (perform_all_silent connectable timeouts);
    auto using timeouts_app, perform_timeouts.
Qed.

Lemma perform_all_retryDelay ops w :
  _retryDelay (client (perform_all connectable ops w).1) = _retryDelay (client w).
Proof. by destruct (perform_all_fields connectable ops w) as (_ & _ & _ & _ & -> & _). Qed.

(** The delay before a reconnection is [_retryDelay], which no operation
    changes; timers are set only when a transport reports a close. *)
Lemma step_retryDelay w i :
  _retryDelay (client (step connectable w i).1) = _retryDelay (client w) /\
  forall d, d ∈ timeouts (step connectable w i).2 ->
    d = _retryDelay (client w) /\ exists c code reason l, i = Closed c code reason l.
Proof.
  destruct i.
  10: { assert (Hq : forall w1, _retryDelay (client (_processQueue w1).1)
                                = _retryDelay (client w1)).
        { intros w1. unfold _processQueue. by repeat case_match. }
        destruct (step_received_cases connectable w c frame now)
          as [H|[(sid & _ & H)|[(sid & isNew & H)|(_ & w' & o & H & Hc)]]];
          destruct (H listeners) as [-> _]; cbn [fst snd].
        - split; [done|]. intros d. by rewrite elem_of_nil.
        - split; [by rewrite Hq|]. intros d.
          rewrite processQueue_timeouts. by rewrite elem_of_nil.
        - destruct (l_throws listeners); cbn [fst snd timeouts].
          + rewrite perform_all_retryDelay, perform_all_timeouts.
            split; [done|]. intros d. by rewrite elem_of_nil.
          + rewrite Hq, perform_all_retryDelay, timeouts_app, perform_all_timeouts,
              processQueue_timeouts.
            split; [done|]. intros d. by rewrite elem_of_nil.
        - destruct Hc as [(n & d & -> & ->)|[(d & -> & ->)|(key & cb & a & b & _ & -> & ->)]];
            (split; [done|]); intros d'; by rewrite elem_of_nil. }
  9: { destruct (step_closed_cases connectable w c code reason) as [H|(t & _ & _ & H)];
         destruct (H listeners) as [-> _]; cbn [fst snd].
       { split; [done|]. intros d. by rewrite elem_of_nil. }
       cbn zeta.
       set (ws := with_socket c (set_tstate TClosed) w).
       assert (Ea : _retryDelay (client (perform_all connectable (l_calls listeners) ws).1)
                    = _retryDelay (client w))
         by exact (perform_all_retryDelay (l_calls listeners) ws).
       destruct (l_throws listeners); cbn [fst snd timeouts].
       - rewrite perform_all_timeouts. split; [done|]. intros d. by rewrite elem_of_nil.
       - rewrite timeouts_app, perform_all_timeouts. cbn [app].
         destruct (createConnection_fields connectable
                     (Some (_retryDelay (client (perform_all connectable
                                                   (l_calls listeners) ws).1)))
                     (perform_all connectable (l_calls listeners) ws).1)
           as (_ & _ & _ & _ & -> & _).
         split; [done|]. intros d. unfold _createConnection. cbn [snd timeouts].
         rewrite list_elem_of_singleton. intros ->. split; [done|]. eauto. }
  all: unfold_ops; simpl;
    repeat (case_match; simplify_eq/=; rewrite ?timeouts_WsSend);
    (split; [done|]); intros d; rewrite ?elem_of_nil; try done.
Qed.

Lemma new_Client_retryDelay u options w0 o0 :
  new_Client connectable u options = Normal (w0, o0) ->
  _retryDelay (client w0) = default RETRY_DELAY (options ≫= opt_retryDelay) /\
  1000 <= _retryDelay (client w0) /\ timeouts o0 = [].
Proof.
  unfold new_Client.
  destruct (negb _); [done|].
  unfold mbind at 1 2 3, completion_bind.
  destruct (match opt_retryCount _ with None => _ | _ => _ end) as [count|]; [|done].
  destruct (checked 1000 _ (opt_retryDelay _)) as [delay|] eqn:Ed; [|done].
  destruct (checked 1000 _ (opt_pingTimeout _)) as [ping|]; [|done].
  unfold mret, completion_ret. intros H. injection H as H.
  assert (Hd : delay = options ≫= opt_retryDelay /\ 1000 <= default RETRY_DELAY delay).
  { unfold checked in Ed. destruct options as [o|]; simpl in *.
    - destruct (opt_retryDelay o) as [d|]; [|by simplify_eq].
      destruct (Z.ltb_spec d 1000); by simplify_eq.
    - by simplify_eq. }
  destruct Hd as [<- Hge].
  destruct (bool_decide _); unfold connect, _createConnection in H; by simplify_eq/=.
Qed.

(** X21.  The reconnection delay is the one configured: every timer a
    constructed client sets, in any run, waits [options.retryDelay], or
    10000 ms when the option is absent, and never less than 1000 ms.  The
    constructor sets no timer, and in any state a timer is set only when a
    transport reports a close. *)
Theorem reconnection_delay_is_configured (u : ParsedUrl) (options : option Options)
    (w0 : World) (o0 : list Obs) (trace : list Input) (d : Z) :
  new_Client connectable u options = Normal (w0, o0) ->
  timeouts o0 = [] /\
  (d ∈ timeouts (run connectable w0 trace).2 ->
   d = default RETRY_DELAY (options ≫= opt_retryDelay) /\ 1000 <= d) /\
  (forall w i, timeouts (step connectable w i).2 <> [] ->
     exists c code reason l, i = Closed c code reason l).
Proof.
  intros Hnew.
  destruct (new_Client_retryDelay u options w0 o0 Hnew) as (Hd & Hge & Ho).
  split; [done|]. split.
  - rewrite <- Hd. clear Hnew Hd Ho.
    revert w0 Hge. induction trace as [|i trace IH]; intros w Hge.
    + simpl. by rewrite elem_of_nil.
    + rewrite run_cons. cbn [snd]. rewrite timeouts_app, elem_of_app.
      destruct (step_retryDelay w i) as [Hr Ht].
      intros [Hin|Hin].
      * destruct (Ht d Hin) as [-> _]. done.
      * rewrite <- Hr. apply IH; [|done]. by rewrite Hr.
  - intros w i Hne. destruct (step_retryDelay w i) as [_ Ht].
    destruct (timeouts (step connectable w i).2) as [|d' l]; [done|].
    apply (Ht d'). apply list_elem_of_here.
Qed.

End Reconnection.

Lemma reconnect_replaces_transport_witness :
  _connection (client ready_world) = Some 0%nat /\
  (reconnect one_shot ready_world).2
    = [WsDisconnect 0; WsNew 1 (_getUri (client ready_world)); WsConnect 1].
Proof.
  assert (Hc : _connection (client ready_world) = Some 0%nat) by (vm_compute; reflexivity).
  split; [exact Hc|].
  exact (proj1 (reconnect_replaces_transport one_shot ready_world 0 Hc)).
Defined.

Lemma reconnection_delay_is_configured_witness :
  let w0 := created one_shot local_url (Some retry_soon) in
  let trace := [Opened 0 5; abnormal_closure] in
  new_Client one_shot local_url (Some retry_soon)
    = Normal (w0, [WsNew 0 (UriPlain "ws://127.0.0.1:8001/"); WsConnect 0]) /\
  2500 ∈ timeouts (run one_shot w0 trace).2 /\
  2500 = default RETRY_DELAY (Some retry_soon ≫= opt_retryDelay).
Proof.
  cbn zeta.
  assert (H : new_Client one_shot local_url (Some retry_soon)
              = Normal (created one_shot local_url (Some retry_soon),
                        [WsNew 0 (UriPlain "ws://127.0.0.1:8001/"); WsConnect 0]))
    by (vm_compute; reflexivity).
  assert (Hin : 2500 ∈ timeouts (run one_shot (created one_shot local_url (Some retry_soon))
                                   [Opened 0 5; abnormal_closure]).2)
    by (vm_compute; apply list_elem_of_here).
  split; [exact H|]. split; [exact Hin|].
  exact (proj1 (proj1 (proj2 (reconnection_delay_is_configured one_shot local_url
                                (Some retry_soon) _ _ [Opened 0 5; abnormal_closure]
                                2500 H))
                  Hin)).
Defined.

Section OneRunningTransport.

Variable connectable : tstate -> bool.
Hypothesis connect_once : forall s, connectable s = true -> s = TNew.

(** X22.  With a transport that honours [connect()] only in its initial
    state, and listeners of [disconnected] that call nothing but request
    methods, a constructed client has at most one running transport at
    any time, whatever it is asked and whatever happens to its
    transports, and that transport is the one it currently holds. *)
Theorem at_most_one_running_transport (u : ParsedUrl) (options : option Options)
    (w0 : World) (o0 : list Obs) (trace : list Input) :
  new_Client connectable u options = Normal (w0, o0) ->
  forallb calm trace = true ->
  let w := (run connectable w0 trace).1 in
  running w = [] \/
  exists c, running w = [c] /\ _connection (client w) = Some c.
Proof.
  intros Hnew Hcalm w.
  assert (Ho : others_closed w).
  { apply (run_others_closed connectable connect_once); [done|].
    by eapply (new_Client_others_closed connectable). }
  assert (Hcur : forall c, c ∈ running w -> _connection (client w) = Some c).
  { intros c Hin. unfold running in Hin.
    apply list_elem_of_filter in Hin as [Hl _].
    destruct (sockets w !! c) as [t|] eqn:E; [|done]. simpl in Hl.
    apply (others_closed_current w c t Ho E).
    by destruct (t_state t). }
  assert (Hnd : NoDup (running w)).
  { unfold running. apply NoDup_filter, NoDup_seq. }
  destruct (running w) as [|a [|b l]] eqn:Er.
  - by left.
  - right. exists a. split; [done|]. apply Hcur. apply list_elem_of_here.
  - exfalso.
    assert (Ha : _connection (client w) = Some a) by (apply Hcur; set_solver).
    assert (Hb : _connection (client w) = Some b) by (apply Hcur; set_solver).
    apply NoDup_cons in Hnd as [Hna _]. apply Hna.
    assert (a = b) as -> by congruence. apply list_elem_of_here.
Qed.

End OneRunningTransport.

Lemma at_most_one_running_transport_witness :
  let w0 := created one_shot local_url None in
  let trace := [Opened 0 5;
                Closed 0 (VNum 1006) (VStr "")
                  {| l_calls := [OpExecute "getPairs" None None]; l_throws := true |};
                Reconnect; Disconnect; Connect; TimerFired 1;
                Opened 2 6; Opened 1 7] in
  (forall s, one_shot s = true -> s = TNew) /\
  new_Client one_shot local_url None
    = Normal (w0, [WsNew 0 (UriPlain "ws://127.0.0.1:8001/"); WsConnect 0]) /\
  forallb calm trace = true /\
  (running (run one_shot w0 trace).1 = [] \/
   exists c, running (run one_shot w0 trace).1 = [c] /\
             _connection (client (run one_shot w0 trace).1) = Some c).
Proof.
  cbn zeta.
  assert (Honce : forall s, one_shot s = true -> s = TNew).
  { intros s Hs. by apply bool_decide_eq_true in Hs. }
  assert (H : new_Client one_shot local_url None
              = Normal (created one_shot local_url None,
                        [WsNew 0 (UriPlain "ws://127.0.0.1:8001/"); WsConnect 0]))
    by (vm_compute; reflexivity).
  split; [exact Honce|]. split; [exact H|]. split; [reflexivity|].
  exact (at_most_one_running_transport one_shot Honce local_url None _ _
           [Opened 0 5;
            Closed 0 (VNum 1006) (VStr "")
              {| l_calls := [OpExecute "getPairs" None None]; l_throws := true |};
            Reconnect; Disconnect; Connect; TimerFired 1;
            Opened 2 6; Opened 1 7] H eq_refl).
Defined.
